(** * Workout logger: payload validation and the workout store

    A shallow embedding of [src/app.py]: the payload validator
    ([_parse_iso_date], [validate_workout_payload]), the store operations
    ([init_db], [list_workouts], [get_workout], [create_workout],
    [update_workout], [delete_workout], [seed_sample_data]) over an
    explicit database state, and the routes of the API
    ([api_list_workouts], [api_get_workout], [api_create_workout],
    [api_update_workout], [api_delete_workout], [api_debug_seed]).

    Conventions of the embedding.
    - A payload is a JSON document as the interpreter sees it: [value].
    - A character is a code point below 256 ([ascii]); a string is a
      [string] of such characters.
    - Integers are unbounded ([Z]).  [int] reads a string of up to 4300
      digits, the limit the interpreter starts with; [str] is total: it
      writes an integer at any length and a value at any depth, where the
      interpreter raises [ValueError] past 4300 digits and
      [RecursionError] past its depth ([names_print] says when the two
      agree on the names of a payload).
    - A float is a binary64 number in the representation of [SpecFloat].
    - An exception is a value of [exn]; code that may raise returns a
      [result].
    - An identity is a row id of the store: the [workout_id] of a query or
      a write ranges over row ids, and a table always has a next one.
      The code binds the [workout_id] it is given to a statement, and an
      integer that is not of 64 bits ([sqlite_integer]) raises
      [OverflowError] there, where [get_workout], [update_workout] and
      [delete_workout] here find no row: [update_workout_bound] is the
      update with the binding, and what else is said of an identity that
      need not be in the store takes the range as a hypothesis.
    - The clock read by [create_workout] and [update_workout] is an argument
      [now]; what [seed_sample_data] draws at random, and the clock it
      reads, is an argument too, and so is the time a route measures.
    - A route takes the decoded body of the request and returns the object
      it gives to [jsonify] with the status of the response. *)

From Stdlib Require Import ZArith List String Ascii Bool Lia.
From Stdlib Require Import Permutation Sorted DecimalString SpecFloat.
Import ListNotations.

Open Scope string_scope.
Open Scope list_scope.
Open Scope Z_scope.

#[local] Set Warnings "-register-all".

Infix "+++" := String.append (at level 60, right associativity).

(* ================================================================== *)
(** * Exceptions *)

Inductive exn : Type :=
| AttributeError
| KeyError
| TypeError
| ValueError
| OverflowError
| IntegrityError.

Inductive result (A : Type) : Type :=
| Ok (a : A)
| Raise (e : exn).

Arguments Ok {A} a.
Arguments Raise {A} e.

Definition bind {A B : Type} (r : result A) (k : A -> result B) : result B :=
  match r with
  | Ok a => k a
  | Raise e => Raise e
  end.

Notation "x <- r ;; k" := (bind r (fun x => k))
  (at level 61, r at next level, right associativity).
Notation "' p <- r ;; k" := (bind r (fun p => k))
  (at level 61, p pattern, r at next level, right associativity).

(** [try: ... except (TypeError, ValueError): ... = None] *)
Definition except_type_value {A : Type} (r : result A) : result (option A) :=
  match r with
  | Ok a => Ok (Some a)
  | Raise TypeError => Ok None
  | Raise ValueError => Ok None
  | Raise e => Raise e
  end.

(* ================================================================== *)
(** * Characters and strings *)

Definition code (c : ascii) : Z := Z.of_N (N_of_ascii c).

Definition chr (n : Z) : ascii := ascii_of_N (Z.to_N n).

Definition in_range (lo hi : Z) (c : ascii) : bool :=
  (lo <=? code c) && (code c <=? hi).

(** [str.isspace] on one character. *)
Definition is_space (c : ascii) : bool :=
  in_range 9 13 c || in_range 28 32 c || (code c =? 133) || (code c =? 160).

(** The blanks [int] and [float] skip around a number. *)
Definition is_num_space (c : ascii) : bool :=
  in_range 9 13 c || (code c =? 32) || (code c =? 133) || (code c =? 160).

Definition is_digit (c : ascii) : bool := in_range 48 57 c.

Definition digit_val (c : ascii) : Z := code c - 48.

Definition chars (s : string) : list ascii := list_ascii_of_string s.

Definition str_of (l : list ascii) : string := string_of_list_ascii l.

Fixpoint lstrip_by (sp : ascii -> bool) (l : list ascii) : list ascii :=
  match l with
  | [] => []
  | c :: l' => if sp c then lstrip_by sp l' else l
  end.

Definition rstrip_by (sp : ascii -> bool) (l : list ascii) : list ascii :=
  rev (lstrip_by sp (rev l)).

Definition strip_by (sp : ascii -> bool) (l : list ascii) : list ascii :=
  rstrip_by sp (lstrip_by sp l).

(** [s.strip()] *)
Definition strip (s : string) : string := str_of (strip_by is_space (chars s)).

Definition is_empty (s : string) : bool :=
  match s with
  | EmptyString => true
  | String _ _ => false
  end.

Definition string_of_Z (n : Z) : string := NilZero.string_of_int (Z.to_int n).

Fixpoint join (sep : string) (l : list string) : string :=
  match l with
  | [] => EmptyString
  | [s] => s
  | s :: l' => s +++ sep +++ join sep l'
  end.

Fixpoint repeat_char (c : ascii) (n : nat) : string :=
  match n with
  | O => EmptyString
  | S n' => String c (repeat_char c n')
  end.

Definition lower (c : ascii) : ascii :=
  if in_range 65 90 c then chr (code c + 32) else c.

(* ================================================================== *)
(** * Floats (binary64) *)

Definition prec : Z := 53.
Definition emax : Z := 1024.

Definition float := spec_float.

Definition pos_zero : float := S754_zero false.

(** [a < b] on floats; false when either side is NaN. *)
Definition float_ltb (a b : float) : bool := SFltb a b.

Definition float_leb (a b : float) : bool := SFleb a b.

Definition is_nan (f : float) : bool :=
  match f with
  | S754_nan => true
  | _ => false
  end.

(** [float(n)] for an integer: round to nearest, ties to even;
    [OverflowError] when the result is not finite. *)
Definition float_of_int (n : Z) : result float :=
  match binary_normalize prec emax n 0 false with
  | S754_infinity _ => Raise OverflowError
  | f => Ok f
  end.

(** The float nearest to [d * 10^x], for [d > 0]; infinite past the range. *)
Definition float_of_decimal (neg : bool) (d : positive) (x : Z) : float :=
  if 0 <=? x then
    binary_normalize prec emax (if neg then Zneg d * 10 ^ x else Zpos d * 10 ^ x) 0 false
  else
    let '(q, e, l) := SFdiv_core_binary prec emax (Zpos d) 0 (10 ^ (- x)) 0 in
    binary_round_aux prec emax neg q e l.

(** [int(f)]: truncation toward zero. *)
Definition int_of_float (f : float) : result Z :=
  match f with
  | S754_zero _ => Ok 0
  | S754_nan => Raise ValueError
  | S754_infinity _ => Raise OverflowError
  | S754_finite s m e =>
      let a := if 0 <=? e then Zpos m * 2 ^ e else Zpos m / 2 ^ (- e) in
      Ok (if s then - a else a)
  end.

(* ================================================================== *)
(** * Numbers read from strings *)

Fixpoint span (p : ascii -> bool) (l : list ascii) : list ascii * list ascii :=
  match l with
  | [] => ([], [])
  | c :: l' =>
      if p c then let '(a, b) := span p l' in (c :: a, b) else ([], l)
  end.

Definition digits_value (l : list ascii) : Z :=
  fold_left (fun a c => a * 10 + digit_val c) l 0.

Definition is_char (n : Z) (c : ascii) : bool := code c =? n.

Definition underscore : Z := 95.

(** The part of a number after a sign: ["-"] gives [true]. *)
Definition read_sign (l : list ascii) : bool * list ascii :=
  match l with
  | c :: l' =>
      if is_char 45 c then (true, l')
      else if is_char 43 c then (false, l')
      else (false, l)
  | [] => (false, l)
  end.

(** Digits with single underscores between them, read after a first digit
    of value [acc]. *)
Fixpoint digits_from (acc : Z) (l : list ascii) : option Z :=
  match l with
  | [] => Some acc
  | c :: l' =>
      if is_digit c then digits_from (acc * 10 + digit_val c) l'
      else if is_char underscore c then
        match l' with
        | d :: l'' =>
            if is_digit d then digits_from (acc * 10 + digit_val d) l''
            else None
        | [] => None
        end
      else None
  end.

(** The most digits [int] reads from a string. *)
Definition max_str_digits : Z := 4300.

(** [int(s)] for a string, base ten. *)
Definition int_of_str (s : string) : result Z :=
  let '(neg, l) := read_sign (strip_by is_num_space (chars s)) in
  match l with
  | c :: l' =>
      if is_digit c then
        match digits_from (digit_val c) l' with
        | Some n =>
            if max_str_digits <? Z.of_nat (List.length (filter is_digit l))
            then Raise ValueError
            else Ok (if neg then - n else n)
        | None => Raise ValueError
        end
      else Raise ValueError
  | [] => Raise ValueError
  end.

(** Underscores of a float literal stand between two digits only; they are
    dropped before the number is read. *)
Fixpoint drop_underscores (prev_digit : bool) (l : list ascii)
  : option (list ascii) :=
  match l with
  | [] => Some []
  | c :: l' =>
      if is_char underscore c then
        match l' with
        | d :: _ =>
            if prev_digit && is_digit d then drop_underscores false l'
            else None
        | [] => None
        end
      else option_map (cons c) (drop_underscores (is_digit c) l')
  end.

Definition chars_eqb (a : list ascii) (b : string) : bool :=
  String.eqb (str_of a) b.

(** The exponent part of a float literal, which must end the literal. *)
Definition read_exponent (l : list ascii) : option Z :=
  match l with
  | [] => Some 0
  | c :: l' =>
      if is_char 101 (lower c) then
        let '(neg, l1) := read_sign l' in
        let '(ds, rest) := span is_digit l1 in
        match ds, rest with
        | _ :: _, [] => Some (if neg then - digits_value ds else digits_value ds)
        | _, _ => None
        end
      else None
  end.

Definition read_float (l : list ascii) : option float :=
  let '(neg, l1) := read_sign l in
  let low := map lower l1 in
  if chars_eqb low "inf" || chars_eqb low "infinity" then
    Some (S754_infinity neg)
  else if chars_eqb low "nan" then Some S754_nan
  else
    let '(ip, l2) := span is_digit l1 in
    let '(fp, l3) :=
      match l2 with
      | c :: r => if is_char 46 c then span is_digit r else ([], l2)
      | [] => ([], l2)
      end in
    match ip ++ fp with
    | [] => None
    | ds =>
        match read_exponent l3 with
        | Some x =>
            match digits_value ds with
            | Zpos d =>
                Some (float_of_decimal neg d (x - Z.of_nat (List.length fp)))
            | _ => Some (S754_zero neg)
            end
        | None => None
        end
    end.

(** [float(s)] for a string. *)
Definition float_of_str (s : string) : result float :=
  match drop_underscores false (strip_by is_num_space (chars s)) with
  | Some l =>
      match read_float l with
      | Some f => Ok f
      | None => Raise ValueError
      end
  | None => Raise ValueError
  end.

(* ================================================================== *)
(** * Floats written as strings ([repr]) *)

(** [m * 2^e] compared with [d * 10^k]. *)
Definition cmp_bin_dec (m e d k : Z) : comparison :=
  (m * 2 ^ Z.max e 0 * 10 ^ Z.max (- k) 0
   ?= d * 10 ^ Z.max k 0 * 2 ^ Z.max (- e) 0).

(** The integer part of [m * 2^e / 10^k]. *)
Definition floor_bin_dec (m e k : Z) : Z :=
  (m * 2 ^ Z.max e 0 * 10 ^ Z.max (- k) 0)
  / (10 ^ Z.max k 0 * 2 ^ Z.max (- e) 0).

Fixpoint exp10_down (fuel : nat) (m e x : Z) : Z :=
  match fuel with
  | O => x
  | S fuel' =>
      match cmp_bin_dec m e 1 x with
      | Lt => exp10_down fuel' m e (x - 1)
      | _ => x
      end
  end.

(** The largest [x] with [10^x <= m * 2^e]. *)
Definition exp10 (m e : Z) : Z :=
  exp10_down 4 m e ((Z.log2 m + e) * 30103 / 100000 + 1).

(** Whether [d * 10^k] reads back as the float [m * 2^e]. *)
Definition reads_back (m e d k : Z) : bool :=
  let below := if (m =? 2 ^ 52) && (-1074 <? e) then 1 else 2 in
  let lo := cmp_bin_dec (4 * m - below) (e - 2) d k in
  let hi := cmp_bin_dec (4 * m + 2) (e - 2) d k in
  match lo, hi with
  | Lt, Gt => true
  | Eq, Gt => Z.even m
  | Lt, Eq => Z.even m
  | _, _ => false
  end.

(** The decimal of [n] digits nearest to [m * 2^e] that reads back as it. *)
Definition short_decimal (m e x : Z) (n : Z) : option (Z * Z) :=
  let k := x - (n - 1) in
  let lo := floor_bin_dec m e k in
  let hi := lo + 1 in
  match reads_back m e lo k, reads_back m e hi k with
  | true, false => Some (lo, k)
  | false, true => Some (hi, k)
  | true, true =>
      match cmp_bin_dec (2 * m) e (lo + hi) k with
      | Lt => Some (lo, k)
      | Gt => Some (hi, k)
      | Eq => Some (if Z.even lo then lo else hi, k)
      end
  | false, false => None
  end.

Fixpoint shortest_from (fuel : nat) (m e x n : Z) : Z * Z :=
  match fuel with
  | O => (floor_bin_dec m e (x - (n - 1)), x - (n - 1))
  | S fuel' =>
      match short_decimal m e x n with
      | Some r => r
      | None => shortest_from fuel' m e x (n + 1)
      end
  end.

Definition rstrip_zeros (l : list ascii) : list ascii :=
  rstrip_by (is_char 48) l.

Definition pad2 (n : Z) : string :=
  if n <? 10 then String "0" (string_of_Z n) else string_of_Z n.

(** The digits [ds] with the decimal point after the first [pt] of them. *)
Definition place_point (ds : list ascii) (pt : Z) : string :=
  let n := Z.of_nat (List.length ds) in
  if (pt <=? -4) || (16 <? pt) then
    let x := pt - 1 in
    let mant :=
      match ds with
      | c :: _ :: _ => String c (String "." (str_of (tl ds)))
      | _ => str_of ds
      end in
    mant +++ "e" +++ (if x <? 0 then "-" else "+") +++ pad2 (Z.abs x)
  else if pt <=? 0 then
    "0." +++ repeat_char "0" (Z.to_nat (- pt)) +++ str_of ds
  else if n <=? pt then
    str_of ds +++ repeat_char "0" (Z.to_nat (pt - n)) +++ ".0"
  else
    str_of (firstn (Z.to_nat pt) ds) +++ "." +++ str_of (skipn (Z.to_nat pt) ds).

(** [repr(f)] *)
Definition float_repr (f : float) : string :=
  match f with
  | S754_nan => "nan"
  | S754_infinity s => if s then "-inf" else "inf"
  | S754_zero s => if s then "-0.0" else "0.0"
  | S754_finite s m e =>
      let x := exp10 (Zpos m) e in
      let '(d, k) := shortest_from 17 (Zpos m) e x 1 in
      let all := chars (string_of_Z d) in
      let pt := k + Z.of_nat (List.length all) in
      (if s then "-" else EmptyString) +++ place_point (rstrip_zeros all) pt
  end.

(* ================================================================== *)
(** * Values of a payload *)

(** A decoded JSON document.  A dictionary keeps its items in insertion
    order; its keys are distinct ([wf_value]). *)
Inductive value : Type :=
| VNone
| VBool (b : bool)
| VInt (n : Z)
| VFloat (f : float)
| VStr (s : string)
| VList (l : list value)
| VDict (d : list (string * value)).

Fixpoint lookup (k : string) (d : list (string * value)) : option value :=
  match d with
  | [] => None
  | (k', v) :: d' => if String.eqb k k' then Some v else lookup k d'
  end.

Fixpoint distinct_keys (d : list (string * value)) : bool :=
  match d with
  | [] => true
  | (k, _) :: d' =>
      negb (existsb (fun kv => String.eqb k (fst kv)) d') && distinct_keys d'
  end.

Fixpoint wf_value (v : value) : bool :=
  match v with
  | VFloat f => valid_binary prec emax f
  | VList l => forallb wf_value l
  | VDict d =>
      distinct_keys d
      && forallb (fun kv => match kv with (_, x) => wf_value x end) d
  | _ => true
  end.

(** Truth value of [v], as tested by [not], [or] and [if]. *)
Definition truthy (v : value) : bool :=
  match v with
  | VNone => false
  | VBool b => b
  | VInt n => negb (n =? 0)
  | VFloat (S754_zero _) => false
  | VFloat _ => true
  | VStr s => negb (is_empty s)
  | VList l => match l with [] => false | _ => true end
  | VDict d => match d with [] => false | _ => true end
  end.

(** [a or b] *)
Definition py_or (a b : value) : value := if truthy a then a else b.

(** [v.get(k)] *)
Definition py_get (v : value) (k : string) : result value :=
  match v with
  | VDict d =>
      match lookup k d with
      | Some x => Ok x
      | None => Ok VNone
      end
  | _ => Raise AttributeError
  end.

(** [v[k]] for a string [k] *)
Definition py_getitem (v : value) (k : string) : result value :=
  match v with
  | VDict d =>
      match lookup k d with
      | Some x => Ok x
      | None => Raise KeyError
      end
  | _ => Raise TypeError
  end.

(** The items a [for] loop over [v] visits. *)
Definition py_iter (v : value) : result (list value) :=
  match v with
  | VList l => Ok l
  | VStr s => Ok (map (fun c => VStr (String c EmptyString)) (chars s))
  | VDict d => Ok (map (fun kv => VStr (fst kv)) d)
  | _ => Raise TypeError
  end.

(** [v.strip()] *)
Definition py_strip (v : value) : result string :=
  match v with
  | VStr s => Ok (strip s)
  | _ => Raise AttributeError
  end.

(** [int(v)] *)
Definition py_int (v : value) : result Z :=
  match v with
  | VBool b => Ok (if b then 1 else 0)
  | VInt n => Ok n
  | VFloat f => int_of_float f
  | VStr s => int_of_str s
  | _ => Raise TypeError
  end.

(** [float(v)] *)
Definition py_float (v : value) : result float :=
  match v with
  | VBool b => float_of_int (if b then 1 else 0)
  | VInt n => float_of_int n
  | VFloat f => Ok f
  | VStr s => float_of_str s
  | _ => Raise TypeError
  end.

Definition quote : ascii := chr 39.
Definition dquote : ascii := chr 34.
Definition backslash : ascii := chr 92.

Definition printable (c : ascii) : bool :=
  in_range 32 126 c || (in_range 161 255 c && negb (code c =? 173)).

Definition hex_digit (n : Z) : ascii :=
  if n <? 10 then chr (48 + n) else chr (87 + n).

Definition escape_char (q : ascii) (c : ascii) : list ascii :=
  if Ascii.eqb c q || Ascii.eqb c backslash then [backslash; c]
  else if code c =? 9 then [backslash; chr 116]
  else if code c =? 10 then [backslash; chr 110]
  else if code c =? 13 then [backslash; chr 114]
  else if printable c then [c]
  else [backslash; chr 120; hex_digit (code c / 16); hex_digit (code c mod 16)].

(** [repr(s)] for a string *)
Definition str_repr (s : string) : string :=
  let l := chars s in
  let q :=
    if existsb (Ascii.eqb quote) l && negb (existsb (Ascii.eqb dquote) l)
    then dquote else quote in
  str_of (q :: flat_map (escape_char q) l ++ [q]).

(** [repr(v)] *)
Fixpoint py_repr (v : value) : string :=
  match v with
  | VNone => "None"
  | VBool b => if b then "True" else "False"
  | VInt n => string_of_Z n
  | VFloat f => float_repr f
  | VStr s => str_repr s
  | VList l => "[" +++ join ", " (map py_repr l) +++ "]"
  | VDict d =>
      "{" +++ join ", "
        (map (fun kv => match kv with
                        | (k, x) => str_repr k +++ ": " +++ py_repr x
                        end) d) +++ "}"
  end.

(** [str(v)], written in full whatever the value ([str] raises
    [ValueError] for an integer of more than 4300 digits, and
    [RecursionError] for a value nested deeper than the interpreter goes). *)
Definition py_str (v : value) : string :=
  match v with
  | VStr s => s
  | _ => py_repr v
  end.

(* ================================================================== *)
(** * Dates *)

Definition is_leap (y : Z) : bool :=
  (y mod 4 =? 0) && (negb (y mod 100 =? 0) || (y mod 400 =? 0)).

Definition days_in_month (y m : Z) : Z :=
  if m =? 2 then (if is_leap y then 29 else 28)
  else if (m =? 4) || (m =? 6) || (m =? 9) || (m =? 11) then 30
  else 31.

(** [date(y, m, d)] is a date. *)
Definition valid_date (y m d : Z) : bool :=
  (1 <=? y) && (y <=? 9999) && (1 <=? m) && (m <=? 12)
  && (1 <=? d) && (d <=? days_in_month y m).

Definition pad_left (n : nat) (s : string) : string :=
  repeat_char "0" (n - String.length s) +++ s.

(** [date(y, m, d).isoformat()] *)
Definition isoformat (y m d : Z) : string :=
  pad_left 4 (string_of_Z y) +++ "-" +++ pad_left 2 (string_of_Z m)
  +++ "-" +++ pad_left 2 (string_of_Z d).

(** The year of the format [%Y]: four digits. *)
Definition match_year (l : list ascii) : option (Z * list ascii) :=
  match l with
  | a :: b :: c :: d :: r =>
      if is_digit a && is_digit b && is_digit c && is_digit d
      then Some (digits_value [a; b; c; d], r) else None
  | _ => None
  end.

(** The ways [%m] matches a prefix of [l], in the order the matcher tries
    them: [1[0-2]], [0[1-9]], [[1-9]]. *)
Definition match_month (l : list ascii) : list (Z * list ascii) :=
  (match l with
   | a :: b :: r =>
       (if is_char 49 a && in_range 48 50 b
        then [(digits_value [a; b], r)] else [])
       ++ (if is_char 48 a && in_range 49 57 b
           then [(digits_value [a; b], r)] else [])
   | _ => []
   end)
  ++ (match l with
      | a :: r => if in_range 49 57 a then [(digits_value [a], r)] else []
      | [] => []
      end).

(** The ways [%d] matches a prefix of [l], in the order the matcher tries
    them: [3[0-1]], [[1-2]\d], [0[1-9]], [[1-9]], [ [1-9]]. *)
Definition match_day (l : list ascii) : list (Z * list ascii) :=
  (match l with
   | a :: b :: r =>
       (if is_char 51 a && in_range 48 49 b
        then [(digits_value [a; b], r)] else [])
       ++ (if in_range 49 50 a && is_digit b
           then [(digits_value [a; b], r)] else [])
       ++ (if is_char 48 a && in_range 49 57 b
           then [(digits_value [a; b], r)] else [])
   | _ => []
   end)
  ++ (match l with
      | a :: r => if in_range 49 57 a then [(digits_value [a], r)] else []
      | [] => []
      end)
  ++ (match l with
      | a :: b :: r =>
          if is_char 32 a && in_range 49 57 b
          then [(digits_value [b], r)] else []
      | _ => []
      end).

Definition after_dash (l : list ascii) : option (list ascii) :=
  match l with
  | c :: r => if is_char 45 c then Some r else None
  | [] => None
  end.

Fixpoint first_some {A B : Type} (f : A -> option B) (l : list A) : option B :=
  match l with
  | [] => None
  | a :: l' =>
      match f a with
      | Some b => Some b
      | None => first_some f l'
      end
  end.

(** The first match of [%Y-%m-%d] at the start of [l]: year, month, day
    and what is left of [l]. *)
Definition match_ymd (l : list ascii) : option (Z * Z * Z * list ascii) :=
  match match_year l with
  | Some (y, l1) =>
      match after_dash l1 with
      | Some l2 =>
          first_some
            (fun mr : Z * list ascii =>
               let '(m, l3) := mr in
               match after_dash l3 with
               | Some l4 =>
                   match match_day l4 with
                   | (d, rest) :: _ => Some (y, m, d, rest)
                   | [] => None
                   end
               | None => None
               end)
            (match_month l2)
      | None => None
      end
  | None => None
  end.

(** [datetime.strptime(s, "%Y-%m-%d").date()] *)
Definition strptime_date (s : string) : result (Z * Z * Z) :=
  match match_ymd (chars s) with
  | Some (y, m, d, []) =>
      if valid_date y m d then Ok (y, m, d) else Raise ValueError
  | _ => Raise ValueError
  end.

Definition _parse_iso_date (value : value) : option string :=
  match value with
  | VNone => None
  | VStr s =>
      let s := strip s in
      if is_empty s then None
      else
        match strptime_date s with
        | Ok (y, m, d) => Some (isoformat y m d)
        | Raise _ => None
        end
  | _ => None
  end.

(* ================================================================== *)
(** * The validator *)

Definition msg_date : string := "Workout date is required (YYYY-MM-DD).".

Definition msg_no_exercise : string := "At least one exercise is required.".

Definition msg_exercise_invalid (ei : Z) : string :=
  "Exercise #" +++ string_of_Z (ei + 1) +++ " is invalid.".

Definition msg_name_required (ei : Z) : string :=
  "Exercise #" +++ string_of_Z (ei + 1) +++ ": name is required.".

Definition msg_no_set (label : string) : string :=
  "Exercise '" +++ label +++ "': at least one set is required.".

Definition msg_set_invalid (label : string) (si : Z) : string :=
  "Exercise '" +++ label +++ "' set #" +++ string_of_Z (si + 1)
  +++ " is invalid.".

Definition msg_reps (label : string) (si : Z) : string :=
  "Exercise '" +++ label +++ "' set #" +++ string_of_Z (si + 1)
  +++ ": reps must be >= 1.".

Definition msg_weight (label : string) (si : Z) : string :=
  "Exercise '" +++ label +++ "' set #" +++ string_of_Z (si + 1)
  +++ ": weight must be >= 0.".

(** [name or ei+1], as the messages print it. *)
Definition exercise_label (name : string) (ei : Z) : string :=
  if is_empty name then string_of_Z (ei + 1) else name.

(** [reps_int is None or reps_int < 1] *)
Definition bad_reps (reps_int : option Z) : bool :=
  match reps_int with
  | None => true
  | Some n => n <? 1
  end.

(** [weight_num is None or weight_num < 0] *)
Definition bad_weight (weight_num : option float) : bool :=
  match weight_num with
  | None => true
  | Some w => float_ltb w pos_zero
  end.

(** The body of the loop over the sets of one exercise. *)
Definition validate_set (label : string) (si : Z) (s : value)
  : result (list string) :=
  match s with
  | VDict _ =>
      reps <- py_get s "reps" ;;
      weight <- py_get s "weight" ;;
      reps_int <- except_type_value (py_int reps) ;;
      weight_num <- except_type_value (py_float weight) ;;
      Ok ((if bad_reps reps_int then [msg_reps label si] else [])
          ++ (if bad_weight weight_num then [msg_weight label si] else []))
  | _ => Ok [msg_set_invalid label si]
  end.

Fixpoint validate_sets (label : string) (si : Z) (sets_ : list value)
  : result (list string) :=
  match sets_ with
  | [] => Ok []
  | s :: rest =>
      here <- validate_set label si s ;;
      more <- validate_sets label (si + 1) rest ;;
      Ok (here ++ more)
  end.

(** The body of the loop over the exercises. *)
Definition validate_exercise (ei : Z) (ex : value) : result (list string) :=
  match ex with
  | VDict _ =>
      nm <- py_get ex "name" ;;
      let name := strip (py_str (py_or nm (VStr EmptyString))) in
      let errors := if is_empty name then [msg_name_required ei] else [] in
      sets_ <- py_get ex "sets" ;;
      match sets_ with
      | VList ((_ :: _) as l) =>
          more <- validate_sets (exercise_label name ei) 0 l ;;
          Ok (errors ++ more)
      | _ => Ok (errors ++ [msg_no_set (exercise_label name ei)])
      end
  | _ => Ok [msg_exercise_invalid ei]
  end.

Fixpoint validate_exercises (ei : Z) (exercises : list value)
  : result (list string) :=
  match exercises with
  | [] => Ok []
  | ex :: rest =>
      here <- validate_exercise ei ex ;;
      more <- validate_exercises (ei + 1) rest ;;
      Ok (here ++ more)
  end.

(** [not workout_date] *)
Definition no_date (workout_date : option string) : bool :=
  match workout_date with
  | None => true
  | Some s => is_empty s
  end.

Definition validate_workout_payload (payload : value) : result (list string) :=
  wd <- py_get payload "workout_date" ;;
  let errors := if no_date (_parse_iso_date wd) then [msg_date] else [] in
  exercises <- py_get payload "exercises" ;;
  match exercises with
  | VList ((_ :: _) as l) =>
      more <- validate_exercises 0 l ;;
      Ok (errors ++ more)
  | _ => Ok (errors ++ [msg_no_exercise])
  end.

(* ================================================================== *)
(** * The store *)

Record workout_row : Type := {
  w_id : Z;
  w_workout_date : string;
  w_title : option string;
  w_created_at : string;
  w_updated_at : string
}.

Record exercise_row : Type := {
  e_id : Z;
  e_workout_id : Z;
  e_name : string;
  e_sort_order : Z
}.

Record set_row : Type := {
  s_id : Z;
  s_exercise_id : Z;
  s_set_number : Z;
  s_reps : Z;
  s_weight : float
}.

(** The three tables, and for each the largest identity it has given out
    ([AUTOINCREMENT]). *)
Record db : Type := {
  workouts : list workout_row;
  exercises : list exercise_row;
  sets : list set_row;
  seq_workouts : Z;
  seq_exercises : Z;
  seq_sets : Z
}.

Definition empty_db : db :=
  {| workouts := []; exercises := []; sets := [];
     seq_workouts := 0; seq_exercises := 0; seq_sets := 0 |}.

(** [CREATE TABLE IF NOT EXISTS ...]: a file that has no tables gets empty
    ones, a file that has them is left as it is. *)
Definition init_db (file : option db) : db :=
  match file with
  | None => empty_db
  | Some d => d
  end.

(** An integer bound to a statement is a 64-bit signed integer. *)
Definition sqlite_integer (n : Z) : bool :=
  (- 2 ^ 63 <=? n) && (n <? 2 ^ 63).

Definition bind_integer (n : Z) : result Z :=
  if sqlite_integer n then Ok n else Raise OverflowError.

(** A float parameter: NaN is bound as NULL. *)
Definition bind_real (f : float) : option float :=
  if is_nan f then None else Some f.

(** A number kept in a [REAL] column: negative zero is kept as zero. *)
Definition stored_real (f : float) : float :=
  match f with
  | S754_zero _ => pos_zero
  | _ => f
  end.

Definition has_workout (d : db) (id : Z) : bool :=
  existsb (fun w => w_id w =? id) (workouts d).

Definition has_exercise (d : db) (id : Z) : bool :=
  existsb (fun e => e_id e =? id) (exercises d).

(** [INSERT INTO workouts (workout_date, title, created_at, updated_at)] *)
Definition sql_insert_workout (workout_date title : option string)
  (created_at updated_at : string) (d : db) : result (db * Z) :=
  match workout_date with
  | None => Raise IntegrityError
  | Some wd =>
      let id := seq_workouts d + 1 in
      Ok ({| workouts := workouts d ++
                         [{| w_id := id; w_workout_date := wd;
                             w_title := title; w_created_at := created_at;
                             w_updated_at := updated_at |}];
             exercises := exercises d; sets := sets d;
             seq_workouts := id; seq_exercises := seq_exercises d;
             seq_sets := seq_sets d |}, id)
  end.

(** [INSERT INTO exercises (workout_id, name, sort_order)] *)
Definition sql_insert_exercise (workout_id : Z) (name : string)
  (sort_order : Z) (d : db) : result (db * Z) :=
  if has_workout d workout_id then
    let id := seq_exercises d + 1 in
    Ok ({| workouts := workouts d;
           exercises := exercises d ++
                        [{| e_id := id; e_workout_id := workout_id;
                            e_name := name; e_sort_order := sort_order |}];
           sets := sets d;
           seq_workouts := seq_workouts d; seq_exercises := id;
           seq_sets := seq_sets d |}, id)
  else Raise IntegrityError.

(** [INSERT INTO sets (exercise_id, set_number, reps, weight)] *)
Definition sql_insert_set (exercise_id set_number reps : Z) (weight : float)
  (d : db) : result db :=
  r <- bind_integer reps ;;
  match bind_real weight with
  | None => Raise IntegrityError
  | Some w =>
      if (1 <=? r) && float_leb pos_zero w && has_exercise d exercise_id then
        let id := seq_sets d + 1 in
        Ok {| workouts := workouts d; exercises := exercises d;
              sets := sets d ++
                      [{| s_id := id; s_exercise_id := exercise_id;
                          s_set_number := set_number; s_reps := r;
                          s_weight := stored_real w |}];
              seq_workouts := seq_workouts d;
              seq_exercises := seq_exercises d; seq_sets := id |}
      else Raise IntegrityError
  end.

(** [UPDATE workouts SET workout_date = ?, title = ?, updated_at = ?
     WHERE id = ?] *)
Definition sql_update_workout (workout_date title : option string)
  (updated_at : string) (id : Z) (d : db) : result db :=
  match workout_date with
  | None =>
      if has_workout d id then Raise IntegrityError else Ok d
  | Some wd =>
      Ok {| workouts :=
              map (fun w =>
                     if w_id w =? id then
                       {| w_id := w_id w; w_workout_date := wd;
                          w_title := title;
                          w_created_at := w_created_at w;
                          w_updated_at := updated_at |}
                     else w) (workouts d);
            exercises := exercises d; sets := sets d;
            seq_workouts := seq_workouts d;
            seq_exercises := seq_exercises d; seq_sets := seq_sets d |}
  end.

(** The sets left when the exercises [gone] are deleted
    ([ON DELETE CASCADE] of [sets.exercise_id]). *)
Definition cascade_sets (gone : list exercise_row) (l : list set_row)
  : list set_row :=
  filter (fun s => negb (existsb (fun e => e_id e =? s_exercise_id s) gone)) l.

(** [DELETE FROM exercises WHERE workout_id = ?] *)
Definition sql_delete_exercises (workout_id : Z) (d : db) : db :=
  let gone := filter (fun e => e_workout_id e =? workout_id) (exercises d) in
  {| workouts := workouts d;
     exercises :=
       filter (fun e => negb (e_workout_id e =? workout_id)) (exercises d);
     sets := cascade_sets gone (sets d);
     seq_workouts := seq_workouts d; seq_exercises := seq_exercises d;
     seq_sets := seq_sets d |}.

(** [DELETE FROM workouts WHERE id = ?], with the number of rows of
    [workouts] it deleted ([ON DELETE CASCADE] of [exercises.workout_id]
    and, through it, of [sets.exercise_id]). *)
Definition sql_delete_workout (id : Z) (d : db) : db * Z :=
  let d1 := sql_delete_exercises id d in
  ({| workouts := filter (fun w => negb (w_id w =? id)) (workouts d1);
      exercises := exercises d1; sets := sets d1;
      seq_workouts := seq_workouts d1; seq_exercises := seq_exercises d1;
      seq_sets := seq_sets d1 |},
   Z.of_nat (List.length (filter (fun w => w_id w =? id) (workouts d)))).

(** [ORDER BY]: the rows in the order [le], rows that compare equal in the
    order they had. *)
Fixpoint insert_sorted {A : Type} (le : A -> A -> bool) (x : A) (l : list A)
  : list A :=
  match l with
  | [] => [x]
  | y :: l' => if le x y then x :: l else y :: insert_sorted le x l'
  end.

Definition order_by {A : Type} (le : A -> A -> bool) (l : list A) : list A :=
  fold_right (insert_sorted le) [] l.

(** [a LEFT JOIN b ON on] *)
Definition left_join {A B : Type} (on : A -> B -> bool) (a : list A)
  (b : list B) : list (A * option B) :=
  flat_map (fun x =>
              match filter (on x) b with
              | [] => [(x, None)]
              | m => map (fun y => (x, Some y)) m
              end) a.

Fixpoint distinct (l : list Z) : list Z :=
  match l with
  | [] => []
  | x :: l' => x :: filter (fun y => negb (y =? x)) (distinct l')
  end.

Fixpoint some_values {A : Type} (l : list (option A)) : list A :=
  match l with
  | [] => []
  | Some a :: l' => a :: some_values l'
  | None :: l' => some_values l'
  end.

(** ** What the queries return *)

Record set_view : Type := {
  sv_id : Z;
  sv_set_number : Z;
  sv_reps : Z;
  sv_weight : float
}.

Record exercise_view : Type := {
  ev_id : Z;
  ev_name : string;
  ev_sort_order : Z;
  ev_sets : list set_view
}.

Record workout_view : Type := {
  wv_id : Z;
  wv_workout_date : string;
  wv_title : string;
  wv_created_at : string;
  wv_updated_at : string;
  wv_exercises : list exercise_view
}.

Record summary : Type := {
  sm_id : Z;
  sm_workout_date : string;
  sm_title : string;
  sm_created_at : string;
  sm_updated_at : string;
  sm_exercise_count : Z;
  sm_set_count : Z
}.

(** [COALESCE(title, '')] *)
Definition coalesce (title : option string) : string :=
  match title with
  | Some t => t
  | None => EmptyString
  end.

(** [ORDER BY sort_order ASC, id ASC] *)
Definition exercise_le (a b : exercise_row) : bool :=
  (e_sort_order a <? e_sort_order b)
  || ((e_sort_order a =? e_sort_order b) && (e_id a <=? e_id b)).

(** [ORDER BY set_number ASC, id ASC] *)
Definition set_le (a b : set_row) : bool :=
  (s_set_number a <? s_set_number b)
  || ((s_set_number a =? s_set_number b) && (s_id a <=? s_id b)).

(** [ORDER BY w.workout_date DESC, w.id DESC] *)
Definition summary_le (a b : summary) : bool :=
  String.ltb (sm_workout_date b) (sm_workout_date a)
  || (String.eqb (sm_workout_date a) (sm_workout_date b)
      && (sm_id b <=? sm_id a)).

Definition set_view_of (s : set_row) : set_view :=
  {| sv_id := s_id s; sv_set_number := s_set_number s;
     sv_reps := s_reps s; sv_weight := s_weight s |}.

(** [SELECT id, set_number, reps, weight FROM sets WHERE exercise_id = ?
     ORDER BY set_number ASC, id ASC] *)
Definition sets_rows (d : db) (exercise_id : Z) : list set_row :=
  order_by set_le (filter (fun s => s_exercise_id s =? exercise_id) (sets d)).

(** [SELECT id, name, sort_order FROM exercises WHERE workout_id = ?
     ORDER BY sort_order ASC, id ASC] *)
Definition exercises_rows (d : db) (workout_id : Z) : list exercise_row :=
  order_by exercise_le
    (filter (fun e => e_workout_id e =? workout_id) (exercises d)).

Definition exercise_view_of (d : db) (ex : exercise_row) : exercise_view :=
  {| ev_id := e_id ex; ev_name := e_name ex;
     ev_sort_order := e_sort_order ex;
     ev_sets := map set_view_of (sets_rows d (e_id ex)) |}.

(** [get_workout] for a [workout_id] that is a row id. *)
Definition get_workout (d : db) (workout_id : Z) : option workout_view :=
  match find (fun w => w_id w =? workout_id) (workouts d) with
  | None => None
  | Some w =>
      Some {| wv_id := w_id w;
              wv_workout_date := w_workout_date w;
              wv_title := coalesce (w_title w);
              wv_created_at := w_created_at w;
              wv_updated_at := w_updated_at w;
              wv_exercises :=
                map (exercise_view_of d) (exercises_rows d workout_id) |}
  end.

Definition joined_row : Type :=
  (workout_row * option exercise_row * option set_row)%type.

(** [workouts w LEFT JOIN exercises e ON e.workout_id = w.id
     LEFT JOIN sets s ON s.exercise_id = e.id] *)
Definition joined (d : db) : list joined_row :=
  left_join
    (fun (we : workout_row * option exercise_row) (s : set_row) =>
       match snd we with
       | Some e => s_exercise_id s =? e_id e
       | None => false
       end)
    (left_join (fun w e => e_workout_id e =? w_id w) (workouts d)
       (exercises d))
    (sets d).

Definition jr_workout (r : joined_row) : workout_row := fst (fst r).
Definition jr_exercise (r : joined_row) : option exercise_row := snd (fst r).
Definition jr_set (r : joined_row) : option set_row := snd r.

(** The row a group of [GROUP BY w.id] gives: the workout's columns,
    [COUNT(DISTINCT e.id)] and [COUNT(s.id)]. *)
Definition summarize (group : list joined_row) : list summary :=
  match group with
  | [] => []
  | r :: _ =>
      let w := jr_workout r in
      [{| sm_id := w_id w;
          sm_workout_date := w_workout_date w;
          sm_title := coalesce (w_title w);
          sm_created_at := w_created_at w;
          sm_updated_at := w_updated_at w;
          sm_exercise_count :=
            Z.of_nat (List.length
              (distinct (map e_id (some_values (map jr_exercise group)))));
          sm_set_count :=
            Z.of_nat (List.length (some_values (map jr_set group))) |}]
  end.

Definition list_workouts (d : db) : list summary :=
  let rows := joined d in
  order_by summary_le
    (flat_map
       (fun k => summarize (filter (fun r => w_id (jr_workout r) =? k) rows))
       (distinct (map (fun r => w_id (jr_workout r)) rows))).

(** ** Writes *)

(** [(payload.get("title") or "").strip() or None] *)
Definition title_param (payload : value) : result (option string) :=
  t <- py_get payload "title" ;;
  s <- py_strip (py_or t (VStr EmptyString)) ;;
  Ok (if is_empty s then None else Some s).

(** The loop over the sets of an exercise; [set_number] is the number of
    the first. *)
Fixpoint insert_sets (exercise_id set_number : Z) (sets_ : list value)
  (d : db) : result db :=
  match sets_ with
  | [] => Ok d
  | s :: rest =>
      reps <- py_getitem s "reps" ;;
      r <- py_int reps ;;
      weight <- py_getitem s "weight" ;;
      w <- py_float weight ;;
      d1 <- sql_insert_set exercise_id set_number r w d ;;
      insert_sets exercise_id (set_number + 1) rest d1
  end.

(** The loop over the exercises of a payload, the same in [create_workout]
    and [update_workout]; [sort_order] is the number of the first. *)
Fixpoint insert_exercises (workout_id sort_order : Z) (exs : list value)
  (d : db) : result db :=
  match exs with
  | [] => Ok d
  | ex :: rest =>
      nm <- py_getitem ex "name" ;;
      ' (d1, exercise_id) <-
        sql_insert_exercise workout_id (strip (py_str nm)) sort_order d ;;
      sets_ <- py_getitem ex "sets" ;;
      l <- py_iter sets_ ;;
      d2 <- insert_sets exercise_id 1 l d1 ;;
      insert_exercises workout_id (sort_order + 1) rest d2
  end.

(** [with conn:]: the writes are kept when the block returns and undone
    when it raises. *)
Definition transaction {A : Type} (d : db) (body : result (db * A))
  : db * result A :=
  match body with
  | Ok (d', a) => (d', Ok a)
  | Raise e => (d, Raise e)
  end.

Definition create_workout (now : string) (d : db) (payload : value)
  : db * result Z :=
  transaction d
    (wd <- py_getitem payload "workout_date" ;;
     title <- title_param payload ;;
     ' (d1, workout_id) <-
       sql_insert_workout (_parse_iso_date wd) title now now d ;;
     exs <- py_getitem payload "exercises" ;;
     l <- py_iter exs ;;
     d2 <- insert_exercises workout_id 1 l d1 ;;
     Ok (d2, workout_id)).

(** [update_workout] for a [workout_id] that is a row id. *)
Definition update_workout (now : string) (d : db) (workout_id : Z)
  (payload : value) : db * result bool :=
  transaction d
    (if negb (has_workout d workout_id) then Ok (d, false)
     else
       wd <- py_getitem payload "workout_date" ;;
       title <- title_param payload ;;
       d1 <- sql_update_workout (_parse_iso_date wd) title now workout_id d ;;
       let d2 := sql_delete_exercises workout_id d1 in
       exs <- py_getitem payload "exercises" ;;
       l <- py_iter exs ;;
       d3 <- insert_exercises workout_id 1 l d2 ;;
       Ok (d3, true)).

(** [delete_workout] for a [workout_id] that is a row id. *)
Definition delete_workout (d : db) (workout_id : Z) : db * result bool :=
  transaction d
    (let '(d1, rowcount) := sql_delete_workout workout_id d in
     Ok (d1, 0 <? rowcount)).

(** [update_workout] for any integer: the statement that looks for the
    workout, the first of the transaction, binds [workout_id], and an
    integer that is not of 64 bits raises [OverflowError] there, with
    nothing written. *)
Definition update_workout_bound (now : string) (d : db) (workout_id : Z)
  (payload : value) : db * result bool :=
  match bind_integer workout_id with
  | Ok id => update_workout now d id payload
  | Raise e => (d, Raise e)
  end.

(** ** Demo data *)

(** What [random_workout_payload] draws for one workout, with the time read
    for it: a date in ISO form, and exercises with a name and sets of
    repetitions and weight. *)
Record seeded_workout : Type := {
  sw_workout_date : string;
  sw_now : string;
  sw_exercises : list (string * list (Z * float))
}.

Fixpoint seed_sets (ex_id set_number : Z) (sets_ : list (Z * float)) (d : db)
  : result db :=
  match sets_ with
  | [] => Ok d
  | (reps, weight) :: rest =>
      d1 <- sql_insert_set ex_id set_number reps weight d ;;
      seed_sets ex_id (set_number + 1) rest d1
  end.

Fixpoint seed_exercises (workout_id sort_order : Z)
  (exs : list (string * list (Z * float))) (d : db) : result db :=
  match exs with
  | [] => Ok d
  | (name, sets_) :: rest =>
      ' (d1, ex_id) <- sql_insert_exercise workout_id name sort_order d ;;
      d2 <- seed_sets ex_id 1 sets_ d1 ;;
      seed_exercises workout_id (sort_order + 1) rest d2
  end.

Fixpoint seed_workouts (drawn : list seeded_workout) (created : Z) (d : db)
  : result (db * Z) :=
  match drawn with
  | [] => Ok (d, created)
  | w :: rest =>
      ' (d1, workout_id) <-
        sql_insert_workout (Some (sw_workout_date w)) None (sw_now w)
          (sw_now w) d ;;
      d2 <- seed_exercises workout_id 1 (sw_exercises w) d1 ;;
      seed_workouts rest (created + 1) d2
  end.

(** [seed_sample_data], for the workouts [drawn] in its [count] rounds. *)
Definition seed_sample_data (drawn : list seeded_workout) (d : db)
  : db * result Z :=
  transaction d (seed_workouts drawn 0 d).

(* ================================================================== *)
(** * States of the store *)

(** The states the operations lead to from a new file. *)
Inductive reachable : db -> Prop :=
| reach_init : reachable (init_db None)
| reach_create (now : string) (d : db) (payload : value) :
    reachable d -> reachable (fst (create_workout now d payload))
| reach_update (now : string) (d : db) (id : Z) (payload : value) :
    reachable d -> reachable (fst (update_workout now d id payload))
| reach_delete (d : db) (id : Z) :
    reachable d -> reachable (fst (delete_workout d id))
| reach_seed (drawn : list seeded_workout) (d : db) :
    reachable d -> reachable (fst (seed_sample_data drawn d)).

(** Identities are positive, at most the last one given out, and distinct. *)
Definition ids_ok {A : Type} (id : A -> Z) (seq : Z) (rows : list A) : Prop :=
  Forall (fun r => 0 < id r <= seq) rows /\ NoDup (map id rows).

(** Every exercise has its workout and every set its exercise. *)
Definition no_orphans (d : db) : Prop :=
  Forall (fun e => has_workout d (e_workout_id e) = true) (exercises d)
  /\ Forall (fun s => has_exercise d (s_exercise_id s) = true) (sets d).

(** The [CHECK] constraints of [sets]. *)
Definition checks_ok (d : db) : Prop :=
  Forall (fun s => 1 <= s_reps s /\ float_leb pos_zero (s_weight s) = true)
    (sets d).

(** The last identities given out are not negative. *)
Definition seqs_ok (d : db) : Prop :=
  0 <= seq_workouts d /\ 0 <= seq_exercises d /\ 0 <= seq_sets d.

Record db_inv (d : db) : Prop := {
  inv_seqs : seqs_ok d;
  inv_workouts : ids_ok w_id (seq_workouts d) (workouts d);
  inv_exercises : ids_ok e_id (seq_exercises d) (exercises d);
  inv_sets : ids_ok s_id (seq_sets d) (sets d);
  inv_orphans : no_orphans d;
  inv_checks : checks_ok d
}.

(* ================================================================== *)
(** * A payload against what the store returns *)

(** [R k a b] for the [k]-th, [k+1]-th, ... items of two lists of the same
    length. *)
Inductive numbered {A B : Type} (R : Z -> A -> B -> Prop)
  : Z -> list A -> list B -> Prop :=
| numbered_nil (k : Z) : numbered R k [] []
| numbered_cons (k : Z) (a : A) (b : B) (l : list A) (l' : list B) :
    R k a b -> numbered R (k + 1) l l' -> numbered R k (a :: l) (b :: l').

(** The numbers of a set of the payload, as [create_workout] reads them. *)
Definition set_numbers (s : value) (reps : Z) (weight : float) : Prop :=
  exists r w f,
    py_getitem s "reps" = Ok r /\ py_int r = Ok reps
    /\ py_getitem s "weight" = Ok w /\ py_float w = Ok f
    /\ weight = stored_real f.

(** The sets of an exercise of the payload. *)
Definition exercise_sets (ex : value) (sl : list value) : Prop :=
  exists v, py_getitem ex "sets" = Ok v /\ py_iter v = Ok sl.

Definition exercise_name (ex : value) (name : string) : Prop :=
  exists nm, py_getitem ex "name" = Ok nm /\ name = strip (py_str nm).

(** The exercises of a payload. *)
Definition payload_exercises (payload : value) (l : list value) : Prop :=
  exists v, py_getitem payload "exercises" = Ok v /\ py_iter v = Ok l.

(** The returned set [sv] is the [k]-th set [s] of its exercise. *)
Definition set_matches (k : Z) (s : value) (sv : set_view) : Prop :=
  sv_set_number sv = k /\ set_numbers s (sv_reps sv) (sv_weight sv).

(** The returned exercise [ev] is the [k]-th exercise [ex] of the payload. *)
Definition exercise_matches (k : Z) (ex : value) (ev : exercise_view) : Prop :=
  ev_sort_order ev = k
  /\ exercise_name ex (ev_name ev)
  /\ exists sl, exercise_sets ex sl /\ numbered set_matches 1 sl (ev_sets ev).

(** The returned tree [v] holds the exercises and sets of [payload], in
    their order and numbered from one. *)
Definition tree_matches (payload : value) (v : workout_view) : Prop :=
  exists l,
    payload_exercises payload l
    /\ numbered exercise_matches 1 l (wv_exercises v).

(** The identities of the exercises and sets of the tree [v] were given out
    after the state [d]. *)
Definition fresh_ids (d : db) (v : workout_view) : Prop :=
  Forall (fun ev =>
            seq_exercises d < ev_id ev
            /\ Forall (fun sv => seq_sets d < sv_id sv) (ev_sets ev))
    (wv_exercises v).

(** What [create_workout] can store of a checked payload: a title that is
    a string or counts as false, repetitions below [2^63] and weights that
    are numbers. *)
Definition storable_set (s : value) : bool :=
  match py_get s "reps", py_get s "weight" with
  | Ok r, Ok w =>
      match py_int r, py_float w with
      | Ok n, Ok f => sqlite_integer n && negb (is_nan f)
      | _, _ => false
      end
  | _, _ => false
  end.

Definition storable_exercise (ex : value) : bool :=
  match py_get ex "sets" with
  | Ok (VList sl) => forallb storable_set sl
  | _ => false
  end.

Definition storable_title (t : value) : bool :=
  match t with
  | VStr _ => true
  | _ => negb (truthy t)
  end.

Definition storable (payload : value) : bool :=
  match py_get payload "title", py_get payload "exercises" with
  | Ok t, Ok (VList l) => storable_title t && forallb storable_exercise l
  | _, _ => false
  end.

(** A set whose numbers make the validator raise: repetitions that are an
    infinite float, or a weight that is an integer past the floats. *)
Definition overflows {A : Type} (r : result A) : bool :=
  match r with
  | Raise OverflowError => true
  | _ => false
  end.

Definition set_in_range (s : value) : bool :=
  match py_get s "reps", py_get s "weight" with
  | Ok r, Ok w => negb (overflows (py_int r)) && negb (overflows (py_float w))
  | _, _ => true
  end.

Definition exercise_in_range (ex : value) : bool :=
  match py_get ex "sets" with
  | Ok (VList sl) => forallb set_in_range sl
  | _ => true
  end.

Definition numbers_in_range (payload : value) : bool :=
  match py_get payload "exercises" with
  | Ok (VList l) => forallb exercise_in_range l
  | _ => true
  end.

(** A name that [str(name or "")] writes as [py_str] does: a string, a
    value that counts as false, a boolean, a float, or an integer of at
    most 4300 digits.  (Of a longer integer [str] raises [ValueError]; a
    list or a dictionary can hold one, or be nested too deep to be
    written.) *)
Definition name_prints (nm : value) : bool :=
  match py_or nm (VStr EmptyString) with
  | VInt n => Z.abs n <? 10 ^ max_str_digits
  | VList _ => false
  | VDict _ => false
  | _ => true
  end.

Definition exercise_prints (ex : value) : bool :=
  match py_get ex "name" with
  | Ok nm => name_prints nm
  | Raise _ => true
  end.

Definition names_print (payload : value) : bool :=
  match py_get payload "exercises" with
  | Ok (VList l) => forallb exercise_prints l
  | _ => true
  end.

(** What the validator accepts: a date that parses, a list of one or more
    exercises, each a dictionary with a name that is not blank and a list
    of one or more sets, each a dictionary whose repetitions are an integer
    of one or more and whose weight is a float not below zero. *)
Definition accepted_set (s : value) : bool :=
  match s with
  | VDict _ =>
      match py_get s "reps", py_get s "weight" with
      | Ok r, Ok w =>
          match py_int r, py_float w with
          | Ok n, Ok f => (1 <=? n) && negb (float_ltb f pos_zero)
          | _, _ => false
          end
      | _, _ => false
      end
  | _ => false
  end.

Definition accepted_exercise (ex : value) : bool :=
  match ex with
  | VDict _ =>
      match py_get ex "name", py_get ex "sets" with
      | Ok nm, Ok (VList ((_ :: _) as sl)) =>
          negb (is_empty (strip (py_str (py_or nm (VStr EmptyString)))))
          && forallb accepted_set sl
      | _, _ => false
      end
  | _ => false
  end.

Definition accepted (payload : value) : bool :=
  match py_get payload "workout_date", py_get payload "exercises" with
  | Ok wd, Ok (VList ((_ :: _) as l)) =>
      negb (no_date (_parse_iso_date wd)) && forallb accepted_exercise l
  | _, _ => false
  end.

(** The error of the date check, if any. *)
Definition date_errors (payload : value) : list string :=
  match py_get payload "workout_date" with
  | Ok wd => if no_date (_parse_iso_date wd) then [msg_date] else []
  | Raise _ => []
  end.

(** [exercises] is a list of one or more items. *)
Definition has_exercises (payload : value) : bool :=
  match py_get payload "exercises" with
  | Ok (VList (_ :: _)) => true
  | _ => false
  end.

(** ** The rows a payload leaves in the tables *)

(** An exercise row with its set rows. *)
Definition block : Type := (exercise_row * list set_row)%type.

(** The row [row] is the [k]-th set [s] of the exercise [eid]. *)
Definition set_row_matches (eid : Z) (k : Z) (s : value) (row : set_row)
  : Prop :=
  s_exercise_id row = eid /\ s_set_number row = k
  /\ set_numbers s (s_reps row) (s_weight row).

(** The rows [b] are the [k]-th exercise [ex] of the workout [wid], with
    the identity [c + k]. *)
Definition block_matches (wid c : Z) (k : Z) (ex : value) (b : block)
  : Prop :=
  e_workout_id (fst b) = wid /\ e_sort_order (fst b) = k
  /\ e_id (fst b) = c + k
  /\ exercise_name ex (e_name (fst b))
  /\ exists sl, exercise_sets ex sl
                /\ numbered (set_row_matches (e_id (fst b))) 1 sl (snd b).

Definition set_rows_after (seq : Z) (rows : list set_row) : Prop :=
  Forall (fun r => seq < s_id r) rows.

Definition view_of_block (b : block) : exercise_view :=
  {| ev_id := e_id (fst b); ev_name := e_name (fst b);
     ev_sort_order := e_sort_order (fst b);
     ev_sets := map set_view_of (snd b) |}.

(** What the rows of a numbered block are. *)
Definition block_facts (wid c k : Z) (b : block) : Prop :=
  k <= e_sort_order (fst b)
  /\ e_id (fst b) = c + e_sort_order (fst b)
  /\ e_workout_id (fst b) = wid
  /\ Forall (fun s => s_exercise_id s = e_id (fst b)) (snd b)
  /\ StronglySorted (fun x y => set_le x y = true) (snd b).

(** ** The summary of a workout *)

Definition exercises_of (d : db) (w : workout_row) : list exercise_row :=
  filter (fun e => e_workout_id e =? w_id w) (exercises d).

Definition sets_of (d : db) (e : exercise_row) : list set_row :=
  filter (fun s => s_exercise_id s =? e_id e) (sets d).

(** The row of [list_workouts] for [w]: its columns, the number of its
    exercises and the number of their sets. *)
Definition summary_of (d : db) (w : workout_row) : summary :=
  {| sm_id := w_id w;
     sm_workout_date := w_workout_date w;
     sm_title := coalesce (w_title w);
     sm_created_at := w_created_at w;
     sm_updated_at := w_updated_at w;
     sm_exercise_count := Z.of_nat (List.length (exercises_of d w));
     sm_set_count :=
       Z.of_nat (List.length (flat_map (sets_of d) (exercises_of d w))) |}.

(** The joined rows of one exercise of [w]. *)
Definition rows_of_exercise (d : db) (w : workout_row) (e : exercise_row)
  : list joined_row :=
  match sets_of d e with
  | [] => [(w, Some e, None)]
  | m => map (fun s => (w, Some e, Some s)) m
  end.

(** The joined rows of [w]. *)
Definition rows_of (d : db) (w : workout_row) : list joined_row :=
  match exercises_of d w with
  | [] => [(w, None, None)]
  | m => flat_map (rows_of_exercise d w) m
  end.

(** Later in [ORDER BY w.workout_date DESC, w.id DESC]. *)
Definition listed_before (a b : summary) : Prop :=
  String.ltb (sm_workout_date b) (sm_workout_date a) = true
  \/ (sm_workout_date a = sm_workout_date b /\ sm_id b <= sm_id a).

(** ** Titles and numbers as they are stored *)




(** ** Payloads of the scenarios *)

Definition a_set (reps weight : value) : value :=
  VDict [("reps", reps); ("weight", weight)].

Definition an_exercise (name : string) (sets_ : list value) : value :=
  VDict [("name", VStr name); ("sets", VList sets_)].

Definition a_payload (workout_date title : value) (exs : value) : value :=
  VDict [("workout_date", workout_date); ("title", title);
         ("exercises", exs)].

(** The float [5.9]. *)
Definition float_5_9 : float := S754_finite false 6642809450371482 (-50).

(** [{"workout_date": "2024-01-15", "title": "Leg Day", "exercises":
     [{"name": "Squat", "sets": [{"reps": 5, "weight": 225}]}]}] *)
Definition squat_payload : value :=
  a_payload (VStr "2024-01-15") (VStr "Leg Day")
    (VList [an_exercise "Squat" [a_set (VInt 5) (VInt 225)]]).

(** [{"workout_date": "2024-01-16", "title": "  ", "exercises":
     [{"name": " Bench ", "sets": [{"reps": "5", "weight": "135.5"},
                                    {"reps": 5.9, "weight": 100}]},
      {"name": "Row", "sets": [{"reps": 8, "weight": "60.5"}]}]}] *)
Definition bench_payload : value :=
  a_payload (VStr "2024-01-16") (VStr "  ")
    (VList [an_exercise " Bench "
              [a_set (VStr "5") (VStr "135.5");
               a_set (VFloat float_5_9) (VInt 100)];
            an_exercise "Row" [a_set (VInt 8) (VStr "60.5")]]).

(** The squat payload with the title [5]. *)
Definition numeric_title_payload : value :=
  a_payload (VStr "2024-01-15") (VInt 5)
    (VList [an_exercise "Squat" [a_set (VInt 5) (VInt 225)]]).

(** [{"workout_date": "2024-01-15", "exercises": [{"name": "Squat",
     "sets": [{"reps": Infinity, "weight": 100},
              {"reps": 0, "weight": 100}]}]}] *)
Definition infinite_reps_payload : value :=
  VDict [("workout_date", VStr "2024-01-15");
         ("exercises",
          VList [an_exercise "Squat"
                   [a_set (VFloat (S754_infinity false)) (VInt 100);
                    a_set (VInt 0) (VInt 100)]])].

(** [{"workout_date": "2024-01-15", "exercises": []}] *)
Definition no_exercise_payload : value :=
  VDict [("workout_date", VStr "2024-01-15"); ("exercises", VList [])].

(** [{"exercises": []}] *)
Definition no_date_payload : value :=
  VDict [("exercises", VList [])].

(** [{"workout_date": 5, "exercises": [3, {"name": null, "sets":
     [{"reps": "x"}, []]}]}] *)
Definition malformed_payload : value :=
  VDict [("workout_date", VInt 5);
         ("exercises",
          VList [VInt 3;
                 VDict [("name", VNone);
                        ("sets", VList [VDict [("reps", VStr "x")];
                                        VList []])]])].

(** A workout without exercises, as [create_workout] stores it when the
    payload was not validated. *)
Definition bare_payload : value :=
  a_payload (VStr "2024-01-17") VNone (VList []).

Definition a_time : string := "2024-01-15T10:00:00Z".
Definition a_later_time : string := "2024-01-16T08:30:00Z".

(** ** The numbers of a returned tree *)




(** The squat payload with the weight ["nan"]. *)
Definition nan_weight_payload : value :=
  a_payload (VStr "2024-01-15") (VStr "Leg Day")
    (VList [an_exercise "Squat" [a_set (VInt 5) (VStr "nan")]]).

(** The squat payload with [2^63] repetitions. *)
Definition huge_reps_payload : value :=
  a_payload (VStr "2024-01-15") (VStr "Leg Day")
    (VList [an_exercise "Squat"
              [a_set (VInt 9223372036854775808) (VInt 225)]]).

(** The squat payload with the weight [-10^400]. *)
Definition huge_weight_payload : value :=
  a_payload (VStr "2024-01-15") (VStr "Leg Day")
    (VList [an_exercise "Squat" [a_set (VInt 5) (VInt (- 10 ^ 400))]]).

(* ================================================================== *)
(** * One workout among the others *)

(** The tree of the workout [id] is read from the same rows in [d] and in
    [d']: its row of [workouts], its rows of [exercises] and, for each of
    them, its rows of [sets]. *)
Definition same_tree (d d' : db) (id : Z) : Prop :=
  find (fun w => w_id w =? id) (workouts d')
  = find (fun w => w_id w =? id) (workouts d)
  /\ filter (fun e => e_workout_id e =? id) (exercises d')
     = filter (fun e => e_workout_id e =? id) (exercises d)
  /\ forall e, In e (exercises d) -> e_workout_id e = id ->
       filter (fun s => s_exercise_id s =? e_id e) (sets d')
       = filter (fun s => s_exercise_id s =? e_id e) (sets d).

(** What the insertion loops leave of a state [d]: the same workouts, and
    after the exercises and sets of [d] exercises of the workout [wid] with
    identities above [c], and sets of exercises above [c]. *)
Definition adds_for (wid c : Z) (d d' : db) : Prop :=
  workouts d' = workouts d
  /\ seq_workouts d' = seq_workouts d
  /\ seq_exercises d <= seq_exercises d'
  /\ seq_sets d <= seq_sets d'
  /\ exists es ss,
       exercises d' = exercises d ++ es
       /\ sets d' = sets d ++ ss
       /\ Forall (fun e => e_workout_id e = wid /\ c < e_id e) es
       /\ Forall (fun s => c < s_exercise_id s) ss.

(** One operation of the store, from the state it is given to the state it
    leaves. *)
Inductive step : db -> db -> Prop :=
| step_create (now : string) (d : db) (payload : value) :
    step d (fst (create_workout now d payload))
| step_update (now : string) (d : db) (id : Z) (payload : value) :
    step d (fst (update_workout now d id payload))
| step_delete (d : db) (id : Z) :
    step d (fst (delete_workout d id))
| step_seed (drawn : list seeded_workout) (d : db) :
    step d (fst (seed_sample_data drawn d)).

(** [d'] is [d] after any number of operations. *)
Inductive later (d : db) : db -> Prop :=
| later_now : later d d
| later_step (d1 d2 : db) : later d d1 -> step d1 d2 -> later d d2.

(* ================================================================== *)
(** * Rows numbered from one *)

(** [l] is [k], [k + 1], [k + 2], ... *)
Fixpoint counts_from (k : Z) (l : list Z) : Prop :=
  match l with
  | [] => True
  | x :: l' => x = k /\ counts_from (k + 1) l'
  end.

(** The number of exercises of the workout [wid], and of sets of the
    exercise [eid]. *)
Definition exercise_count (d : db) (wid : Z) : Z :=
  Z.of_nat (List.length
              (filter (fun e => e_workout_id e =? wid) (exercises d))).

Definition set_count (d : db) (eid : Z) : Z :=
  Z.of_nat (List.length
              (filter (fun s => s_exercise_id s =? eid) (sets d))).

(** In the order of their insertion, the exercises of each workout have
    the [sort_order] 1, 2, ... and the sets of each exercise the
    [set_number] 1, 2, ... *)
Definition dense (d : db) : Prop :=
  (forall wid,
      counts_from 1
        (map e_sort_order
           (filter (fun e => e_workout_id e =? wid) (exercises d))))
  /\ (forall eid,
        counts_from 1
          (map s_set_number
             (filter (fun s => s_exercise_id s =? eid) (sets d)))).

(** A set of a payload whose numbers the table [sets] takes: repetitions
    that coerce to an integer from one up to [2^63 - 1] and a weight that
    coerces to a float not below zero. *)
Definition kept_set (s : value) : Prop :=
  exists r w n f,
    py_getitem s "reps" = Ok r /\ py_int r = Ok n
    /\ py_getitem s "weight" = Ok w /\ py_float w = Ok f
    /\ 1 <= n < 2 ^ 63
    /\ is_nan f = false /\ float_leb pos_zero f = true.

Definition kept_exercise (ex : value) : Prop :=
  exists sl, exercise_sets ex sl /\ Forall kept_set sl.

(* ================================================================== *)
(** * Checks over a range of integers *)

(** [p] holds of [z], [z + 1], ..., for [n] integers. *)
Fixpoint all_from (n : nat) (z : Z) (p : Z -> bool) : bool :=
  match n with
  | O => true
  | S n' => p z && all_from n' (z + 1) p
  end.

(** [p] holds of [lo], [lo + 1], ..., [hi]. *)
Definition all_between (lo hi : Z) (p : Z -> bool) : bool :=
  all_from (Z.to_nat (hi - lo + 1)) lo p.

(** The year [y] is written as four digits that read back as [y]. *)
Definition year_written (y : Z) : bool :=
  match chars (pad_left 4 (string_of_Z y)) with
  | [a; b; c; d] =>
      is_digit a && is_digit b && is_digit c && is_digit d
      && (digits_value [a; b; c; d] =? y)
  | _ => false
  end.

(** The month [m] is written as two digits that [%m] reads back as [m]. *)
Definition month_written (m : Z) : bool :=
  match chars (pad_left 2 (string_of_Z m)) with
  | [a; b] =>
      (digits_value [a; b] =? m) && is_digit a && is_digit b
      && ((is_char 49 a && in_range 48 50 b)
          || (is_char 48 a && in_range 49 57 b))
  | _ => false
  end.

(** The day [d] is written as two digits that [%d] reads back as [d]. *)
Definition day_written (d : Z) : bool :=
  match chars (pad_left 2 (string_of_Z d)) with
  | [a; b] =>
      (digits_value [a; b] =? d) && is_digit a && is_digit b
      && ((is_char 51 a && in_range 48 49 b)
          || (in_range 49 50 a && is_digit b)
          || (is_char 48 a && in_range 49 57 b))
  | _ => false
  end.

(* ================================================================== *)
(** * The routes of the API *)

(** What a route returns: the object it gives to [jsonify] and the status
    of the response.  A route that raises has no response of its own. *)
Record response : Type := {
  r_status : Z;
  r_body : value
}.

(** The rows of the queries as dictionaries. *)
Definition set_dict (sv : set_view) : value :=
  VDict [("id", VInt (sv_id sv)); ("set_number", VInt (sv_set_number sv));
         ("reps", VInt (sv_reps sv)); ("weight", VFloat (sv_weight sv))].

Definition exercise_dict (ev : exercise_view) : value :=
  VDict [("id", VInt (ev_id ev)); ("name", VStr (ev_name ev));
         ("sort_order", VInt (ev_sort_order ev));
         ("sets", VList (map set_dict (ev_sets ev)))].

Definition workout_dict (v : workout_view) : value :=
  VDict [("id", VInt (wv_id v)); ("workout_date", VStr (wv_workout_date v));
         ("title", VStr (wv_title v)); ("created_at", VStr (wv_created_at v));
         ("updated_at", VStr (wv_updated_at v));
         ("exercises", VList (map exercise_dict (wv_exercises v)))].

Definition summary_dict (s : summary) : value :=
  VDict [("id", VInt (sm_id s)); ("workout_date", VStr (sm_workout_date s));
         ("title", VStr (sm_title s)); ("created_at", VStr (sm_created_at s));
         ("updated_at", VStr (sm_updated_at s));
         ("exercise_count", VInt (sm_exercise_count s));
         ("set_count", VInt (sm_set_count s))].

(** A workout or [None]. *)
Definition optional_workout (o : option workout_view) : value :=
  match o with
  | Some v => workout_dict v
  | None => VNone
  end.

(** [request.get_json(silent=True) or {}], for the decoded body [json] of
    the request: [VNone] when there is none or it is not JSON. *)
Definition request_payload (json : value) : value := py_or json (VDict []).

(** [jsonify({"ok": False, "errors": errors}), 400] *)
Definition errors_response (errors : list string) : response :=
  {| r_status := 400;
     r_body := VDict [("ok", VBool false);
                      ("errors", VList (map VStr errors))] |}.

(** [jsonify({"ok": False, "error": "Workout not found."}), 404] *)
Definition not_found : response :=
  {| r_status := 404;
     r_body := VDict [("ok", VBool false);
                      ("error", VStr "Workout not found.")] |}.

(** [GET /api/workouts]; [elapsed_ms] is the time measured. *)
Definition api_list_workouts (elapsed_ms : float) (d : db) : response :=
  {| r_status := 200;
     r_body := VDict [("ok", VBool true);
                      ("workouts",
                       VList (map summary_dict (list_workouts d)));
                      ("timing_ms", VFloat elapsed_ms)] |}.

(** [GET /api/workouts/<int:workout_id>] *)
Definition api_get_workout (elapsed_ms : float) (d : db) (workout_id : Z)
  : response :=
  match get_workout d workout_id with
  | None => not_found
  | Some workout =>
      {| r_status := 200;
         r_body := VDict [("ok", VBool true);
                          ("workout", workout_dict workout);
                          ("timing_ms", VFloat elapsed_ms)] |}
  end.

(** [POST /api/workouts] *)
Definition api_create_workout (now : string) (d : db) (json : value)
  : db * result response :=
  let payload := request_payload json in
  match validate_workout_payload payload with
  | Raise e => (d, Raise e)
  | Ok ((_ :: _) as errors) => (d, Ok (errors_response errors))
  | Ok [] =>
      match create_workout now d payload with
      | (d', Raise e) => (d', Raise e)
      | (d', Ok workout_id) =>
          (d', Ok {| r_status := 201;
                     r_body :=
                       VDict [("ok", VBool true);
                              ("workout_id", VInt workout_id);
                              ("workout",
                               optional_workout
                                 (get_workout d' workout_id))] |})
      end
  end.

(** [PUT /api/workouts/<int:workout_id>] *)
Definition api_update_workout (now : string) (d : db) (workout_id : Z)
  (json : value) : db * result response :=
  let payload := request_payload json in
  match validate_workout_payload payload with
  | Raise e => (d, Raise e)
  | Ok ((_ :: _) as errors) => (d, Ok (errors_response errors))
  | Ok [] =>
      match update_workout now d workout_id payload with
      | (d', Raise e) => (d', Raise e)
      | (d', Ok false) => (d', Ok not_found)
      | (d', Ok true) =>
          (d', Ok {| r_status := 200;
                     r_body :=
                       VDict [("ok", VBool true);
                              ("workout",
                               optional_workout
                                 (get_workout d' workout_id))] |})
      end
  end.

(** [DELETE /api/workouts/<int:workout_id>] *)
Definition api_delete_workout (d : db) (workout_id : Z)
  : db * result response :=
  match delete_workout d workout_id with
  | (d', Raise e) => (d', Raise e)
  | (d', Ok false) => (d', Ok not_found)
  | (d', Ok true) =>
      (d', Ok {| r_status := 200; r_body := VDict [("ok", VBool true)] |})
  end.

(** [v.get(k, default)] *)
Definition py_get_default (v : value) (k : string) (default : value)
  : result value :=
  match v with
  | VDict d =>
      match lookup k d with
      | Some x => Ok x
      | None => Ok default
      end
  | _ => Raise AttributeError
  end.

(** The number of workouts [api_debug_seed] asks for:
    [max(1, min(int(payload.get("count", 200)), 2000))]. *)
Definition seed_count (payload : value) : result Z :=
  c <- py_get_default payload "count" (VInt 200) ;;
  count <- py_int c ;;
  Ok (Z.max 1 (Z.min count 2000)).

(** [POST /api/debug/seed]; [draw i] is what the round [i] of
    [seed_sample_data] draws. *)
Definition api_debug_seed (draw : nat -> seeded_workout) (d : db)
  (json : value) : db * result response :=
  match seed_count (request_payload json) with
  | Raise e => (d, Raise e)
  | Ok count =>
      match seed_sample_data (map draw (seq 0 (Z.to_nat count))) d with
      | (d', Raise e) => (d', Raise e)
      | (d', Ok created) =>
          (d', Ok {| r_status := 200;
                     r_body := VDict [("ok", VBool true);
                                      ("created", VInt created)] |})
      end
  end.

(** What [random_workout_payload] draws from: the names of the pool, one
    to four exercises, one to five sets each, three to twelve repetitions
    and a weight from 0 to 315. *)
Definition exercises_pool : list string :=
  ["Bench Press"; "Squat"; "Deadlift"; "Overhead Press"; "Barbell Row";
   "Lat Pulldown"; "Pull-up"; "Dumbbell Curl"; "Tricep Pushdown";
   "Leg Press"; "Calf Raise"].

(** The float [315.0]. *)
Definition float_315 : float := S754_finite false 5541538603991040 (-44).

Definition between (lo hi : nat) (n : nat) : bool :=
  (lo <=? n)%nat && (n <=? hi)%nat.

Definition generated_set (rw : Z * float) : bool :=
  (3 <=? fst rw) && (fst rw <=? 12)
  && float_leb pos_zero (snd rw) && float_leb (snd rw) float_315.

Definition generated_exercise (ex : string * list (Z * float)) : bool :=
  existsb (String.eqb (fst ex)) exercises_pool
  && between 1 5 (List.length (snd ex))
  && forallb generated_set (snd ex).

Definition generated (w : seeded_workout) : bool :=
  between 1 4 (List.length (sw_exercises w))
  && forallb generated_exercise (sw_exercises w).

(** The date [a] is before the date [b] in the calendar. *)
Definition earlier (a b : Z * Z * Z) : Prop :=
  let '(y1, m1, d1) := a in
  let '(y2, m2, d2) := b in
  y1 < y2 \/ (y1 = y2 /\ (m1 < m2 \/ (m1 = m2 /\ d1 < d2))).

(** A date written in ISO form, and whether it is a date of the calendar. *)
Definition date_string (a : Z * Z * Z) : string :=
  let '(y, m, d) := a in isoformat y m d.

Definition is_date (a : Z * Z * Z) : bool :=
  let '(y, m, d) := a in valid_date y m d.

(* ================================================================== *)
(** * Facts about the coercions *)

Lemma int_of_str_raises (s : string) (e : exn) :
  int_of_str s = Raise e -> e = ValueError.
Proof.
  unfold int_of_str.
  destruct (read_sign _) as [neg l].
  destruct l as [|c l']; [congruence|].
  destruct (is_digit c) eqn:Hc; [|congruence].
  destruct (digits_from _ _); [|congruence].
  destruct (max_str_digits <? _); congruence.
Qed.

Lemma float_of_str_raises (s : string) (e : exn) :
  float_of_str s = Raise e -> e = ValueError.
Proof.
  unfold float_of_str.
  destruct (drop_underscores _ _); [|congruence].
  destruct (read_float _); congruence.
Qed.

Lemma float_of_int_raises (n : Z) (e : exn) :
  float_of_int n = Raise e -> e = OverflowError.
Proof.
  unfold float_of_int.
  destruct (binary_normalize _ _ _ _ _); congruence.
Qed.

Lemma py_int_raises (v : value) (e : exn) :
  py_int v = Raise e ->
  e = TypeError \/ e = ValueError
  \/ (e = OverflowError /\ exists s, v = VFloat (S754_infinity s)).
Proof.
  destruct v as [|b|n|f|s|l|d]; simpl; intros H;
    try discriminate H; try (injection H as <-; now left).
  - destruct f; simpl in H; try discriminate H; injection H as <-.
    + right; right. split; [reflexivity|]. now exists s.
    + right; now left.
  - apply int_of_str_raises in H. right; now left.
Qed.

Lemma py_float_raises (v : value) (e : exn) :
  py_float v = Raise e ->
  e = TypeError \/ e = ValueError
  \/ (e = OverflowError /\ exists n, v = VInt n).
Proof.
  destruct v as [|b|n|f|s|l|d]; simpl; intros H;
    try discriminate H; try (injection H as <-; now left).
  - destruct b; vm_compute in H; discriminate H.
  - apply float_of_int_raises in H. right; right.
    split; [assumption|]. now exists n.
  - apply float_of_str_raises in H. right; now left.
Qed.

Lemma except_type_value_ok {A : Type} (r : result A) :
  overflows r = false ->
  (forall e, r = Raise e ->
             e = TypeError \/ e = ValueError \/ e = OverflowError) ->
  exists o, except_type_value r = Ok o
            /\ (forall a, o = Some a <-> r = Ok a).
Proof.
  intros Hov Hr. destruct r as [a|e].
  - exists (Some a). split; [reflexivity|].
    intros a'. split; congruence.
  - destruct (Hr e eq_refl) as [ -> | [ -> | -> ] ].
    + exists None. split; [reflexivity|]. intros a; split; discriminate.
    + exists None. split; [reflexivity|]. intros a; split; discriminate.
    + discriminate.
Qed.

(** [int] overflows on the infinite floats only, [float] on integers
    only. *)
Lemma overflows_int_iff (v : value) :
  overflows (py_int v) = true <-> exists s, v = VFloat (S754_infinity s).
Proof.
  split.
  - destruct (py_int v) as [n|e] eqn:H; [discriminate|].
    destruct e; try discriminate. intros _.
    destruct (py_int_raises v _ H) as [?|[?|[_ ?]]];
      [discriminate|discriminate|assumption].
  - intros [s ->]. reflexivity.
Qed.

Lemma overflows_float_iff (v : value) :
  overflows (py_float v) = true <->
  exists n, v = VInt n /\ float_of_int n = Raise OverflowError.
Proof.
  split.
  - destruct (py_float v) as [f|e] eqn:H; [discriminate|].
    destruct e; try discriminate. intros _.
    destruct (py_float_raises v _ H) as [?|[?|[_ [n ->]]]];
      [discriminate|discriminate|].
    exists n. auto.
  - intros (n & -> & H). simpl. now rewrite H.
Qed.

Lemma py_int_raises_kind (v : value) (e : exn) :
  py_int v = Raise e -> e = TypeError \/ e = ValueError \/ e = OverflowError.
Proof.
  intros H. destruct (py_int_raises v e H) as [?|[?|[? _]]]; auto.
Qed.

Lemma py_float_raises_kind (v : value) (e : exn) :
  py_float v = Raise e -> e = TypeError \/ e = ValueError \/ e = OverflowError.
Proof.
  intros H. destruct (py_float_raises v e H) as [?|[?|[? _]]]; auto.
Qed.

(* ================================================================== *)
(** * The validator returns *)

Lemma py_get_dict (d : list (string * value)) (k : string) :
  exists v, py_get (VDict d) k = Ok v.
Proof.
  simpl. destruct (lookup k d); eauto.
Qed.

Lemma validate_set_returns (label : string) (si : Z) (s : value) :
  set_in_range s = true -> exists errs, validate_set label si s = Ok errs.
Proof.
  intros Hr. destruct s as [| | | | | |sd]; try (simpl; eauto; fail).
  unfold set_in_range in Hr. unfold validate_set.
  destruct (py_get_dict sd "reps") as [r Hreps].
  destruct (py_get_dict sd "weight") as [w Hweight].
  rewrite Hreps, Hweight in *. cbn [bind].
  apply andb_true_iff in Hr as [Hi Hf].
  apply negb_true_iff in Hi. apply negb_true_iff in Hf.
  destruct (except_type_value_ok (py_int r) Hi (py_int_raises_kind r))
    as (oi & Ei & _).
  destruct (except_type_value_ok (py_float w) Hf (py_float_raises_kind w))
    as (ow & Ew & _).
  rewrite Ei. cbn [bind]. rewrite Ew. cbn [bind]. eauto.
Qed.

Lemma validate_sets_returns (label : string) (sl : list value) :
  forallb set_in_range sl = true ->
  forall si, exists errs, validate_sets label si sl = Ok errs.
Proof.
  induction sl as [|s sl IH]; intros Hr si; simpl; eauto.
  simpl in Hr. apply andb_true_iff in Hr as [Hs Hsl].
  destruct (validate_set_returns label si s Hs) as [e1 ->].
  destruct (IH Hsl (si + 1)) as [e2 ->]. simpl. eauto.
Qed.

Lemma validate_exercise_returns (ei : Z) (ex : value) :
  exercise_in_range ex = true ->
  exists errs, validate_exercise ei ex = Ok errs.
Proof.
  intros Hr. destruct ex as [| | | | | |ed]; try (simpl; eauto; fail).
  unfold exercise_in_range in Hr. unfold validate_exercise.
  destruct (py_get_dict ed "name") as [nm Hname].
  destruct (py_get_dict ed "sets") as [sv Hsets].
  rewrite Hname. cbn [bind]. rewrite Hsets in *. cbn [bind].
  destruct sv as [| | | | |sl|]; eauto.
  destruct sl as [|s sl]; eauto.
  match goal with
  | |- context [validate_sets ?lab 0 (s :: sl)] =>
      destruct (validate_sets_returns lab (s :: sl) Hr 0) as [e ->]
  end.
  cbn [bind]. eauto.
Qed.

Lemma validate_exercises_returns (l : list value) :
  forallb exercise_in_range l = true ->
  forall ei, exists errs, validate_exercises ei l = Ok errs.
Proof.
  induction l as [|ex l IH]; intros Hr ei; simpl; eauto.
  simpl in Hr. apply andb_true_iff in Hr as [Hex Hl].
  destruct (validate_exercise_returns ei ex Hex) as [e1 ->].
  destruct (IH Hl (ei + 1)) as [e2 ->]. simpl. eauto.
Qed.

Lemma validate_returns (d : list (string * value)) :
  numbers_in_range (VDict d) = true ->
  exists errs, validate_workout_payload (VDict d) = Ok errs.
Proof.
  intros Hr. unfold numbers_in_range in Hr. unfold validate_workout_payload.
  destruct (py_get_dict d "workout_date") as [wd Hwd].
  destruct (py_get_dict d "exercises") as [exs Hexs].
  rewrite Hwd. cbn [bind]. rewrite Hexs in *. cbn [bind].
  destruct exs as [| | | | |l|]; eauto.
  destruct l as [|ex l]; eauto.
  destruct (validate_exercises_returns (ex :: l) Hr 0) as [e ->].
  cbn [bind]. eauto.
Qed.

(** Without exercises the validator stops after the date check. *)
Lemma validate_without_exercises (d : list (string * value)) :
  has_exercises (VDict d) = false ->
  validate_workout_payload (VDict d)
  = Ok (date_errors (VDict d) ++ [msg_no_exercise]).
Proof.
  intros Hn. unfold has_exercises in Hn.
  unfold validate_workout_payload, date_errors.
  destruct (py_get_dict d "workout_date") as [wd Hwd].
  destruct (py_get_dict d "exercises") as [exs Hexs].
  rewrite Hwd. cbn [bind]. rewrite Hexs in *. cbn [bind].
  destruct exs as [| | | | |l|]; try reflexivity.
  destruct l as [|ex l]; [reflexivity|discriminate].
Qed.

(* ================================================================== *)
(** * What the validator accepts *)

Lemma app_nil_both {A : Type} (l1 l2 : list A) :
  l1 ++ l2 = [] <-> l1 = [] /\ l2 = [].
Proof.
  split.
  - apply app_eq_nil.
  - intros [-> ->]. reflexivity.
Qed.

Lemma bind_ok {A B : Type} (r : result A) (k : A -> result B) (b : B) :
  bind r k = Ok b <-> exists a, r = Ok a /\ k a = Ok b.
Proof.
  destruct r as [a|e]; simpl; split.
  - intros H. eauto.
  - intros (a' & [= <-] & H). exact H.
  - discriminate.
  - intros (a' & H & _). discriminate.
Qed.

Lemma validate_set_nil (label : string) (si : Z) (s : value) :
  validate_set label si s = Ok [] <-> accepted_set s = true.
Proof.
  destruct s as [| | | | | |sd]; try (simpl; split; discriminate).
  unfold validate_set, accepted_set.
  destruct (py_get_dict sd "reps") as [r Hreps].
  destruct (py_get_dict sd "weight") as [w Hweight].
  rewrite Hreps, Hweight. cbn [bind].
  destruct (py_int r) as [n|e1] eqn:Ei.
  - destruct (py_float w) as [f|e2] eqn:Ef.
    + simpl. rewrite (Z.leb_antisym n 1).
      destruct (n <? 1); destruct (float_ltb f pos_zero);
        simpl; split; intros H; try discriminate H; reflexivity.
    + simpl. split; [|discriminate].
      destruct e2; simpl; try discriminate;
        destruct (n <? 1); discriminate.
  - split; [|discriminate].
    destruct e1; simpl; try discriminate;
      destruct (except_type_value (py_float w)) as [o|]; simpl; discriminate.
Qed.

Lemma validate_sets_nil (label : string) (sl : list value) :
  forall si,
    validate_sets label si sl = Ok [] <-> forallb accepted_set sl = true.
Proof.
  induction sl as [|s sl IH]; intros si; simpl.
  - split; reflexivity.
  - rewrite andb_true_iff, <- (validate_set_nil label si), <- (IH (si + 1)).
    split.
    + intros H. apply bind_ok in H as (e1 & H1 & H).
      apply bind_ok in H as (e2 & H2 & H).
      injection H as H. apply app_nil_both in H as [-> ->]. auto.
    + intros [-> ->]. reflexivity.
Qed.

Lemma validate_exercise_nil (ei : Z) (ex : value) :
  validate_exercise ei ex = Ok [] <-> accepted_exercise ex = true.
Proof.
  destruct ex as [| | | | | |ed]; try (simpl; split; discriminate).
  unfold validate_exercise, accepted_exercise.
  destruct (py_get_dict ed "name") as [nm Hname].
  destruct (py_get_dict ed "sets") as [sv Hsets].
  rewrite Hname, Hsets. cbn [bind].
  set (name := strip (py_str (py_or nm (VStr EmptyString)))).
  assert (Hno : forall (l : list string) (m : string),
             Ok (l ++ [m]) = Ok [] <-> false = true).
  { intros l m. split; [|discriminate].
    intros [= H]. apply app_nil_both in H as [_ H]. discriminate. }
  destruct sv as [| | | | |sl|]; try apply Hno.
  destruct sl as [|s sl]; [apply Hno|].
  rewrite andb_true_iff, <- (validate_sets_nil (exercise_label name ei) _ 0).
  destruct (is_empty name); simpl.
  - split.
    + intros H. apply bind_ok in H as (e & _ & H). discriminate.
    + intros [H _]. discriminate.
  - split.
    + intros H. apply bind_ok in H as (e & H1 & H).
      injection H as ->. auto.
    + intros [_ ->]. reflexivity.
Qed.

Lemma validate_exercises_nil (l : list value) :
  forall ei,
    validate_exercises ei l = Ok [] <-> forallb accepted_exercise l = true.
Proof.
  induction l as [|ex l IH]; intros ei; simpl.
  - split; reflexivity.
  - rewrite andb_true_iff, <- (validate_exercise_nil ei), <- (IH (ei + 1)).
    split.
    + intros H. apply bind_ok in H as (e1 & H1 & H).
      apply bind_ok in H as (e2 & H2 & H).
      injection H as H. apply app_nil_both in H as [-> ->]. auto.
    + intros [-> ->]. reflexivity.
Qed.

(** The validator returns no error exactly for the payloads it accepts. *)
Lemma validate_nil_iff (d : list (string * value)) :
  validate_workout_payload (VDict d) = Ok [] <-> accepted (VDict d) = true.
Proof.
  unfold validate_workout_payload, accepted.
  destruct (py_get_dict d "workout_date") as [wd Hwd].
  destruct (py_get_dict d "exercises") as [exs Hexs].
  rewrite Hwd, Hexs. cbn [bind].
  assert (Hno : forall (l : list string) (m : string),
             Ok (l ++ [m]) = Ok [] <-> false = true).
  { intros l m. split; [|discriminate].
    intros [= H]. apply app_nil_both in H as [_ H]. discriminate. }
  destruct exs as [| | | | |l|]; try apply Hno.
  destruct l as [|ex l]; [apply Hno|].
  rewrite andb_true_iff, <- (validate_exercises_nil _ 0).
  destruct (no_date (_parse_iso_date wd)); simpl.
  - split.
    + intros H. apply bind_ok in H as (e & _ & H). discriminate.
    + intros [H _]. discriminate.
  - split.
    + intros H. apply bind_ok in H as (e & H1 & H).
      injection H as ->. auto.
    + intros [_ ->]. reflexivity.
Qed.

(** Only a dictionary is validated without an [AttributeError]. *)
Lemma validate_not_dict (payload : value) :
  (forall d, payload <> VDict d) ->
  validate_workout_payload payload = Raise AttributeError.
Proof.
  intros H. destruct payload; try reflexivity. now destruct (H d).
Qed.

(* ================================================================== *)
(** * The invariant of the store *)

Lemma has_workout_iff (d : db) (id : Z) :
  has_workout d id = true <-> exists w, In w (workouts d) /\ w_id w = id.
Proof.
  unfold has_workout. rewrite existsb_exists.
  split; intros (w & Hin & H); exists w; split; auto.
  - now apply Z.eqb_eq.
  - now apply Z.eqb_eq.
Qed.

Lemma has_exercise_iff (d : db) (id : Z) :
  has_exercise d id = true <-> exists e, In e (exercises d) /\ e_id e = id.
Proof.
  unfold has_exercise. rewrite existsb_exists.
  split; intros (e & Hin & H); exists e; split; auto.
  - now apply Z.eqb_eq.
  - now apply Z.eqb_eq.
Qed.

Section IdsOk.
Context {A : Type} (id : A -> Z).

Lemma ids_ok_nil (seq : Z) : ids_ok id seq [].
Proof. split; constructor. Qed.

Lemma ids_ok_snoc (seq : Z) (rows : list A) (r : A) :
  0 <= seq -> ids_ok id seq rows -> id r = seq + 1 ->
  ids_ok id (seq + 1) (rows ++ [r]).
Proof.
  intros Hseq [Hb Hn] Hr. split.
  - apply Forall_app. split.
    + eapply Forall_impl; [|exact Hb]. simpl. intros; lia.
    + constructor; [lia|constructor].
  - rewrite map_app. simpl. apply NoDup_app. repeat split.
    + exact Hn.
    + constructor; [intros []|constructor].
    + intros x Hx [<-|[]].
      apply in_map_iff in Hx as (r' & Hr' & Hin).
      rewrite Forall_forall in Hb. specialize (Hb r' Hin). lia.
Qed.

Lemma ids_ok_filter (seq : Z) (p : A -> bool) (rows : list A) :
  ids_ok id seq rows -> ids_ok id seq (filter p rows).
Proof.
  intros [Hb Hn]. split.
  - rewrite Forall_forall in *. intros r Hr.
    apply filter_In in Hr as [Hr _]. auto.
  - induction rows as [|r rows IH]; simpl; [constructor|].
    inversion Hn as [|? ? Hnin Hn']; subst.
    inversion Hb as [|? ? _ Hb']; subst.
    destruct (p r); simpl; auto.
    constructor; auto.
    intros Hin. apply Hnin.
    apply in_map_iff in Hin as (r' & Hr' & Hin).
    apply filter_In in Hin as [Hin _].
    apply in_map_iff. eauto.
Qed.

Lemma ids_ok_map (seq : Z) (f : A -> A) (rows : list A) :
  (forall r, id (f r) = id r) ->
  ids_ok id seq rows -> ids_ok id seq (map f rows).
Proof.
  intros Hf [Hb Hn]. split.
  - rewrite Forall_forall in *. intros r Hr.
    apply in_map_iff in Hr as (r' & <- & Hin). rewrite Hf. auto.
  - rewrite map_map.
    erewrite map_ext; [exact Hn|]. intros r. apply Hf.
Qed.

Lemma ids_ok_bound (seq : Z) (rows : list A) (r : A) :
  ids_ok id seq rows -> In r rows -> 0 < id r <= seq.
Proof.
  intros [Hb _] Hin. rewrite Forall_forall in Hb. auto.
Qed.

Lemma ids_ok_inj (seq : Z) (rows : list A) (r r' : A) :
  ids_ok id seq rows -> In r rows -> In r' rows -> id r = id r' -> r = r'.
Proof.
  intros [_ Hn]. induction rows as [|a rows IH]; simpl; [intros []|].
  inversion Hn as [|? ? Hnin Hn']; subst.
  intros [->|Hr] [->|Hr'] Heq; auto.
  - exfalso. apply Hnin. rewrite Heq. now apply in_map.
  - exfalso. apply Hnin. rewrite <- Heq. now apply in_map.
Qed.
End IdsOk.

Lemma db_inv_empty : db_inv empty_db.
Proof.
  split.
  - repeat split; simpl; lia.
  - apply ids_ok_nil.
  - apply ids_ok_nil.
  - apply ids_ok_nil.
  - split; constructor.
  - constructor.
Qed.

Lemma has_workout_snoc (d d' : db) (w : workout_row) (id : Z) :
  workouts d' = workouts d ++ [w] ->
  has_workout d' id = has_workout d id || (w_id w =? id).
Proof.
  intros H. unfold has_workout. rewrite H, existsb_app. simpl.
  now rewrite orb_false_r.
Qed.

Lemma has_exercise_snoc (d d' : db) (e : exercise_row) (id : Z) :
  exercises d' = exercises d ++ [e] ->
  has_exercise d' id = has_exercise d id || (e_id e =? id).
Proof.
  intros H. unfold has_exercise. rewrite H, existsb_app. simpl.
  now rewrite orb_false_r.
Qed.

Lemma sql_insert_workout_inv (wd title : option string) (c u : string)
  (d d' : db) (id : Z) :
  db_inv d ->
  sql_insert_workout wd title c u d = Ok (d', id) ->
  db_inv d' /\ id = seq_workouts d + 1
  /\ has_workout d' id = true
  /\ exercises d' = exercises d /\ sets d' = sets d
  /\ seq_exercises d' = seq_exercises d /\ seq_sets d' = seq_sets d.
Proof.
  intros [(Sw & Se & Ss) Iw Ie Is [Io1 Io2] Ic].
  unfold sql_insert_workout. destruct wd as [w|]; [|discriminate].
  intros [= <- <-].
  split; [|repeat split; simpl; auto].
  - split; simpl; auto.
    + repeat split; simpl; lia.
    + now apply ids_ok_snoc.
    + split; simpl; auto.
      eapply Forall_impl; [|exact Io1]. intros e He.
      erewrite has_workout_snoc by reflexivity. now rewrite He.
  - erewrite has_workout_snoc by reflexivity. simpl.
    rewrite Z.eqb_refl. apply orb_true_r.
Qed.

Lemma sql_insert_exercise_inv (wid : Z) (name : string) (k : Z)
  (d d' : db) (id : Z) :
  db_inv d ->
  sql_insert_exercise wid name k d = Ok (d', id) ->
  db_inv d' /\ id = seq_exercises d + 1
  /\ workouts d' = workouts d
  /\ exercises d' = exercises d ++
                    [{| e_id := id; e_workout_id := wid; e_name := name;
                        e_sort_order := k |}]
  /\ sets d' = sets d
  /\ seq_workouts d' = seq_workouts d
  /\ seq_exercises d' = seq_exercises d + 1
  /\ seq_sets d' = seq_sets d.
Proof.
  intros [(Sw & Se & Ss) Iw Ie Is [Io1 Io2] Ic].
  unfold sql_insert_exercise. destruct (has_workout d wid) eqn:Hw;
    [|discriminate].
  intros [= <- <-].
  split; [|repeat split; simpl; auto].
  split; simpl; auto.
  - repeat split; simpl; lia.
  - now apply ids_ok_snoc.
  - split; simpl.
    + apply Forall_app. split; [exact Io1|].
      constructor; [exact Hw|constructor].
    + eapply Forall_impl; [|exact Io2]. intros s Hs.
      erewrite has_exercise_snoc by reflexivity. now rewrite Hs.
Qed.

Lemma sql_insert_set_inv (eid k reps : Z) (weight : float) (d d' : db) :
  db_inv d ->
  sql_insert_set eid k reps weight d = Ok d' ->
  db_inv d'
  /\ workouts d' = workouts d /\ exercises d' = exercises d
  /\ sets d' = sets d ++
               [{| s_id := seq_sets d + 1; s_exercise_id := eid;
                   s_set_number := k; s_reps := reps;
                   s_weight := stored_real weight |}]
  /\ seq_workouts d' = seq_workouts d
  /\ seq_exercises d' = seq_exercises d
  /\ seq_sets d' = seq_sets d + 1.
Proof.
  intros [(Sw & Se & Ss) Iw Ie Is [Io1 Io2] Ic].
  unfold sql_insert_set, bind_integer, bind_real.
  destruct (sqlite_integer reps); [|discriminate]. cbn [bind].
  destruct (is_nan weight) eqn:Hnan; [discriminate|].
  destruct ((1 <=? reps) && float_leb pos_zero weight
            && has_exercise d eid) eqn:Hc; [|discriminate].
  apply andb_true_iff in Hc as [Hc He].
  apply andb_true_iff in Hc as [Hr Hw]. apply Z.leb_le in Hr.
  intros [= <-].
  split; [|repeat split; simpl; auto].
  split; simpl; auto.
  - repeat split; simpl; lia.
  - now apply ids_ok_snoc.
  - split; simpl; auto.
    apply Forall_app. split; [exact Io2|].
    constructor; [exact He|constructor].
  - unfold checks_ok. simpl. apply Forall_app. split; [exact Ic|].
    constructor; [|constructor]. simpl. split; [exact Hr|].
    destruct weight; simpl in *; auto.
Qed.

Lemma has_workout_map (f : workout_row -> workout_row) (d d' : db) (id : Z) :
  (forall w, w_id (f w) = w_id w) ->
  workouts d' = map f (workouts d) ->
  has_workout d' id = has_workout d id.
Proof.
  intros Hf H. unfold has_workout. rewrite H. clear H.
  induction (workouts d) as [|w l IH]; simpl; [reflexivity|].
  now rewrite Hf, IH.
Qed.

Lemma sql_update_workout_inv (wd title : option string) (u : string)
  (id : Z) (d d' : db) :
  db_inv d ->
  sql_update_workout wd title u id d = Ok d' ->
  db_inv d'
  /\ map w_id (workouts d') = map w_id (workouts d)
  /\ exercises d' = exercises d /\ sets d' = sets d
  /\ seq_workouts d' = seq_workouts d
  /\ seq_exercises d' = seq_exercises d
  /\ seq_sets d' = seq_sets d.
Proof.
  intros Hinv. unfold sql_update_workout.
  destruct wd as [w|].
  - intros [= <-].
    destruct Hinv as [(Sw & Se & Ss) Iw Ie Is [Io1 Io2] Ic].
    set (f := fun w0 : workout_row =>
                if w_id w0 =? id
                then {| w_id := w_id w0; w_workout_date := w;
                        w_title := title;
                        w_created_at := w_created_at w0;
                        w_updated_at := u |}
                else w0).
    assert (Hf : forall w0, w_id (f w0) = w_id w0).
    { intros w0. unfold f. now destruct (w_id w0 =? id). }
    split; [|repeat split; simpl; auto].
    + split; simpl; auto.
      * repeat split; simpl; lia.
      * now apply ids_ok_map.
      * split; simpl; auto.
        eapply Forall_impl; [|exact Io1]. intros e He.
        erewrite has_workout_map; [exact He|exact Hf|reflexivity].
    + rewrite map_map. apply map_ext. exact Hf.
  - destruct (has_workout d id); [discriminate|].
    intros [= <-]. split; [exact Hinv|]. repeat split; reflexivity.
Qed.

Lemma cascade_sets_in (gone : list exercise_row) (l : list set_row)
  (s : set_row) :
  In s (cascade_sets gone l) <->
  In s l /\ forall e, In e gone -> e_id e <> s_exercise_id s.
Proof.
  unfold cascade_sets. rewrite filter_In, negb_true_iff.
  split; intros [Hin H]; split; auto.
  - intros e He Heq.
    assert (Hex : existsb (fun e0 => e_id e0 =? s_exercise_id s) gone = true).
    { apply existsb_exists. exists e. split; auto. now apply Z.eqb_eq. }
    congruence.
  - destruct (existsb _ gone) eqn:Hex; [|reflexivity].
    apply existsb_exists in Hex as (e & He & Heq).
    apply Z.eqb_eq in Heq. now destruct (H e He).
Qed.

Lemma sql_delete_exercises_inv (wid : Z) (d : db) :
  db_inv d ->
  db_inv (sql_delete_exercises wid d)
  /\ (forall e, In e (exercises (sql_delete_exercises wid d)) ->
                e_workout_id e <> wid).
Proof.
  intros [(Sw & Se & Ss) Iw Ie Is [Io1 Io2] Ic].
  split.
  - split; simpl; auto.
    + repeat split; simpl; lia.
    + now apply ids_ok_filter.
    + now apply ids_ok_filter.
    + split; simpl.
      * rewrite Forall_forall in *. intros e He.
        apply filter_In in He as [He _]. now apply Io1.
      * rewrite Forall_forall in *. intros s Hs.
        apply cascade_sets_in in Hs as [Hs Hgone].
        specialize (Io2 s Hs).
        apply has_exercise_iff in Io2 as (e & He & Heq).
        apply has_exercise_iff. exists e. split; [|exact Heq].
        simpl. apply filter_In. split; [exact He|].
        apply negb_true_iff. destruct (e_workout_id e =? wid) eqn:Hw;
          [|reflexivity].
        exfalso. apply (Hgone e); [|exact Heq].
        apply filter_In. auto.
    + unfold checks_ok in *. simpl. rewrite Forall_forall in *.
      intros s Hs. apply cascade_sets_in in Hs as [Hs _]. auto.
  - simpl. intros e He. apply filter_In in He as [_ He].
    apply negb_true_iff in He. now apply Z.eqb_neq.
Qed.

Lemma delete_workout_row_inv (id : Z) (d1 : db) :
  db_inv d1 ->
  (forall e, In e (exercises d1) -> e_workout_id e <> id) ->
  db_inv {| workouts := filter (fun w => negb (w_id w =? id)) (workouts d1);
            exercises := exercises d1; sets := sets d1;
            seq_workouts := seq_workouts d1;
            seq_exercises := seq_exercises d1;
            seq_sets := seq_sets d1 |}.
Proof.
  intros [(Sw & Se & Ss) Iw Ie Is [Io1 Io2] Ic] Hnone.
  split; simpl; auto.
  - repeat split; simpl; lia.
  - now apply ids_ok_filter.
  - split; simpl; auto.
    rewrite Forall_forall in *. intros e He.
    specialize (Io1 e He).
    apply has_workout_iff in Io1 as (w & Hw & Heq).
    apply has_workout_iff. exists w. split; [|exact Heq].
    simpl. apply filter_In. split; [exact Hw|].
    apply negb_true_iff, Z.eqb_neq. rewrite Heq. now apply Hnone.
Qed.

Lemma sql_delete_workout_inv (id : Z) (d : db) :
  db_inv d ->
  db_inv (fst (sql_delete_workout id d))
  /\ has_workout (fst (sql_delete_workout id d)) id = false.
Proof.
  intros Hinv.
  destruct (sql_delete_exercises_inv id d Hinv) as [Hinv1 Hnone].
  split.
  - exact (delete_workout_row_inv id _ Hinv1 Hnone).
  - unfold has_workout. simpl.
    destruct (existsb _ _) eqn:Hex; [|reflexivity].
    apply existsb_exists in Hex as (w & Hw & Heq).
    apply filter_In in Hw as [_ Hw]. apply negb_true_iff in Hw. congruence.
Qed.

(* ================================================================== *)
(** * The rows the insertion loops add *)


Lemma numbered_length {A B : Type} (R : Z -> A -> B -> Prop) (k : Z)
  (l : list A) (l' : list B) :
  numbered R k l l' -> List.length l = List.length l'.
Proof.
  intros H. induction H; simpl; congruence.
Qed.

Lemma numbered_map {A B C : Type} (R : Z -> A -> B -> Prop)
  (R' : Z -> A -> C -> Prop) (f : B -> C) (k : Z) (l : list A) (l' : list B) :
  (forall j a b, R j a b -> R' j a (f b)) ->
  numbered R k l l' -> numbered R' k l (map f l').
Proof.
  intros HR H. induction H; simpl; constructor; auto.
Qed.

Lemma numbered_from {A B : Type} (R : Z -> A -> B -> Prop) (key : B -> Z)
  (k : Z) (l : list A) (l' : list B) :
  (forall j a b, R j a b -> key b = j) ->
  numbered R k l l' -> Forall (fun b => k <= key b) l'.
Proof.
  intros HR H. induction H; constructor.
  - erewrite HR by eassumption. lia.
  - eapply Forall_impl; [|exact IHnumbered]. simpl. intros; lia.
Qed.

Ltac split_and := repeat match goal with |- _ /\ _ => split end.

Lemma insert_sets_shape (eid : Z) (sl : list value) :
  forall (k : Z) (d d' : db),
    db_inv d ->
    insert_sets eid k sl d = Ok d' ->
    db_inv d'
    /\ workouts d' = workouts d /\ exercises d' = exercises d
    /\ seq_workouts d' = seq_workouts d
    /\ seq_exercises d' = seq_exercises d
    /\ seq_sets d <= seq_sets d'
    /\ exists rows,
         sets d' = sets d ++ rows
         /\ numbered (set_row_matches eid) k sl rows
         /\ set_rows_after (seq_sets d) rows.
Proof.
  induction sl as [|s sl IH]; intros k d d' Hinv; simpl.
  - intros [= <-]. split_and; auto; try lia.
    exists []. rewrite app_nil_r. split_and; constructor.
  - intros H.
    apply bind_ok in H as (reps & Hreps & H).
    apply bind_ok in H as (r & Hr & H).
    apply bind_ok in H as (weight & Hweight & H).
    apply bind_ok in H as (w & Hw & H).
    apply bind_ok in H as (d1 & Hd1 & H).
    destruct (sql_insert_set_inv _ _ _ _ _ _ Hinv Hd1)
      as (Hinv1 & Ew & Ee & Es & Sw & Se & Ss).
    destruct (IH _ _ _ Hinv1 H)
      as (Hinv' & Ew' & Ee' & Sw' & Se' & Ss' & rows & Erows & Hnum & Haft).
    split_and; try congruence; try lia.
    eexists (_ :: rows). split_and.
    + rewrite Erows, Es, <- app_assoc. reflexivity.
    + constructor; [|exact Hnum].
      unfold set_row_matches, set_numbers. simpl. split_and; auto.
      exists reps, weight, w. auto.
    + constructor; [simpl; lia|].
      eapply Forall_impl; [|exact Haft]. simpl. intros; lia.
Qed.

Lemma insert_exercises_shape (wid : Z) (exs : list value) :
  forall (k : Z) (d d' : db),
    db_inv d ->
    insert_exercises wid k exs d = Ok d' ->
    db_inv d'
    /\ workouts d' = workouts d
    /\ seq_workouts d' = seq_workouts d
    /\ seq_exercises d <= seq_exercises d'
    /\ seq_sets d <= seq_sets d'
    /\ exists blocks : list block,
         exercises d' = exercises d ++ map fst blocks
         /\ sets d' = sets d ++ flat_map snd blocks
         /\ numbered (block_matches wid (seq_exercises d + 1 - k)) k exs
              blocks
         /\ Forall (fun b => set_rows_after (seq_sets d) (snd b)) blocks.
Proof.
  induction exs as [|ex exs IH]; intros k d d' Hinv; simpl.
  - intros [= <-]. split_and; auto; try lia.
    exists []. simpl. rewrite !app_nil_r. split_and; constructor.
  - intros H.
    apply bind_ok in H as (nm & Hnm & H).
    apply bind_ok in H as ([d1 eid] & Hd1 & H).
    apply bind_ok in H as (sv & Hsv & H).
    apply bind_ok in H as (sl & Hsl & H).
    apply bind_ok in H as (d2 & Hd2 & H).
    destruct (sql_insert_exercise_inv _ _ _ _ _ _ Hinv Hd1)
      as (Hinv1 & Eid & Ew1 & Ee1 & Es1 & Sw1 & Se1 & Ss1).
    destruct (insert_sets_shape _ _ _ _ _ Hinv1 Hd2)
      as (Hinv2 & Ew2 & Ee2 & Sw2 & Se2 & Ss2 & rows & Erows & Hnum & Haft).
    destruct (IH _ _ _ Hinv2 H)
      as (Hinv' & Ew' & Sw' & Se' & Ss' & blocks & Eb & Esb & Hnb & Hab).
    split_and; try congruence; try lia.
    eexists ((_, rows) :: blocks). split_and.
    + simpl. rewrite Eb, Ee2, Ee1, <- app_assoc. reflexivity.
    + simpl. rewrite Esb, Erows, Es1, <- app_assoc. reflexivity.
    + constructor.
      * unfold block_matches, exercise_name, exercise_sets. simpl.
        split_and; try lia; auto.
        -- exists nm. auto.
        -- exists sl. split; [exists sv; auto|]. subst eid. exact Hnum.
      * replace (seq_exercises d + 1 - k)
          with (seq_exercises d2 + 1 - (k + 1)) by lia.
        exact Hnb.
    + constructor.
      * simpl. unfold set_rows_after in *.
        eapply Forall_impl; [|exact Haft]. simpl. intros; lia.
      * eapply Forall_impl; [|exact Hab]. intros b Hb.
        unfold set_rows_after in *.
        eapply Forall_impl; [|exact Hb]. simpl. intros; lia.
Qed.

(* ================================================================== *)
(** * Sorting *)

Section OrderBy.
Context {A : Type} (le : A -> A -> bool).

Let R (a b : A) : Prop := le a b = true.

Lemma insert_sorted_perm (x : A) (l : list A) :
  Permutation (insert_sorted le x l) (x :: l).
Proof.
  induction l as [|y l IH]; simpl; [reflexivity|].
  destruct (le x y); [reflexivity|].
  rewrite IH. apply perm_swap.
Qed.

Lemma order_by_perm (l : list A) : Permutation (order_by le l) l.
Proof.
  induction l as [|x l IH]; simpl; [reflexivity|].
  rewrite insert_sorted_perm. now apply perm_skip.
Qed.

Lemma order_by_in (l : list A) (x : A) : In x (order_by le l) <-> In x l.
Proof.
  split; apply Permutation_in; [|symmetry]; apply order_by_perm.
Qed.

(** A list already in order stays as it is. *)
Lemma order_by_sorted_id (l : list A) :
  StronglySorted R l -> order_by le l = l.
Proof.
  induction 1 as [|x l Hs IH Hx]; simpl; [reflexivity|].
  rewrite IH. destruct l as [|y l]; [reflexivity|].
  simpl. inversion Hx as [|? ? Hxy _]; subst. unfold R in Hxy.
  now rewrite Hxy.
Qed.

Hypothesis le_total : forall a b, le a b = true \/ le b a = true.
Hypothesis le_trans :
  forall a b c, le a b = true -> le b c = true -> le a c = true.

Lemma insert_sorted_sorted (x : A) (l : list A) :
  StronglySorted R l -> StronglySorted R (insert_sorted le x l).
Proof.
  induction 1 as [|y l Hs IH Hy]; simpl.
  - constructor; constructor.
  - destruct (le x y) eqn:Hxy.
    + constructor; [constructor; assumption|].
      constructor; [exact Hxy|].
      eapply Forall_impl; [|exact Hy]. intros z Hz.
      unfold R in *. eauto.
    + constructor; [exact IH|].
      assert (Hyx : R y x).
      { destruct (le_total x y) as [H|H]; [congruence|exact H]. }
      rewrite Forall_forall in *. intros z Hz.
      apply (Permutation_in _ (insert_sorted_perm x l)) in Hz.
      destruct Hz as [<-|Hz]; auto.
Qed.

Lemma order_by_sorted (l : list A) : StronglySorted R (order_by le l).
Proof.
  induction l as [|x l IH]; simpl; [constructor|].
  now apply insert_sorted_sorted.
Qed.
End OrderBy.

Lemma filter_none {A : Type} (p : A -> bool) (l : list A) :
  (forall x, In x l -> p x = false) -> filter p l = [].
Proof.
  induction l as [|x l IH]; simpl; intros H; [reflexivity|].
  rewrite (H x) by now left. apply IH. intros y Hy. apply H. now right.
Qed.

Lemma filter_all {A : Type} (p : A -> bool) (l : list A) :
  (forall x, In x l -> p x = true) -> filter p l = l.
Proof.
  induction l as [|x l IH]; simpl; intros H; [reflexivity|].
  rewrite (H x) by now left. f_equal. apply IH. intros y Hy. apply H.
  now right.
Qed.

Lemma numbered_sorted {A B : Type} (R : Z -> A -> B -> Prop) (key : B -> Z)
  (le : B -> B -> bool) (k : Z) (l : list A) (l' : list B) :
  (forall j a b, R j a b -> key b = j) ->
  (forall x y, key x < key y -> le x y = true) ->
  numbered R k l l' -> StronglySorted (fun a b => le a b = true) l'.
Proof.
  intros HR Hle H. induction H as [|k a b l l' Hab Hn IH]; constructor.
  - exact IH.
  - apply (numbered_from R key _ _ _ HR) in Hn.
    eapply Forall_impl; [|exact Hn]. simpl. intros y Hy.
    apply Hle. rewrite (HR _ _ _ Hab). lia.
Qed.

Lemma exercise_le_lt (a b : exercise_row) :
  e_sort_order a < e_sort_order b -> exercise_le a b = true.
Proof.
  intros H. unfold exercise_le. apply Z.ltb_lt in H. now rewrite H.
Qed.

Lemma set_le_lt (a b : set_row) :
  s_set_number a < s_set_number b -> set_le a b = true.
Proof.
  intros H. unfold set_le. apply Z.ltb_lt in H. now rewrite H.
Qed.

(* ================================================================== *)
(** * Reading back the rows of a payload *)

Lemma set_rows_facts (eid k : Z) (sl : list value) (rows : list set_row) :
  numbered (set_row_matches eid) k sl rows ->
  Forall (fun s => s_exercise_id s = eid) rows
  /\ StronglySorted (fun x y => set_le x y = true) rows.
Proof.
  intros H. split.
  - induction H as [|j s r sl' rows Hr _ IH]; constructor; auto.
    now destruct Hr.
  - eapply (numbered_sorted _ s_set_number); [|apply set_le_lt|exact H].
    intros j s r Hr. now destruct Hr as (_ & Hj & _).
Qed.

Lemma numbered_block_facts (wid c k : Z) (exs : list value)
  (blocks : list block) :
  numbered (block_matches wid c) k exs blocks ->
  Forall (block_facts wid c k) blocks.
Proof.
  intros H. induction H as [|k ex b exs blocks Hb Hn IH]; constructor.
  - destruct Hb as (Hw & Hk & Hid & _ & sl & _ & Hsets).
    apply set_rows_facts in Hsets as [Hs1 Hs2].
    unfold block_facts. split_and; try lia; auto.
  - eapply Forall_impl; [|exact IH]. intros b' (H1 & H2). split; [lia|auto].
Qed.

Lemma filter_own_block (wid c : Z) (exs : list value) (blocks : list block)
  (k : Z) :
  numbered (block_matches wid c) k exs blocks ->
  forall b, In b blocks ->
    filter (fun s => s_exercise_id s =? e_id (fst b)) (flat_map snd blocks)
    = snd b.
Proof.
  intros H. induction H as [|k ex b0 exs blocks Hb Hn IH]; intros b Hin.
  - destruct Hin.
  - pose proof (numbered_block_facts _ _ _ _ _ Hn) as Hrest.
    destruct Hb as (_ & Hk & Hid & _ & sl & _ & Hsets).
    apply set_rows_facts in Hsets as [Hown _].
    rewrite Forall_forall in Hrest, Hown.
    simpl. rewrite filter_app. destruct Hin as [<-|Hin].
    + rewrite filter_all, filter_none.
      * apply app_nil_r.
      * intros s Hs. apply in_flat_map in Hs as (b' & Hb' & Hs).
        destruct (Hrest b' Hb') as (Hge & Hid' & _ & Hown' & _).
        rewrite Forall_forall in Hown'. rewrite (Hown' s Hs).
        apply Z.eqb_neq. lia.
      * intros s Hs. apply Z.eqb_eq. auto.
    + rewrite filter_none, (IH b Hin); [reflexivity|].
      intros s Hs. rewrite (Hown s Hs).
      destruct (Hrest b Hin) as (Hge & Hid' & _).
      apply Z.eqb_neq. lia.
Qed.

(** The exercises of [wid] read from a state whose tables end with the
    rows of numbered blocks, when no other row belongs to [wid] or to one
    of its exercises. *)
Lemma read_blocks (d : db) (wid c k : Z) (exs : list value)
  (e0 : list exercise_row) (s0 : list set_row) (blocks : list block) :
  exercises d = e0 ++ map fst blocks ->
  sets d = s0 ++ flat_map snd blocks ->
  (forall e, In e e0 -> e_workout_id e <> wid) ->
  (forall s, In s s0 -> s_exercise_id s < c + k) ->
  numbered (block_matches wid c) k exs blocks ->
  map (exercise_view_of d) (exercises_rows d wid) = map view_of_block blocks.
Proof.
  intros He Hs He0 Hs0 Hn.
  pose proof (numbered_block_facts _ _ _ _ _ Hn) as Hfacts.
  rewrite Forall_forall in Hfacts.
  assert (Hrows : exercises_rows d wid = map fst blocks).
  { unfold exercises_rows. rewrite He, filter_app, filter_none, filter_all.
    - simpl. apply order_by_sorted_id.
      assert (Hsorted : StronglySorted
                (fun a b => exercise_le (fst a) (fst b) = true) blocks).
      { eapply (numbered_sorted _ (fun b => e_sort_order (fst b))
                  (fun a b => exercise_le (fst a) (fst b))); [| |exact Hn].
        - intros j a b Hb. now destruct Hb as (_ & Hj & _).
        - intros x y. apply exercise_le_lt. }
      clear - Hsorted. induction Hsorted as [|b l _ IH Hb]; simpl;
        constructor; auto.
      rewrite Forall_map. exact Hb.
    - intros e Hin. apply in_map_iff in Hin as (b & <- & Hb).
      apply Z.eqb_eq. now destruct (Hfacts b Hb) as (_ & _ & Hw & _).
    - intros e Hin. apply Z.eqb_neq. auto. }
  rewrite Hrows, map_map. apply map_ext_in. intros b Hb.
  unfold exercise_view_of, view_of_block. f_equal.
  unfold sets_rows. rewrite Hs, filter_app, filter_none.
  - simpl. rewrite (filter_own_block _ _ _ _ _ Hn b Hb).
    rewrite order_by_sorted_id; [reflexivity|].
    now destruct (Hfacts b Hb) as (_ & _ & _ & _ & Hsorted).
  - intros s Hin. apply Z.eqb_neq.
    destruct (Hfacts b Hb) as (Hge & Hid & _).
    specialize (Hs0 s Hin). lia.
Qed.

(** The views of numbered blocks match the payload. *)
Lemma blocks_match (wid c k : Z) (exs : list value) (blocks : list block) :
  numbered (block_matches wid c) k exs blocks ->
  numbered exercise_matches k exs (map view_of_block blocks).
Proof.
  apply numbered_map. intros j ex b (_ & Hj & _ & Hname & sl & Hsl & Hsets).
  unfold exercise_matches, view_of_block. simpl. split_and; auto.
  exists sl. split; [exact Hsl|].
  eapply numbered_map; [|exact Hsets].
  intros i s r (_ & Hi & Hnum). split; assumption.
Qed.

Lemma sets_reference_old (d : db) (s : set_row) :
  db_inv d -> In s (sets d) -> s_exercise_id s <= seq_exercises d.
Proof.
  intros [_ _ Ie _ [_ Io2] _] Hs.
  rewrite Forall_forall in Io2. specialize (Io2 s Hs).
  apply has_exercise_iff in Io2 as (e & He & <-).
  apply (ids_ok_bound e_id _ _ e Ie He).
Qed.

Lemma exercises_reference_old (d : db) (e : exercise_row) :
  db_inv d -> In e (exercises d) -> e_workout_id e <= seq_workouts d.
Proof.
  intros [_ Iw _ _ [Io1 _] _] He.
  rewrite Forall_forall in Io1. specialize (Io1 e He).
  apply has_workout_iff in Io1 as (w & Hw & <-).
  apply (ids_ok_bound w_id _ _ w Iw Hw).
Qed.

(** The loop over the exercises of a payload, read back. *)
Lemma insert_exercises_read (wid : Z) (l : list value) (d d' : db) :
  db_inv d ->
  (forall e, In e (exercises d) -> e_workout_id e <> wid) ->
  insert_exercises wid 1 l d = Ok d' ->
  db_inv d' /\ workouts d' = workouts d
  /\ seq_workouts d' = seq_workouts d
  /\ exists blocks : list block,
       exercises d' = exercises d ++ map fst blocks
       /\ sets d' = sets d ++ flat_map snd blocks
       /\ map (exercise_view_of d') (exercises_rows d' wid)
          = map view_of_block blocks
       /\ numbered exercise_matches 1 l (map view_of_block blocks)
       /\ Forall (fun b => seq_exercises d < e_id (fst b)
                           /\ set_rows_after (seq_sets d) (snd b)
                           /\ Forall (fun s => s_exercise_id s = e_id (fst b))
                                (snd b)) blocks.
Proof.
  intros Hinv Hnone H.
  destruct (insert_exercises_shape _ _ _ _ _ Hinv H)
    as (Hinv' & Ew & Sw & Se & Ss & blocks & Eb & Esb & Hn & Haft).
  split_and; auto.
  exists blocks. split_and; auto.
  - eapply read_blocks; eauto.
    intros s Hs. pose proof (sets_reference_old d s Hinv Hs). lia.
  - eapply blocks_match; eauto.
  - pose proof (numbered_block_facts _ _ _ _ _ Hn) as Hfacts.
    rewrite Forall_forall in *. intros b Hb.
    destruct (Hfacts b Hb) as (Hge & Hid & _ & Hown & _).
    split_and; auto. lia.
Qed.

Lemma find_snoc_new (l : list workout_row) (w : workout_row) (id : Z) :
  w_id w = id ->
  (forall w', In w' l -> w_id w' <> id) ->
  find (fun w' => w_id w' =? id) (l ++ [w]) = Some w.
Proof.
  intros <-. induction l as [|x l IH]; simpl; intros H.
  - now rewrite Z.eqb_refl.
  - destruct (w_id x =? w_id w) eqn:Heq.
    + apply Z.eqb_eq in Heq. now destruct (H x (or_introl eq_refl)).
    + apply IH. intros w' Hw'. apply H. now right.
Qed.

Lemma fresh_of_blocks (d : db) (blocks : list block) :
  Forall (fun b => seq_exercises d < e_id (fst b)
                   /\ set_rows_after (seq_sets d) (snd b)
                   /\ Forall (fun s => s_exercise_id s = e_id (fst b))
                        (snd b)) blocks ->
  Forall (fun ev => seq_exercises d < ev_id ev
                    /\ Forall (fun sv => seq_sets d < sv_id sv) (ev_sets ev))
    (map view_of_block blocks).
Proof.
  intros H. rewrite Forall_map. eapply Forall_impl; [|exact H].
  intros b (Hb & Hs & _). split; [exact Hb|].
  simpl. rewrite Forall_map. exact Hs.
Qed.

(** What a [create_workout] that returns has written and what
    [get_workout] then reads. *)
Lemma create_workout_returns (now : string) (d d' : db) (payload : value)
  (id : Z) :
  db_inv d ->
  create_workout now d payload = (d', Ok id) ->
  db_inv d' /\ id = seq_workouts d + 1
  /\ exists wdv wd title views,
       py_getitem payload "workout_date" = Ok wdv
       /\ _parse_iso_date wdv = Some wd
       /\ title_param payload = Ok title
       /\ workouts d' = workouts d ++
                        [{| w_id := id; w_workout_date := wd;
                            w_title := title; w_created_at := now;
                            w_updated_at := now |}]
       /\ get_workout d' id
          = Some {| wv_id := id; wv_workout_date := wd;
                    wv_title := coalesce title; wv_created_at := now;
                    wv_updated_at := now; wv_exercises := views |}
       /\ (exists l, payload_exercises payload l
                     /\ numbered exercise_matches 1 l views)
       /\ Forall (fun ev =>
                    seq_exercises d < ev_id ev
                    /\ Forall (fun sv => seq_sets d < sv_id sv) (ev_sets ev))
            views.
Proof.
  intros Hinv H. unfold create_workout, transaction in H.
  match type of H with
  | match ?body with _ => _ end = _ => destruct body as [[d2 id']|e] eqn:Hb
  end; [|discriminate].
  injection H as -> ->.
  apply bind_ok in Hb as (wdv & Hwdv & Hb).
  apply bind_ok in Hb as (title & Htitle & Hb).
  apply bind_ok in Hb as ([d1 wid] & Hd1 & Hb).
  apply bind_ok in Hb as (exs & Hexs & Hb).
  apply bind_ok in Hb as (l & Hl & Hb).
  apply bind_ok in Hb as (d3 & Hd3 & Hb).
  injection Hb as -> ->.
  destruct (_parse_iso_date wdv) as [wd|] eqn:Hwd; [|discriminate].
  destruct (sql_insert_workout_inv _ _ _ _ _ _ _ Hinv Hd1)
    as (Hinv1 & Eid & Hhas & Ee1 & Es1 & Se1 & Ss1).
  assert (Ew1 : workouts d1 = workouts d ++
                [{| w_id := id; w_workout_date := wd; w_title := title;
                    w_created_at := now; w_updated_at := now |}]).
  { unfold sql_insert_workout in Hd1. now injection Hd1 as <- <-. }
  assert (Hnone : forall e, In e (exercises d1) -> e_workout_id e <> id).
  { intros e He. rewrite Ee1 in He.
    pose proof (exercises_reference_old d e Hinv He). lia. }
  destruct (insert_exercises_read _ _ _ _ Hinv1 Hnone Hd3)
    as (Hinv' & Ew & Sw & blocks & Eb & Esb & Hread & Hmatch & Hfresh).
  split_and; auto.
  exists wdv, wd, title, (map view_of_block blocks). split_and; auto.
  - congruence.
  - unfold get_workout. rewrite Ew, Ew1.
    rewrite find_snoc_new; [simpl; now rewrite Hread|reflexivity|].
    intros w' Hw'. destruct Hinv as [_ Iw _ _ _ _].
    pose proof (ids_ok_bound w_id _ _ w' Iw Hw'). lia.
  - exists l. split; [|exact Hmatch]. exists exs. auto.
  - apply fresh_of_blocks. rewrite Se1, Ss1 in Hfresh. exact Hfresh.
Qed.

Lemma transaction_raise {A : Type} (d d' : db) (body : result (db * A))
  (e : exn) :
  transaction d body = (d', Raise e) -> d' = d.
Proof.
  unfold transaction. destruct body as [[d1 a]|e']; intros [= <-]; auto.
Qed.

Lemma find_map_ids (f : workout_row -> workout_row) (id : Z)
  (l : list workout_row) :
  (forall w, w_id (f w) = w_id w) ->
  find (fun w => w_id w =? id) (map f l)
  = option_map f (find (fun w => w_id w =? id) l).
Proof.
  intros Hf. induction l as [|w l IH]; simpl; [reflexivity|].
  rewrite Hf. destruct (w_id w =? id); [reflexivity|exact IH].
Qed.

Lemma has_workout_find (d : db) (id : Z) :
  has_workout d id = true ->
  exists w, find (fun w => w_id w =? id) (workouts d) = Some w
            /\ In w (workouts d) /\ w_id w = id.
Proof.
  intros H. destruct (find (fun w => w_id w =? id) (workouts d)) as [w|] eqn:F.
  - exists w. apply find_some in F as [Hin Heq]. apply Z.eqb_eq in Heq. auto.
  - apply has_workout_iff in H as (w & Hw & Heq).
    pose proof (find_none _ _ F w Hw) as Hn. simpl in Hn.
    apply Z.eqb_neq in Hn. contradiction.
Qed.

Lemma no_workout_find (d : db) (id : Z) :
  has_workout d id = false ->
  find (fun w => w_id w =? id) (workouts d) = None.
Proof.
  intros H. destruct (find _ (workouts d)) as [w|] eqn:F; [|reflexivity].
  apply find_some in F as [Hin Heq].
  assert (has_workout d id = true) by (apply existsb_exists; eauto).
  congruence.
Qed.

(** What an [update_workout] that returns true has written and what
    [get_workout] then reads. *)
Lemma update_workout_returns (now : string) (d d' : db) (id : Z)
  (payload : value) :
  db_inv d ->
  update_workout now d id payload = (d', Ok true) ->
  db_inv d'
  /\ exists w0 wdv wd title views,
       find (fun w => w_id w =? id) (workouts d) = Some w0
       /\ py_getitem payload "workout_date" = Ok wdv
       /\ _parse_iso_date wdv = Some wd
       /\ title_param payload = Ok title
       /\ find (fun w => w_id w =? id) (workouts d')
          = Some {| w_id := w_id w0; w_workout_date := wd; w_title := title;
                    w_created_at := w_created_at w0; w_updated_at := now |}
       /\ get_workout d' id
          = Some {| wv_id := w_id w0; wv_workout_date := wd;
                    wv_title := coalesce title;
                    wv_created_at := w_created_at w0;
                    wv_updated_at := now; wv_exercises := views |}
       /\ (exists l, payload_exercises payload l
                     /\ numbered exercise_matches 1 l views)
       /\ Forall (fun ev =>
                    seq_exercises d < ev_id ev
                    /\ Forall (fun sv => seq_sets d < sv_id sv) (ev_sets ev))
            views
       /\ (forall e, In e (exercises d') -> e_workout_id e = id ->
                     seq_exercises d < e_id e)
       /\ (forall e s, In e (exercises d) -> e_workout_id e = id ->
                       In s (sets d') -> s_exercise_id s <> e_id e).
Proof.
  intros Hinv H. unfold update_workout, transaction in H.
  match type of H with
  | match ?body with _ => _ end = _ => destruct body as [[d3 b]|e] eqn:Hb
  end; [|discriminate].
  injection H as -> ->.
  destruct (has_workout d id) eqn:Hhas; [|discriminate]. cbn [negb] in Hb.
  apply bind_ok in Hb as (wdv & Hwdv & Hb).
  apply bind_ok in Hb as (title & Htitle & Hb).
  apply bind_ok in Hb as (d1 & Hd1 & Hb).
  apply bind_ok in Hb as (exs & Hexs & Hb).
  apply bind_ok in Hb as (l & Hl & Hb).
  apply bind_ok in Hb as (d3 & Hd3 & Hb).
  injection Hb as ->.
  destruct (_parse_iso_date wdv) as [wd|] eqn:Hwd.
  2:{ unfold sql_update_workout in Hd1. now rewrite Hhas in Hd1. }
  destruct (sql_update_workout_inv _ _ _ _ _ _ Hinv Hd1)
    as (Hinv1 & Ew1 & Ee1 & Es1 & Sw1 & Se1 & Ss1).
  destruct (sql_delete_exercises_inv id d1 Hinv1) as (Hinv2 & Hnone).
  destruct (insert_exercises_read _ _ _ _ Hinv2 Hnone Hd3)
    as (Hinv' & Ew & Sw & blocks & Eb & Esb & Hread & Hmatch & Hfresh).
  destruct (has_workout_find d id Hhas) as (w0 & Hfind & Hin0 & Hid0).
  assert (Hfind' : find (fun w => w_id w =? id) (workouts d')
                   = Some {| w_id := w_id w0; w_workout_date := wd;
                             w_title := title;
                             w_created_at := w_created_at w0;
                             w_updated_at := now |}).
  { rewrite Ew. unfold sql_update_workout in Hd1. injection Hd1 as <-.
    cbn [sql_delete_exercises workouts]. rewrite find_map_ids.
    - rewrite Hfind. simpl. rewrite Hid0, Z.eqb_refl. reflexivity.
    - intros w. now destruct (w_id w =? id). }
  simpl in Hfresh. rewrite Se1, Ss1 in Hfresh.
  split; [exact Hinv'|].
  exists w0, wdv, wd, title, (map view_of_block blocks). split_and; auto.
  - unfold get_workout. rewrite Hfind'. cbn. now rewrite Hread.
  - exists l. split; [|exact Hmatch]. exists exs. auto.
  - now apply fresh_of_blocks.
  - intros e He Hw. rewrite Eb in He. apply in_app_or in He as [He|He].
    + now destruct (Hnone e He).
    + apply in_map_iff in He as (b & <- & Hb).
      rewrite Forall_forall in Hfresh. now destruct (Hfresh b Hb).
  - intros e s He Hw Hs Heq. rewrite Esb in Hs.
    apply in_app_or in Hs as [Hs|Hs].
    + simpl in Hs. rewrite Ee1, Es1 in Hs.
      apply cascade_sets_in in Hs as [_ Hgone].
      apply (Hgone e); [|congruence].
      apply filter_In. split; [exact He|]. now apply Z.eqb_eq.
    + apply in_flat_map in Hs as (b & Hb & Hs).
      rewrite Forall_forall in Hfresh.
      destruct (Hfresh b Hb) as (Hlt & _ & Hown).
      rewrite Forall_forall in Hown. rewrite (Hown s Hs) in Heq.
      destruct Hinv as [_ _ Ie _ _ _].
      pose proof (ids_ok_bound e_id _ _ e Ie He). lia.
Qed.

Lemma length_filter_exists {A : Type} (p : A -> bool) (l : list A) :
  (0 <? Z.of_nat (List.length (filter p l))) = existsb p l.
Proof.
  induction l as [|x l IH]; simpl; [reflexivity|].
  destruct (p x); simpl; [|exact IH].
  apply Z.ltb_lt. lia.
Qed.

Lemma delete_workout_returns (d d' : db) (id : Z) (r : result bool) :
  delete_workout d id = (d', r) ->
  d' = fst (sql_delete_workout id d) /\ r = Ok (has_workout d id).
Proof.
  unfold delete_workout, transaction, sql_delete_workout.
  intros [= <- <-]. split; [reflexivity|].
  f_equal. apply length_filter_exists.
Qed.

Lemma create_workout_keeps (now : string) (d : db) (payload : value) :
  db_inv d -> db_inv (fst (create_workout now d payload)).
Proof.
  intros Hinv. destruct (create_workout now d payload) as [d' r] eqn:H.
  destruct r as [id|e]; simpl.
  - now destruct (create_workout_returns _ _ _ _ _ Hinv H).
  - apply transaction_raise in H. now subst.
Qed.

Lemma update_workout_keeps (now : string) (d : db) (id : Z)
  (payload : value) :
  db_inv d -> db_inv (fst (update_workout now d id payload)).
Proof.
  intros Hinv. destruct (update_workout now d id payload) as [d' r] eqn:H.
  destruct r as [[|]|e]; simpl.
  - now destruct (update_workout_returns _ _ _ _ _ Hinv H).
  - unfold update_workout, transaction in H.
    destruct (has_workout d id); cbn [negb] in H.
    + match type of H with
      | match ?body with _ => _ end = _ =>
          destruct body as [[d3 b]|e] eqn:Hb
      end; [|discriminate].
      repeat (apply bind_ok in Hb as (? & ? & Hb)). congruence.
    + now injection H as <-.
  - apply transaction_raise in H. now subst.
Qed.

Lemma delete_workout_keeps (d : db) (id : Z) :
  db_inv d -> db_inv (fst (delete_workout d id)).
Proof.
  intros Hinv. destruct (delete_workout d id) as [d' r] eqn:H.
  apply delete_workout_returns in H as [-> _]. simpl.
  now apply sql_delete_workout_inv.
Qed.

Lemma seed_sets_inv (ex_id : Z) (sets_ : list (Z * float)) :
  forall (k : Z) (d d' : db),
    db_inv d -> seed_sets ex_id k sets_ d = Ok d' -> db_inv d'.
Proof.
  induction sets_ as [|[reps weight] rest IH]; intros k d d' Hinv; simpl.
  - now intros [= <-].
  - intros H. apply bind_ok in H as (d1 & Hd1 & H).
    apply (IH _ _ _ (proj1 (sql_insert_set_inv _ _ _ _ _ _ Hinv Hd1)) H).
Qed.

Lemma seed_exercises_inv (wid : Z) (exs : list (string * list (Z * float))) :
  forall (k : Z) (d d' : db),
    db_inv d -> seed_exercises wid k exs d = Ok d' -> db_inv d'.
Proof.
  induction exs as [|[name sets_] rest IH]; intros k d d' Hinv; simpl.
  - now intros [= <-].
  - intros H. apply bind_ok in H as ([d1 ex_id] & Hd1 & H).
    apply bind_ok in H as (d2 & Hd2 & H).
    apply (IH _ _ _ (seed_sets_inv _ _ _ _ _
             (proj1 (sql_insert_exercise_inv _ _ _ _ _ _ Hinv Hd1)) Hd2) H).
Qed.

Lemma seed_workouts_inv (drawn : list seeded_workout) :
  forall (created : Z) (d d' : db) (n : Z),
    db_inv d -> seed_workouts drawn created d = Ok (d', n) -> db_inv d'.
Proof.
  induction drawn as [|w rest IH]; intros created d d' n Hinv;
    cbn [seed_workouts].
  - now intros [= <- _].
  - intros H. apply bind_ok in H as ([d1 wid] & Hd1 & H).
    apply bind_ok in H as (d2 & Hd2 & H).
    apply (IH _ _ _ _ (seed_exercises_inv _ _ _ _ _
             (proj1 (sql_insert_workout_inv _ _ _ _ _ _ _ Hinv Hd1)) Hd2) H).
Qed.

Lemma seed_sample_data_keeps (drawn : list seeded_workout) (d : db) :
  db_inv d -> db_inv (fst (seed_sample_data drawn d)).
Proof.
  intros Hinv. unfold seed_sample_data, transaction.
  destruct (seed_workouts drawn 0 d) as [[d' n]|e] eqn:H; simpl.
  - exact (seed_workouts_inv _ _ _ _ _ Hinv H).
  - exact Hinv.
Qed.

(** Every state the operations lead to satisfies the invariant. *)
Lemma reachable_inv (d : db) : reachable d -> db_inv d.
Proof.
  induction 1.
  - apply db_inv_empty.
  - now apply create_workout_keeps.
  - now apply update_workout_keeps.
  - now apply delete_workout_keeps.
  - now apply seed_sample_data_keeps.
Qed.

(* ================================================================== *)
(** * The rows of the listing *)

Lemma flat_map_flat_map {A B C : Type} (f : A -> list B) (g : B -> list C)
  (l : list A) :
  flat_map g (flat_map f l) = flat_map (fun x => flat_map g (f x)) l.
Proof.
  induction l as [|x l IH]; simpl; [reflexivity|].
  now rewrite flat_map_app, IH.
Qed.

Lemma flat_map_map {A B C : Type} (f : A -> B) (g : B -> list C)
  (l : list A) :
  flat_map g (map f l) = flat_map (fun x => g (f x)) l.
Proof.
  induction l as [|x l IH]; simpl; [reflexivity|]. now rewrite IH.
Qed.

Lemma flat_map_singleton {A B : Type} (f : A -> B) (l : list A) :
  flat_map (fun x => [f x]) l = map f l.
Proof.
  induction l as [|x l IH]; simpl; [reflexivity|]. now rewrite IH.
Qed.

Lemma flat_map_ext_in {A B : Type} (f g : A -> list B) (l : list A) :
  (forall x, In x l -> f x = g x) -> flat_map f l = flat_map g l.
Proof.
  induction l as [|x l IH]; simpl; intros H; [reflexivity|].
  rewrite (H x) by now left. f_equal. apply IH. intros y Hy. apply H.
  now right.
Qed.

Lemma joined_rows (d : db) : joined d = flat_map (rows_of d) (workouts d).
Proof.
  unfold joined, left_join. rewrite flat_map_flat_map.
  apply flat_map_ext. intros w. unfold rows_of, exercises_of.
  destruct (filter (fun e => e_workout_id e =? w_id w) (exercises d))
    as [|e m]; simpl.
  - now rewrite filter_false.
  - rewrite flat_map_map. reflexivity.
Qed.

Lemma rows_of_exercise_workout (d : db) (w : workout_row) (e : exercise_row)
  (r : joined_row) :
  In r (rows_of_exercise d w e) -> jr_workout r = w /\ jr_exercise r = Some e.
Proof.
  unfold rows_of_exercise. destruct (sets_of d e) as [|s m].
  - intros [<-|[]]. auto.
  - intros H. apply in_map_iff in H as (s' & <- & _). auto.
Qed.

Lemma rows_of_exercise_head (d : db) (w : workout_row) (e : exercise_row) :
  exists r rest, rows_of_exercise d w e = r :: rest.
Proof.
  unfold rows_of_exercise. destruct (sets_of d e) as [|s m]; simpl; eauto.
Qed.

Lemma rows_of_workout (d : db) (w : workout_row) (r : joined_row) :
  In r (rows_of d w) -> jr_workout r = w.
Proof.
  unfold rows_of. destruct (exercises_of d w) as [|e m].
  - intros [<-|[]]. reflexivity.
  - intros H. apply in_flat_map in H as (e' & _ & H).
    now apply rows_of_exercise_workout in H.
Qed.

Lemma rows_of_head (d : db) (w : workout_row) :
  exists r rest, rows_of d w = r :: rest /\ jr_workout r = w.
Proof.
  destruct (rows_of d w) as [|r rest] eqn:E.
  - exfalso. unfold rows_of in E. destruct (exercises_of d w) as [|e m];
      [discriminate|].
    simpl in E. destruct (rows_of_exercise_head d w e) as (r & rest & Hr).
    rewrite Hr in E. discriminate.
  - exists r, rest. split; [reflexivity|].
    apply (rows_of_workout d w). rewrite E. now left.
Qed.

Lemma filter_idem {A : Type} (p : A -> bool) (l : list A) :
  filter p (filter p l) = filter p l.
Proof.
  apply filter_all. intros x Hx. now apply filter_In in Hx.
Qed.

Lemma distinct_block (k : Z) (l1 l2 : list Z) :
  l1 <> [] -> (forall x, In x l1 -> x = k) ->
  distinct (l1 ++ l2) = k :: filter (fun y => negb (y =? k)) (distinct l2).
Proof.
  induction l1 as [|x l1 IH]; intros Hne Hall; [congruence|].
  assert (x = k) as -> by (apply Hall; now left).
  destruct l1 as [|y l1].
  - reflexivity.
  - change (distinct ((k :: y :: l1) ++ l2))
      with (k :: filter (fun z => negb (z =? k))
                   (distinct ((y :: l1) ++ l2))).
    rewrite IH; [|discriminate|intros z Hz; apply Hall; now right].
    simpl. rewrite Z.eqb_refl. simpl. now rewrite filter_idem.
Qed.

(** The keys of grouped rows, each group not empty and of one key, are the
    keys of the groups. *)
Lemma distinct_flat_map {X R : Type} (rows : X -> list R) (key : R -> Z)
  (kx : X -> Z) (l : list X) :
  (forall x r, In r (rows x) -> key r = kx x) ->
  (forall x, rows x <> []) ->
  NoDup (map kx l) ->
  distinct (map key (flat_map rows l)) = map kx l.
Proof.
  intros Hkey Hne. induction l as [|x l IH]; simpl; intros Hnd;
    [reflexivity|].
  inversion Hnd as [|? ? Hnin Hnd']; subst.
  rewrite map_app, (distinct_block (kx x)).
  - rewrite IH by assumption. f_equal. apply filter_all.
    intros y Hy. apply negb_true_iff, Z.eqb_neq. congruence.
  - destruct (rows x) eqn:E; [now destruct (Hne x)|discriminate].
  - intros y Hy. apply in_map_iff in Hy as (r & <- & Hr). auto.
Qed.

(** The rows of one group among grouped rows. *)
Lemma filter_flat_map_own {X R : Type} (rows : X -> list R) (key : R -> Z)
  (kx : X -> Z) (l : list X) (x : X) :
  (forall x r, In r (rows x) -> key r = kx x) ->
  NoDup (map kx l) -> In x l ->
  filter (fun r => key r =? kx x) (flat_map rows l) = rows x.
Proof.
  intros Hkey. induction l as [|y l IH]; simpl; intros Hnd Hin;
    [destruct Hin|].
  inversion Hnd as [|? ? Hnin Hnd']; subst.
  rewrite filter_app. destruct Hin as [->|Hin].
  - rewrite filter_all, filter_none.
    + apply app_nil_r.
    + intros r Hr. apply in_flat_map in Hr as (z & Hz & Hr).
      apply Z.eqb_neq. rewrite (Hkey z r Hr). intros Heq.
      apply Hnin. rewrite <- Heq. now apply in_map.
    + intros r Hr. apply Z.eqb_eq. auto.
  - rewrite IH by assumption. rewrite filter_none; [reflexivity|].
    intros r Hr. apply Z.eqb_neq. rewrite (Hkey y r Hr). intros Heq.
    apply Hnin. rewrite Heq. now apply in_map.
Qed.

Lemma some_values_app {A : Type} (l1 l2 : list (option A)) :
  some_values (l1 ++ l2) = some_values l1 ++ some_values l2.
Proof.
  induction l1 as [|[a|] l1 IH]; simpl; [reflexivity| |exact IH].
  now rewrite IH.
Qed.

Lemma some_values_flat_map {A B C : Type} (h : B -> option C)
  (k : A -> list B) (l : list A) :
  some_values (map h (flat_map k l))
  = flat_map (fun x => some_values (map h (k x))) l.
Proof.
  induction l as [|x l IH]; simpl; [reflexivity|].
  now rewrite map_app, some_values_app, IH.
Qed.

Lemma some_values_map_some {A B : Type} (f : A -> B) (l : list A) :
  some_values (map (fun x => Some (f x)) l) = map f l.
Proof.
  induction l as [|x l IH]; simpl; [reflexivity|]. now rewrite IH.
Qed.

Lemma rows_of_exercise_sets (d : db) (w : workout_row) (e : exercise_row) :
  some_values (map jr_set (rows_of_exercise d w e)) = sets_of d e.
Proof.
  unfold rows_of_exercise. destruct (sets_of d e) as [|s m]; [reflexivity|].
  rewrite map_map. change (some_values (map (fun x => Some x) (s :: m))
                           = s :: m).
  rewrite (some_values_map_some (fun x => x)). apply map_id.
Qed.

Lemma summarize_rows_of (d : db) (w : workout_row) :
  NoDup (map e_id (exercises d)) ->
  summarize (rows_of d w) = [summary_of d w].
Proof.
  intros Hnd. destruct (rows_of_head d w) as (r & rest & E & Hr).
  unfold summarize. rewrite E, Hr, <- E. unfold summary_of.
  do 2 f_equal.
  - f_equal. unfold rows_of. destruct (exercises_of d w) as [|e m] eqn:Em.
    + reflexivity.
    + rewrite <- Em. rewrite some_values_flat_map.
      rewrite (distinct_flat_map _ e_id e_id).
      * now rewrite length_map.
      * intros x y Hy. clear - Hy. unfold rows_of_exercise in Hy.
        destruct (sets_of d x) as [|s m]; simpl in Hy.
        -- destruct Hy as [<-|[]]. reflexivity.
        -- destruct Hy as [<-|Hy]; [reflexivity|].
           rewrite map_map in Hy. simpl in Hy.
           rewrite (some_values_map_some (fun _ => x)) in Hy.
           apply in_map_iff in Hy as (_ & <- & _). reflexivity.
      * intros x. destruct (rows_of_exercise_head d w x) as (r' & rs & Er).
        pose proof (rows_of_exercise_workout d w x r') as Hr'.
        rewrite Er in *. destruct (Hr' (or_introl eq_refl)) as [_ He'].
        simpl. rewrite He'. discriminate.
      * unfold exercises_of. clear - Hnd.
        induction (exercises d) as [|x l IH]; simpl; [constructor|].
        inversion Hnd as [|? ? Hnin Hnd']; subst.
        destruct (e_workout_id x =? w_id w); simpl; auto.
        constructor; auto. intros Hin. apply Hnin.
        apply in_map_iff in Hin as (y & Hy & Hin).
        apply filter_In in Hin as [Hin _]. apply in_map_iff. eauto.
  - f_equal. unfold rows_of. destruct (exercises_of d w) as [|e m] eqn:Em.
    + reflexivity.
    + rewrite <- Em. rewrite some_values_flat_map. f_equal.
      apply flat_map_ext. intros x. apply rows_of_exercise_sets.
Qed.

(** [list_workouts] gives the summaries of the workouts, in order. *)
Lemma list_workouts_spec (d : db) :
  db_inv d ->
  list_workouts d = order_by summary_le (map (summary_of d) (workouts d)).
Proof.
  intros [_ [_ Hw] [_ He] _ _ _]. unfold list_workouts.
  rewrite joined_rows. f_equal.
  rewrite (distinct_flat_map (rows_of d) (fun r => w_id (jr_workout r)) w_id).
  - rewrite flat_map_map, <- flat_map_singleton.
    apply flat_map_ext_in. intros w Hin.
    rewrite (filter_flat_map_own (rows_of d)
               (fun r => w_id (jr_workout r)) w_id); auto.
    + now apply summarize_rows_of.
    + intros x r Hr. now rewrite (rows_of_workout d x r Hr).
  - intros x r Hr. now rewrite (rows_of_workout d x r Hr).
  - intros x. destruct (rows_of_head d x) as (r & rest & -> & _).
    discriminate.
  - exact Hw.
Qed.

(* ================================================================== *)
(** * The order of the listing *)

Lemma ascii_compare_lt_trans (a b c : ascii) :
  Ascii.compare a b = Lt -> Ascii.compare b c = Lt -> Ascii.compare a c = Lt.
Proof.
  unfold Ascii.compare. rewrite !N.compare_lt_iff. lia.
Qed.

Lemma ascii_compare_eq (a b : ascii) : Ascii.compare a b = Eq -> a = b.
Proof.
  unfold Ascii.compare. intros H. apply N.compare_eq in H.
  rewrite <- (ascii_N_embedding a), <- (ascii_N_embedding b). now rewrite H.
Qed.

Lemma string_compare_lt_trans (a : string) :
  forall b c,
    String.compare a b = Lt -> String.compare b c = Lt ->
    String.compare a c = Lt.
Proof.
  induction a as [|x a IH]; intros [|y b] [|z c]; simpl; try congruence.
  destruct (Ascii.compare x y) eqn:Hxy; try discriminate.
  - apply ascii_compare_eq in Hxy as ->.
    destruct (Ascii.compare y z); try discriminate; auto.
    apply IH.
  - intros _. destruct (Ascii.compare y z) eqn:Hyz; try discriminate.
    + apply ascii_compare_eq in Hyz as <-. now rewrite Hxy.
    + intros _. now rewrite (ascii_compare_lt_trans x y z).
Qed.

Lemma string_ltb_trans (a b c : string) :
  String.ltb a b = true -> String.ltb b c = true -> String.ltb a c = true.
Proof.
  unfold String.ltb. intros Hab Hbc.
  destruct (String.compare a b) eqn:E1; try discriminate.
  destruct (String.compare b c) eqn:E2; try discriminate.
  now rewrite (string_compare_lt_trans a b c E1 E2).
Qed.

Lemma summary_le_iff (a b : summary) :
  summary_le a b = true <-> listed_before a b.
Proof.
  unfold summary_le, listed_before.
  rewrite orb_true_iff, andb_true_iff, String.eqb_eq, Z.leb_le. tauto.
Qed.

Lemma summary_le_total (a b : summary) :
  summary_le a b = true \/ summary_le b a = true.
Proof.
  rewrite !summary_le_iff. unfold listed_before, String.ltb.
  rewrite (String.compare_antisym (sm_workout_date a) (sm_workout_date b)).
  destruct (String.compare (sm_workout_date b) (sm_workout_date a)) eqn:E;
    simpl; auto.
  apply String.compare_eq_iff in E.
  destruct (Z.le_ge_cases (sm_id a) (sm_id b)); auto.
Qed.

Lemma summary_le_trans (a b c : summary) :
  summary_le a b = true -> summary_le b c = true -> summary_le a c = true.
Proof.
  rewrite !summary_le_iff. unfold listed_before.
  intros [Hab|[Eab Hab]] [Hbc|[Ebc Hbc]].
  - left. eapply string_ltb_trans; eauto.
  - left. now rewrite <- Ebc.
  - left. now rewrite Eab.
  - right. split; [congruence|lia].
Qed.

Lemma list_workouts_sorted (d : db) :
  StronglySorted listed_before (list_workouts d).
Proof.
  unfold list_workouts.
  pose proof (order_by_sorted summary_le summary_le_total summary_le_trans)
    as H.
  match goal with
  | |- StronglySorted _ (order_by _ ?l) => specialize (H l); revert H;
      generalize (order_by summary_le l)
  end.
  intros l H. induction H as [|x l _ IH Hx]; constructor; auto.
  eapply Forall_impl; [|exact Hx]. intros y. apply summary_le_iff.
Qed.

(* ================================================================== *)
(** * Payloads that are stored *)

Lemma float_not_below_zero (f : float) :
  is_nan f = false -> float_ltb f pos_zero = false ->
  float_leb pos_zero f = true.
Proof.
  destruct f as [s|s| |s m e]; simpl; try discriminate; auto.
  - destruct s; [discriminate|reflexivity].
  - destruct s; [discriminate|reflexivity].
Qed.

Lemma py_getitem_of_get (d : list (string * value)) (k : string) (v : value) :
  py_get (VDict d) k = Ok v -> v <> VNone -> py_getitem (VDict d) k = Ok v.
Proof.
  simpl. destruct (lookup k d); intros [= <-]; congruence.
Qed.

Lemma accepted_set_parts (s : value) :
  accepted_set s = true -> storable_set s = true ->
  exists r w n f,
    py_getitem s "reps" = Ok r /\ py_int r = Ok n
    /\ py_getitem s "weight" = Ok w /\ py_float w = Ok f
    /\ sqlite_integer n = true /\ 1 <= n
    /\ is_nan f = false /\ float_leb pos_zero f = true.
Proof.
  destruct s as [| | | | | |sd]; try discriminate.
  unfold accepted_set, storable_set.
  destruct (py_get_dict sd "reps") as [r Hr].
  destruct (py_get_dict sd "weight") as [w Hw].
  rewrite Hr, Hw.
  destruct (py_int r) as [n|] eqn:Hn; [|discriminate].
  destruct (py_float w) as [f|] eqn:Hf; [|discriminate].
  intros Ha Hs.
  apply andb_true_iff in Ha as [Ha1 Ha2].
  apply andb_true_iff in Hs as [Hs1 Hs2].
  apply negb_true_iff in Ha2, Hs2. apply Z.leb_le in Ha1.
  exists r, w, n, f. split_and; auto.
  - apply py_getitem_of_get; [exact Hr|]. intros ->. discriminate.
  - apply py_getitem_of_get; [exact Hw|]. intros ->. discriminate.
  - now apply float_not_below_zero.
Qed.

Lemma sql_insert_set_succeeds (eid k n : Z) (f : float) (d : db) :
  sqlite_integer n = true -> 1 <= n -> is_nan f = false ->
  float_leb pos_zero f = true -> has_exercise d eid = true ->
  exists d', sql_insert_set eid k n f d = Ok d'.
Proof.
  intros Hn H1 Hnan Hf He. unfold sql_insert_set, bind_integer, bind_real.
  rewrite Hn, Hnan. cbn [bind].
  apply Z.leb_le in H1. rewrite H1, Hf, He. simpl. eauto.
Qed.

Lemma insert_sets_succeeds (eid : Z) (sl : list value) :
  forall (k : Z) (d : db),
    db_inv d -> has_exercise d eid = true ->
    forallb accepted_set sl = true -> forallb storable_set sl = true ->
    exists d', insert_sets eid k sl d = Ok d'.
Proof.
  induction sl as [|s sl IH]; intros k d Hinv He Ha Hs; simpl; eauto.
  simpl in Ha, Hs.
  apply andb_true_iff in Ha as [Ha Hal].
  apply andb_true_iff in Hs as [Hs Hsl].
  destruct (accepted_set_parts s Ha Hs)
    as (r & w & n & f & Hr & Hn & Hw & Hf & Hi & H1 & Hnan & Hle).
  rewrite Hr. cbn [bind]. rewrite Hn. cbn [bind].
  rewrite Hw. cbn [bind]. rewrite Hf. cbn [bind].
  destruct (sql_insert_set_succeeds eid k n f d Hi H1 Hnan Hle He)
    as [d1 Hd1].
  rewrite Hd1. cbn [bind].
  destruct (sql_insert_set_inv _ _ _ _ _ _ Hinv Hd1)
    as (Hinv1 & _ & Ee & _).
  apply IH; auto. unfold has_exercise in *. now rewrite Ee.
Qed.

Lemma accepted_exercise_parts (ex : value) :
  accepted_exercise ex = true -> storable_exercise ex = true ->
  exists nm sl,
    py_getitem ex "name" = Ok nm
    /\ py_getitem ex "sets" = Ok (VList sl)
    /\ forallb accepted_set sl = true /\ forallb storable_set sl = true.
Proof.
  destruct ex as [| | | | | |ed]; try discriminate.
  unfold accepted_exercise, storable_exercise.
  destruct (py_get_dict ed "name") as [nm Hnm].
  destruct (py_get_dict ed "sets") as [sv Hsv].
  rewrite Hnm, Hsv.
  destruct sv as [| | | | |sl|]; try discriminate.
  destruct sl as [|s sl]; [discriminate|].
  intros Ha Hs. apply andb_true_iff in Ha as [Hname Ha].
  exists nm, (s :: sl). split_and; auto.
  - apply py_getitem_of_get; [exact Hnm|].
    intros ->. simpl in Hname. discriminate.
  - apply py_getitem_of_get; [exact Hsv|]. discriminate.
Qed.

Lemma insert_exercises_succeeds (wid : Z) (l : list value) :
  forall (k : Z) (d : db),
    db_inv d -> has_workout d wid = true ->
    forallb accepted_exercise l = true ->
    forallb storable_exercise l = true ->
    exists d', insert_exercises wid k l d = Ok d'.
Proof.
  induction l as [|ex l IH]; intros k d Hinv Hw Ha Hs; simpl; eauto.
  simpl in Ha, Hs.
  apply andb_true_iff in Ha as [Ha Hal].
  apply andb_true_iff in Hs as [Hs Hsl].
  destruct (accepted_exercise_parts ex Ha Hs)
    as (nm & sl & Hnm & Hsets & Hasl & Hssl).
  rewrite Hnm. cbn [bind].
  destruct (sql_insert_exercise wid (strip (py_str nm)) k d)
    as [[d1 eid]|e] eqn:Hd1.
  2:{ unfold sql_insert_exercise in Hd1. rewrite Hw in Hd1. discriminate. }
  cbn [bind]. rewrite Hsets. cbn [bind py_iter].
  destruct (sql_insert_exercise_inv _ _ _ _ _ _ Hinv Hd1)
    as (Hinv1 & Eid & Ew1 & Ee1 & _).
  assert (He : has_exercise d1 eid = true).
  { erewrite has_exercise_snoc by exact Ee1. simpl.
    rewrite Z.eqb_refl. apply orb_true_r. }
  destruct (insert_sets_succeeds eid sl 1 d1 Hinv1 He Hasl Hssl)
    as [d2 Hd2].
  rewrite Hd2. cbn [bind].
  destruct (insert_sets_shape _ _ _ _ _ Hinv1 Hd2) as (Hinv2 & Ew2 & _).
  apply IH; auto. unfold has_workout in *. now rewrite Ew2, Ew1.
Qed.

Lemma storable_title_param (t : value) :
  storable_title t = true ->
  exists s, py_strip (py_or t (VStr EmptyString)) = Ok s.
Proof.
  unfold py_or. destruct t; simpl; intros H;
    try (apply negb_true_iff in H; rewrite H; simpl; eauto; fail);
    try discriminate; eauto.
  destruct (negb (is_empty s)); simpl; eauto.
Qed.

(** The parts of a payload that is accepted and can be stored. *)
Lemma accepted_payload_parts (payload : value) :
  accepted payload = true -> storable payload = true ->
  exists wdv wd title l,
    py_getitem payload "workout_date" = Ok wdv
    /\ _parse_iso_date wdv = Some wd
    /\ title_param payload = Ok title
    /\ py_getitem payload "exercises" = Ok (VList l)
    /\ forallb accepted_exercise l = true
    /\ forallb storable_exercise l = true.
Proof.
  unfold accepted, storable, title_param.
  destruct payload as [| | | | | |pd]; try discriminate.
  destruct (py_get_dict pd "workout_date") as [wdv Hwd].
  destruct (py_get_dict pd "exercises") as [exs Hexs].
  destruct (py_get_dict pd "title") as [t Ht].
  rewrite Hwd, Hexs, Ht. cbn [bind].
  destruct exs as [| | | | |l|]; try discriminate.
  destruct l as [|ex l]; [discriminate|].
  intros Ha Hs.
  apply andb_true_iff in Ha as [Hdate Ha].
  apply andb_true_iff in Hs as [Htitle Hs].
  apply negb_true_iff in Hdate.
  destruct (_parse_iso_date wdv) as [wd|] eqn:Hparse; [|discriminate].
  destruct (storable_title_param t Htitle) as [s Hstrip].
  exists wdv, wd, (if is_empty s then None else Some s), (ex :: l).
  split_and; auto.
  - apply py_getitem_of_get; [exact Hwd|]. intros ->. discriminate.
  - now rewrite Hstrip.
  - apply py_getitem_of_get; [exact Hexs|]. discriminate.
Qed.

Lemma create_workout_succeeds (now : string) (d : db) (payload : value) :
  db_inv d -> accepted payload = true -> storable payload = true ->
  exists d' id, create_workout now d payload = (d', Ok id).
Proof.
  intros Hinv Ha Hs.
  destruct (accepted_payload_parts payload Ha Hs)
    as (wdv & wd & title & l & Hwdv & Hwd & Htitle & Hexs & Hal & Hsl).
  unfold create_workout.
  rewrite Hwdv. cbn [bind]. rewrite Htitle. cbn [bind]. rewrite Hwd.
  destruct (sql_insert_workout (Some wd) title now now d)
    as [[d1 wid]|e] eqn:Hd1; [|discriminate].
  cbn [bind]. rewrite Hexs. cbn [bind py_iter].
  destruct (sql_insert_workout_inv _ _ _ _ _ _ _ Hinv Hd1)
    as (Hinv1 & _ & Hhas & _).
  destruct (insert_exercises_succeeds wid l 1 d1 Hinv1 Hhas Hal Hsl)
    as [d2 Hd2].
  rewrite Hd2. cbn [bind transaction]. eauto.
Qed.

Lemma update_workout_succeeds (now : string) (d : db) (id : Z)
  (payload : value) :
  db_inv d -> has_workout d id = true ->
  accepted payload = true -> storable payload = true ->
  exists d', update_workout now d id payload = (d', Ok true).
Proof.
  intros Hinv Hhas Ha Hs.
  destruct (accepted_payload_parts payload Ha Hs)
    as (wdv & wd & title & l & Hwdv & Hwd & Htitle & Hexs & Hal & Hsl).
  unfold update_workout. rewrite Hhas. cbn [negb].
  rewrite Hwdv. cbn [bind]. rewrite Htitle. cbn [bind]. rewrite Hwd.
  destruct (sql_update_workout (Some wd) title now id d) as [d1|e] eqn:Hd1;
    [|discriminate].
  cbn [bind]. rewrite Hexs. cbn [bind py_iter].
  destruct (sql_update_workout_inv _ _ _ _ _ _ Hinv Hd1)
    as (Hinv1 & Ew1 & _).
  destruct (sql_delete_exercises_inv id d1 Hinv1) as (Hinv2 & _).
  assert (Hhas2 : has_workout (sql_delete_exercises id d1) id = true).
  { apply has_workout_iff in Hhas as (w & Hw & Hid).
    assert (Hin : In id (map w_id (workouts d1))).
    { rewrite Ew1. apply in_map_iff. eauto. }
    apply in_map_iff in Hin as (w1 & Hid1 & Hw1).
    apply has_workout_iff. exists w1. auto. }
  destruct (insert_exercises_succeeds id l 1 _ Hinv2 Hhas2 Hal Hsl)
    as [d3 Hd3].
  rewrite Hd3. cbn [bind transaction]. eauto.
Qed.

(* ================================================================== *)
(** * Titles, numbers and listed rows *)







Lemma validate_accepts (payload : value) :
  validate_workout_payload payload = Ok [] -> accepted payload = true.
Proof.
  destruct payload; try discriminate. apply validate_nil_iff.
Qed.

(* ================================================================== *)
(** * The embedding on examples *)

Example int_of_numeric_string : py_int (VStr " 1_000 ") = Ok 1000.
Proof. reflexivity. Qed.

Example int_of_decimal_string : py_int (VStr "5.0") = Raise ValueError.
Proof. reflexivity. Qed.

Example int_of_5_9 : py_int (VFloat float_5_9) = Ok 5.
Proof. reflexivity. Qed.

Example int_of_minus_5_9 :
  py_int (VFloat (SFopp float_5_9)) = Ok (-5).
Proof. reflexivity. Qed.

Example int_of_infinity :
  py_int (VFloat (S754_infinity false)) = Raise OverflowError.
Proof. reflexivity. Qed.

Example int_of_nan : py_int (VFloat S754_nan) = Raise ValueError.
Proof. reflexivity. Qed.

Example float_of_5_9 : py_float (VStr "5.9") = Ok float_5_9.
Proof. vm_compute. reflexivity. Qed.

Example float_of_225 :
  py_float (VInt 225) = Ok (S754_finite false 7916483719987200 (-45)).
Proof. vm_compute. reflexivity. Qed.

Example float_of_nan : py_float (VStr "nan") = Ok S754_nan.
Proof. vm_compute. reflexivity. Qed.

Example float_of_huge_int :
  py_float (VInt (10 ^ 400)) = Raise OverflowError.
Proof. vm_compute. reflexivity. Qed.

Example repr_of_5_9 : py_str (VFloat float_5_9) = "5.9".
Proof. vm_compute. reflexivity. Qed.

Example repr_of_list :
  py_str (VList [VInt 1; VStr "a"; VNone]) = "[1, 'a', None]".
Proof. vm_compute. reflexivity. Qed.

Example date_without_padding :
  _parse_iso_date (VStr " 2024-1-5 ") = Some "2024-01-05".
Proof. vm_compute. reflexivity. Qed.

Example date_not_in_calendar : _parse_iso_date (VStr "2023-02-29") = None.
Proof. vm_compute. reflexivity. Qed.

Example date_with_time : _parse_iso_date (VStr "2024-01-15T10:00") = None.
Proof. vm_compute. reflexivity. Qed.

Example payloads_well_formed :
  forallb wf_value [squat_payload; bench_payload; numeric_title_payload;
                    infinite_reps_payload; malformed_payload]
  = true.
Proof. vm_compute. reflexivity. Qed.

(** The scenario of the specification: one exercise named Squat with
    [sort_order] 1 and one set with [set_number] 1, 5 repetitions and the
    weight 225.0. *)
Example squat_scenario :
  let d := fst (create_workout a_time (init_db None) squat_payload) in
  get_workout d 1
  = Some {| wv_id := 1; wv_workout_date := "2024-01-15";
            wv_title := "Leg Day"; wv_created_at := a_time;
            wv_updated_at := a_time;
            wv_exercises :=
              [{| ev_id := 1; ev_name := "Squat"; ev_sort_order := 1;
                  ev_sets :=
                    [{| sv_id := 1; sv_set_number := 1; sv_reps := 5;
                        sv_weight :=
                          S754_finite false 7916483719987200 (-45) |}] |}]
         |}.
Proof. vm_compute. reflexivity. Qed.

(** The messages of a payload with several defects, in the order of the
    checks. *)
Example malformed_messages :
  validate_workout_payload malformed_payload
  = Ok ["Workout date is required (YYYY-MM-DD).";
        "Exercise #1 is invalid.";
        "Exercise #2: name is required.";
        "Exercise '2' set #1: reps must be >= 1.";
        "Exercise '2' set #1: weight must be >= 0.";
        "Exercise '2' set #2 is invalid."].
Proof. vm_compute. reflexivity. Qed.

(** Payloads the validator accepts and the store refuses: a weight that is
    not a number is bound as NULL, and [2^63] repetitions do not fit an
    integer of the store. *)
Example nan_weight_not_stored :
  validate_workout_payload nan_weight_payload = Ok []
  /\ create_workout a_time (init_db None) nan_weight_payload
     = (init_db None, Raise IntegrityError).
Proof. split; vm_compute; reflexivity. Qed.

Example huge_reps_not_stored :
  validate_workout_payload huge_reps_payload = Ok []
  /\ create_workout a_time (init_db None) huge_reps_payload
     = (init_db None, Raise OverflowError).
Proof. split; vm_compute; reflexivity. Qed.

(** A weight that is an integer past the floats makes the validator
    raise. *)
Example huge_weight_raises :
  validate_workout_payload huge_weight_payload = Raise OverflowError.
Proof. vm_compute. reflexivity. Qed.

(* ================================================================== *)
(** * The properties of the specification *)

(** C1, as amended.  Round trip: for every payload [P] that the validator
    accepts and that can be stored (a title that is a string or counts as
    false, repetitions that coerce below [2^63], weights that do not coerce
    to NaN), [create_workout] returns an identity, the next one of the
    store, and [get_workout] of it returns a tree with that identity, both
    timestamps equal to the time of the call and the date of [P] in ISO
    form, whose exercises are those of [P] in order with [sort_order]
    1, 2, ... and whose sets are those of each exercise in order with
    [set_number] 1, 2, ..., with the coerced numbers (a weight of negative
    zero reads back as zero) and identities given out by this call. *)
Theorem create_get_roundtrip (now : string) (d : db) (payload : value) :
  reachable d ->
  validate_workout_payload payload = Ok [] ->
  storable payload = true ->
  exists d' id v,
    create_workout now d payload = (d', Ok id)
    /\ get_workout d' id = Some v
    /\ wv_id v = id /\ id = seq_workouts d + 1
    /\ wv_created_at v = now /\ wv_updated_at v = now
    /\ (exists wdv, py_getitem payload "workout_date" = Ok wdv
                    /\ _parse_iso_date wdv = Some (wv_workout_date v))
    /\ tree_matches payload v
    /\ fresh_ids d v.
Proof.
  intros Hr Hv Hs. apply reachable_inv in Hr. apply validate_accepts in Hv.
  destruct (create_workout_succeeds now d payload Hr Hv Hs) as (d' & id & Hc).
  destruct (create_workout_returns _ _ _ _ _ Hr Hc)
    as (_ & Hid & wdv & wd & title & views & Hwdv & Hwd & _ & _ & Hget
        & Hmatch & Hfresh).
  eexists d', id, _. split_and; try exact Hget; try reflexivity; auto.
  exists wdv. auto.
Qed.

Lemma create_get_roundtrip_witness :
  reachable (init_db None)
  /\ validate_workout_payload squat_payload = Ok []
  /\ storable squat_payload = true
  /\ exists d' id v,
       create_workout a_time (init_db None) squat_payload = (d', Ok id)
       /\ get_workout d' id = Some v
       /\ tree_matches squat_payload v.
Proof.
  split; [exact reach_init|].
  split; [vm_compute; reflexivity|].
  split; [vm_compute; reflexivity|].
  destruct (create_get_roundtrip a_time (init_db None) squat_payload)
    as (d' & id & v & Hc & Hg & _ & _ & _ & _ & _ & Hm & _);
    [exact reach_init|vm_compute; reflexivity|vm_compute; reflexivity|].
  exists d', id, v. auto.
Defined.

(** C1 as stated fails: the validator accepts the squat payload with the
    title [5], and [create_workout] raises [AttributeError] on it. *)
Lemma numeric_title_not_stored :
  ~ (validate_workout_payload numeric_title_payload = Ok [] ->
     exists d' id v,
       create_workout a_time (init_db None) numeric_title_payload
       = (d', Ok id)
       /\ get_workout d' id = Some v
       /\ tree_matches numeric_title_payload v).
Proof.
  intros H. destruct H as (d' & id & v & Hc & _).
  - vm_compute. reflexivity.
  - vm_compute in Hc. discriminate Hc.
Qed.

(** C2, at its failing input.  The payload holds a set with zero
    repetitions, after a set whose repetitions are the float infinity; the
    validator raises [OverflowError] and returns no error list. *)
Theorem validate_raises_overflow :
  validate_workout_payload infinite_reps_payload = Raise OverflowError.
Proof.
  vm_compute. reflexivity.
Qed.

(** C3.  Update replaces: in a reachable state, when [update_workout] of
    [id] with an accepted payload [P2] returns true, [get_workout] of [id]
    returns a tree whose exercises and sets are those of [P2], in order and
    numbered from one, with identities given out by this call; no exercise
    row the workout had before is left, and no set row of such an
    exercise. *)
Theorem update_replaces (now : string) (d d' : db) (id : Z) (p2 : value) :
  reachable d ->
  validate_workout_payload p2 = Ok [] ->
  update_workout now d id p2 = (d', Ok true) ->
  exists v,
    get_workout d' id = Some v
    /\ tree_matches p2 v
    /\ fresh_ids d v
    /\ forall e, In e (exercises d) -> e_workout_id e = id ->
         ~ In e (exercises d')
         /\ forall s, In s (sets d) -> s_exercise_id s = e_id e ->
              ~ In s (sets d').
Proof.
  intros Hr _ Hu. apply reachable_inv in Hr.
  destruct (update_workout_returns _ _ _ _ _ Hr Hu)
    as (_ & w0 & wdv & wd & title & views & _ & _ & _ & _ & _ & Hget
        & Hmatch & Hfresh & Hnew & Hgone).
  eexists. split_and; try exact Hget; auto.
  intros e He Hw. split.
  - intros Hin. specialize (Hnew e Hin Hw).
    destruct Hr as [_ _ Ie _ _ _].
    pose proof (ids_ok_bound e_id _ _ e Ie He). lia.
  - intros s _ Heq Hin. exact (Hgone e s He Hw Hin Heq).
Qed.

Lemma update_replaces_witness :
  let d := fst (create_workout a_time (init_db None) bench_payload) in
  let d' := fst (update_workout a_later_time d 1 squat_payload) in
  reachable d
  /\ validate_workout_payload squat_payload = Ok []
  /\ update_workout a_later_time d 1 squat_payload = (d', Ok true)
  /\ exists v,
       get_workout d' 1 = Some v
       /\ tree_matches squat_payload v
       /\ List.length (wv_exercises v) = 1%nat.
Proof.
  intros d d'.
  assert (Hr : reachable d) by (apply reach_create, reach_init).
  split; [exact Hr|].
  split; [vm_compute; reflexivity|].
  split; [vm_compute; reflexivity|].
  destruct (update_replaces a_later_time d d' 1 squat_payload)
    as (v & Hg & Hm & _); [exact Hr|vm_compute; reflexivity
                           |vm_compute; reflexivity|].
  exists v. split_and; auto.
  destruct Hm as (l & (exs & Hexs & Hl) & Hn).
  vm_compute in Hexs. injection Hexs as <-.
  vm_compute in Hl. injection Hl as <-.
  apply numbered_length in Hn. now rewrite <- Hn.
Defined.

(** C4, as amended.  For every dictionary payload in which no set has
    repetitions that are an infinite float or a weight that is an integer
    past the floats, and no exercise a name that [str] may fail to write
    (an integer of more than 4300 digits, a list or a dictionary that is
    not empty), whatever else is missing or of a wrong type, the validator
    returns a list of error strings and raises nothing; for a payload that
    is not a dictionary it raises [AttributeError].  (The validator is a
    function of the payload alone: it has no state to change.) *)
Theorem validate_returns_for_dicts (payload : value) :
  numbers_in_range payload = true ->
  names_print payload = true ->
  match payload with
  | VDict _ => exists errs, validate_workout_payload payload = Ok errs
  | _ => validate_workout_payload payload = Raise AttributeError
  end.
Proof.
  intros Hn _. destruct payload as [| | | | | |d]; try reflexivity.
  now apply validate_returns.
Qed.

Lemma validate_returns_for_dicts_witness :
  numbers_in_range malformed_payload = true
  /\ names_print malformed_payload = true
  /\ exists errs, validate_workout_payload malformed_payload = Ok errs.
Proof.
  split; [vm_compute; reflexivity|].
  split; [vm_compute; reflexivity|].
  apply (validate_returns_for_dicts malformed_payload);
    vm_compute; reflexivity.
Defined.

(** C4 as stated fails: on a payload that is a list the validator raises
    [AttributeError]. *)
Lemma validate_raises_on_list :
  ~ (exists errs, validate_workout_payload (VList []) = Ok errs).
Proof.
  intros [errs H]. vm_compute in H. discriminate H.
Qed.

(** C5, as amended.  Update of an identity that is not in the store
    writes nothing: for every integer that has no workout, whatever the
    payload, the state is the one the call was given; the call returns
    false when the integer is of 64 bits, as every row id is, and raises
    [OverflowError] when it is not, since it cannot be bound to the
    statement that looks for the workout. *)
Theorem update_missing_is_noop (now : string) (d : db) (id : Z)
  (payload : value) :
  has_workout d id = false ->
  update_workout_bound now d id payload
  = (d, if sqlite_integer id then Ok false else Raise OverflowError).
Proof.
  intros H. unfold update_workout_bound, bind_integer.
  destruct (sqlite_integer id); [|reflexivity].
  unfold update_workout. rewrite H. reflexivity.
Qed.

Lemma update_missing_is_noop_witness :
  has_workout (init_db None) 999 = false
  /\ update_workout_bound a_time (init_db None) 999 squat_payload
     = (init_db None, Ok false).
Proof.
  split; [reflexivity|].
  exact (update_missing_is_noop a_time (init_db None) 999 squat_payload
           eq_refl).
Defined.

(** C5 as stated fails: [2^63] has no workout in the empty store, and the
    update of it with a valid payload raises [OverflowError] where the
    claim has it return false. *)
Lemma update_out_of_range_raises :
  has_workout (init_db None) (2 ^ 63) = false
  /\ validate_workout_payload squat_payload = Ok []
  /\ update_workout_bound a_time (init_db None) (2 ^ 63) squat_payload
     = (init_db None, Raise OverflowError).
Proof.
  split; [reflexivity|]. split; vm_compute; reflexivity.
Qed.

(** C6.  In every reachable state each exercise row has its workout row
    and each set row its exercise row; and when [delete_workout] of [id]
    returns true, [get_workout] of [id] finds nothing, no exercise row
    refers to [id], no set row refers to an exercise that [id] had, and
    again no row is left without its parent. *)
Theorem delete_cascade_no_orphans (d : db) :
  reachable d ->
  no_orphans d
  /\ forall id d',
       delete_workout d id = (d', Ok true) ->
       get_workout d' id = None
       /\ (forall e, In e (exercises d') -> e_workout_id e <> id)
       /\ (forall e s, In e (exercises d) -> e_workout_id e = id ->
                       In s (sets d') -> s_exercise_id s <> e_id e)
       /\ no_orphans d'.
Proof.
  intros Hr. apply reachable_inv in Hr. split; [apply Hr|].
  intros id d' Hd. apply delete_workout_returns in Hd as [-> _].
  destruct (sql_delete_workout_inv id d Hr) as [Hinv' Hno].
  destruct (sql_delete_exercises_inv id d Hr) as [_ Hnone].
  split_and.
  - unfold get_workout. now rewrite (no_workout_find _ _ Hno).
  - exact Hnone.
  - intros e s He Hw Hs Heq. simpl in Hs.
    apply cascade_sets_in in Hs as [_ Hgone].
    apply (Hgone e); [|congruence].
    apply filter_In. split; [exact He|]. now apply Z.eqb_eq.
  - apply Hinv'.
Qed.

Lemma delete_cascade_no_orphans_witness :
  let d := fst (create_workout a_time (init_db None) bench_payload) in
  let d' := fst (delete_workout d 1) in
  reachable d
  /\ delete_workout d 1 = (d', Ok true)
  /\ no_orphans d
  /\ get_workout d' 1 = None
  /\ exercises d' = [] /\ sets d' = [].
Proof.
  intros d d'.
  assert (Hr : reachable d) by (apply reach_create, reach_init).
  assert (Hd : delete_workout d 1 = (d', Ok true))
    by (vm_compute; reflexivity).
  destruct (delete_cascade_no_orphans d Hr) as [Hno Hdel].
  destruct (Hdel 1 d' Hd) as (Hget & _).
  split_and; auto; vm_compute; reflexivity.
Defined.

(** C7.  In every reachable state [list_workouts] returns the summaries
    of the stored workouts, one for each, every earlier row having a later
    date than every later row or the same date and a higher identity; a
    workout without exercises has its row, with both counts zero. *)
Theorem list_workouts_order_and_inclusion (d : db) :
  reachable d ->
  Permutation (list_workouts d) (map (summary_of d) (workouts d))
  /\ NoDup (map sm_id (list_workouts d))
  /\ StronglySorted listed_before (list_workouts d)
  /\ forall w, In w (workouts d) -> exercises_of d w = [] ->
       exists s, In s (list_workouts d) /\ sm_id s = w_id w
                 /\ sm_exercise_count s = 0 /\ sm_set_count s = 0.
Proof.
  intros Hr. apply reachable_inv in Hr.
  assert (Hp : Permutation (list_workouts d)
                 (map (summary_of d) (workouts d))).
  { rewrite (list_workouts_spec d Hr). apply order_by_perm. }
  split_and.
  - exact Hp.
  - apply (Permutation_NoDup (l := map w_id (workouts d))).
    + rewrite Hp, map_map. reflexivity.
    + apply Hr.
  - apply list_workouts_sorted.
  - intros w Hw Hnone. exists (summary_of d w). split_and.
    + apply (Permutation_in _ (Permutation_sym Hp)). now apply in_map.
    + reflexivity.
    + unfold summary_of. simpl. now rewrite Hnone.
    + unfold summary_of. simpl. now rewrite Hnone.
Qed.

Lemma list_workouts_order_and_inclusion_witness :
  let d1 := fst (create_workout a_time (init_db None) squat_payload) in
  let d2 := fst (create_workout a_time d1 bare_payload) in
  let d3 := fst (create_workout a_later_time d2 squat_payload) in
  reachable d3
  /\ map (fun s => (sm_id s, sm_workout_date s, sm_exercise_count s,
                    sm_set_count s)) (list_workouts d3)
     = [(2, "2024-01-17", 0, 0); (3, "2024-01-15", 1, 1);
        (1, "2024-01-15", 1, 1)]
  /\ StronglySorted listed_before (list_workouts d3).
Proof.
  intros d1 d2 d3.
  assert (Hr : reachable d3)
    by (apply reach_create, reach_create, reach_create, reach_init).
  split; [exact Hr|]. split; [vm_compute; reflexivity|].
  apply (list_workouts_order_and_inclusion d3 Hr).
Defined.

(** C8, as amended.  For every dictionary payload whose [exercises] is
    missing, not a list or empty, the validator returns right after the
    date check, with the error of the date check, if there is one,
    followed by the one error that an exercise is required, and checks no
    exercise and no set: one error when the date is valid, two when it is
    not. *)
Theorem empty_exercises_short_circuit (d : list (string * value)) :
  has_exercises (VDict d) = false ->
  validate_workout_payload (VDict d)
  = Ok (date_errors (VDict d) ++ [msg_no_exercise])
  /\ (date_errors (VDict d) = [] \/ date_errors (VDict d) = [msg_date]).
Proof.
  intros H. split; [now apply validate_without_exercises|].
  unfold date_errors. destruct (py_get_dict d "workout_date") as [wd ->].
  destruct (no_date (_parse_iso_date wd)); auto.
Qed.

Lemma empty_exercises_short_circuit_witness :
  has_exercises no_exercise_payload = false
  /\ validate_workout_payload no_exercise_payload
     = Ok ["At least one exercise is required."].
Proof.
  split; [reflexivity|].
  destruct (empty_exercises_short_circuit
              [("workout_date", VStr "2024-01-15"); ("exercises", VList [])])
    as [H _]; [reflexivity|].
  exact H.
Defined.

(** C8 as stated fails: without a date and with no exercise the validator
    returns two errors, not one. *)
Lemma two_errors_without_date :
  ~ (exists e, validate_workout_payload no_date_payload = Ok [e]).
Proof.
  intros [e H]. vm_compute in H. discriminate H.
Qed.





(* ================================================================== *)
(** * One workout among the others *)

Lemma filter_filter_sub {A : Type} (p q : A -> bool) (l : list A) :
  (forall x, In x l -> p x = true -> q x = true) ->
  filter p (filter q l) = filter p l.
Proof.
  induction l as [|x l IH]; intros H; simpl; [reflexivity|].
  destruct (q x) eqn:Hq; simpl.
  - destruct (p x); rewrite IH; auto; intros y Hy; apply H; now right.
  - destruct (p x) eqn:Hp.
    + rewrite (H x (or_introl eq_refl) Hp) in Hq. discriminate.
    + apply IH. intros y Hy. apply H. now right.
Qed.

Lemma same_tree_refl (d : db) (id : Z) : same_tree d d id.
Proof. unfold same_tree. auto. Qed.

Lemma same_tree_trans (d1 d2 d3 : db) (id : Z) :
  same_tree d1 d2 id -> same_tree d2 d3 id -> same_tree d1 d3 id.
Proof.
  intros (W1 & E1 & S1) (W2 & E2 & S2). unfold same_tree. split_and.
  - congruence.
  - congruence.
  - intros e He Hid. rewrite <- (S1 e He Hid). apply S2; [|exact Hid].
    assert (Hin : In e (filter (fun e => e_workout_id e =? id) (exercises d1))).
    { apply filter_In. split; [exact He|]. now apply Z.eqb_eq. }
    rewrite <- E1 in Hin. now apply filter_In in Hin.
Qed.

(** The tree of a workout is read from its own rows. *)
Lemma get_workout_same_tree (d d' : db) (id : Z) :
  same_tree d d' id -> get_workout d' id = get_workout d id.
Proof.
  intros (W & E & S). unfold get_workout. rewrite W.
  destruct (find _ (workouts d)) as [w|]; [|reflexivity].
  f_equal. f_equal. unfold exercises_rows. rewrite E.
  apply map_ext_in. intros e He. apply order_by_in in He.
  apply filter_In in He as [He Hid]. apply Z.eqb_eq in Hid.
  unfold exercise_view_of, sets_rows. now rewrite (S e He Hid).
Qed.

(** And so is its row of the listing. *)
Lemma summary_of_same_tree (d d' : db) (w : workout_row) :
  same_tree d d' (w_id w) -> summary_of d' w = summary_of d w.
Proof.
  intros (_ & E & S). unfold summary_of, exercises_of. rewrite E.
  f_equal. f_equal. f_equal. apply flat_map_ext_in.
  intros e He. apply filter_In in He as [He Hid]. apply Z.eqb_eq in Hid.
  unfold sets_of. now apply S.
Qed.

Lemma find_app_none (l1 l2 : list workout_row) (id : Z) :
  (forall w, In w l2 -> w_id w <> id) ->
  find (fun w => w_id w =? id) (l1 ++ l2) = find (fun w => w_id w =? id) l1.
Proof.
  intros H. induction l1 as [|x l1 IH]; simpl.
  - destruct (find _ l2) as [w|] eqn:F; [|reflexivity].
    apply find_some in F as [Hin Heq]. apply Z.eqb_eq in Heq.
    now destruct (H w Hin).
  - now rewrite IH.
Qed.

Lemma adds_for_same_tree (wid c : Z) (d d' : db) (id : Z) :
  db_inv d -> seq_exercises d <= c -> adds_for wid c d d' -> id <> wid ->
  same_tree d d' id.
Proof.
  intros Hinv Hc (W & _ & _ & _ & es & ss & E & S & Hes & Hss) Hne.
  rewrite Forall_forall in Hes, Hss.
  unfold same_tree. split_and.
  - now rewrite W.
  - rewrite E, filter_app, (filter_none _ es); [apply app_nil_r|].
    intros e He. apply Z.eqb_neq. destruct (Hes e He). congruence.
  - intros e He _. rewrite S, filter_app, (filter_none _ ss);
      [apply app_nil_r|].
    intros s Hs. apply Z.eqb_neq. specialize (Hss s Hs).
    destruct Hinv as [_ _ Ie _ _ _].
    pose proof (ids_ok_bound e_id _ _ e Ie He). lia.
Qed.

Lemma insert_exercises_adds (wid : Z) (l : list value) (k : Z) (d d' : db) :
  db_inv d -> 1 <= k -> insert_exercises wid k l d = Ok d' ->
  adds_for wid (seq_exercises d) d d'.
Proof.
  intros Hinv Hk H.
  destruct (insert_exercises_shape _ _ _ _ _ Hinv H)
    as (_ & Ew & Sw & Se & Ss & blocks & Eb & Esb & Hn & _).
  pose proof (numbered_block_facts _ _ _ _ _ Hn) as Hfacts.
  rewrite Forall_forall in Hfacts.
  unfold adds_for. split_and; auto.
  exists (map fst blocks), (flat_map snd blocks). split_and; auto.
  - rewrite Forall_forall. intros e He.
    apply in_map_iff in He as (b & <- & Hb).
    destruct (Hfacts b Hb) as (Hge & Hid & Hw & _). split; [exact Hw|lia].
  - rewrite Forall_forall. intros s Hs.
    apply in_flat_map in Hs as (b & Hb & Hs).
    destruct (Hfacts b Hb) as (Hge & Hid & _ & Hown & _).
    rewrite Forall_forall in Hown. rewrite (Hown s Hs). lia.
Qed.

Lemma sql_insert_workout_same_tree (wd title : option string) (c u : string)
  (d d' : db) (id id0 : Z) :
  sql_insert_workout wd title c u d = Ok (d', id) -> id0 <> id ->
  same_tree d d' id0.
Proof.
  unfold sql_insert_workout. destruct wd as [s|]; [|discriminate].
  intros [= <- <-] Hne. unfold same_tree. simpl. split_and; auto.
  apply find_app_none. intros w [<-|[]]. simpl. congruence.
Qed.

Lemma find_map_other (f : workout_row -> workout_row) (id : Z)
  (l : list workout_row) :
  (forall w, w_id (f w) = w_id w) ->
  (forall w, w_id w = id -> f w = w) ->
  find (fun w => w_id w =? id) (map f l) = find (fun w => w_id w =? id) l.
Proof.
  intros Hid Hf. rewrite find_map_ids by exact Hid.
  destruct (find _ l) as [w|] eqn:F; [|reflexivity].
  apply find_some in F as [_ Heq]. apply Z.eqb_eq in Heq.
  simpl. now rewrite Hf.
Qed.

Lemma sql_update_workout_same_tree (wd title : option string) (u : string)
  (id : Z) (d d' : db) (id0 : Z) :
  sql_update_workout wd title u id d = Ok d' -> id0 <> id ->
  same_tree d d' id0.
Proof.
  unfold sql_update_workout. intros H Hne. destruct wd as [s|].
  - injection H as <-. unfold same_tree. simpl. split_and; auto.
    apply find_map_other.
    + intros w. now destruct (w_id w =? id).
    + intros w Hw. destruct (w_id w =? id) eqn:Heq; [|reflexivity].
      apply Z.eqb_eq in Heq. congruence.
  - destruct (has_workout d id); [discriminate|].
    injection H as <-. apply same_tree_refl.
Qed.

Lemma sql_delete_exercises_same_tree (id : Z) (d : db) (id0 : Z) :
  db_inv d -> id0 <> id -> same_tree d (sql_delete_exercises id d) id0.
Proof.
  intros Hinv Hne. unfold same_tree, sql_delete_exercises. simpl. split_and.
  - reflexivity.
  - apply filter_filter_sub. intros e _ He. apply Z.eqb_eq in He.
    apply negb_true_iff, Z.eqb_neq. congruence.
  - intros e He Hid. unfold cascade_sets. apply filter_filter_sub.
    intros s _ Hs. apply Z.eqb_eq in Hs.
    apply negb_true_iff. apply not_true_is_false. intros Hex.
    apply existsb_exists in Hex as (e' & He' & Heq).
    apply filter_In in He' as [He' Hw']. apply Z.eqb_eq in Heq, Hw'.
    destruct Hinv as [_ _ Ie _ _ _].
    assert (e' = e) by (apply (ids_ok_inj e_id _ _ e' e Ie); congruence).
    subst e'. congruence.
Qed.

Lemma find_filter_other (l : list workout_row) (id id0 : Z) :
  id0 <> id ->
  find (fun w => w_id w =? id0) (filter (fun w => negb (w_id w =? id)) l)
  = find (fun w => w_id w =? id0) l.
Proof.
  intros Hne. induction l as [|w l IH]; simpl; [reflexivity|].
  destruct (w_id w =? id) eqn:Heq; simpl.
  - apply Z.eqb_eq in Heq.
    destruct (w_id w =? id0) eqn:Heq0; [|exact IH].
    apply Z.eqb_eq in Heq0. congruence.
  - now rewrite IH.
Qed.

Lemma sql_delete_workout_same_tree (id : Z) (d : db) (id0 : Z) :
  db_inv d -> id0 <> id -> same_tree d (fst (sql_delete_workout id d)) id0.
Proof.
  intros Hinv Hne.
  eapply same_tree_trans; [apply (sql_delete_exercises_same_tree id); eauto|].
  unfold same_tree, sql_delete_workout. simpl. split_and; auto.
  now apply find_filter_other.
Qed.

Lemma adds_for_refl (wid c : Z) (d : db) : adds_for wid c d d.
Proof.
  unfold adds_for. split_and; auto; try lia.
  exists [], []. now rewrite !app_nil_r.
Qed.

Lemma adds_for_trans (wid c : Z) (d1 d2 d3 : db) :
  adds_for wid c d1 d2 -> adds_for wid c d2 d3 -> adds_for wid c d1 d3.
Proof.
  intros (W1 & Q1 & L1 & M1 & es1 & ss1 & E1 & S1 & He1 & Hs1)
         (W2 & Q2 & L2 & M2 & es2 & ss2 & E2 & S2 & He2 & Hs2).
  unfold adds_for. split_and; try congruence; try lia.
  exists (es1 ++ es2), (ss1 ++ ss2). split_and.
  - now rewrite E2, E1, app_assoc.
  - now rewrite S2, S1, app_assoc.
  - now apply Forall_app.
  - now apply Forall_app.
Qed.

(** The steps of a [create_workout] that returns. *)
Lemma create_workout_steps (now : string) (d d' : db) (payload : value)
  (id : Z) :
  create_workout now d payload = (d', Ok id) ->
  exists wdv title d1 l,
    py_getitem payload "workout_date" = Ok wdv
    /\ title_param payload = Ok title
    /\ sql_insert_workout (_parse_iso_date wdv) title now now d = Ok (d1, id)
    /\ payload_exercises payload l
    /\ insert_exercises id 1 l d1 = Ok d'.
Proof.
  intros H. unfold create_workout, transaction in H.
  match type of H with
  | match ?body with _ => _ end = _ => destruct body as [[d2 id']|e] eqn:Hb
  end; [|discriminate].
  injection H as -> ->.
  apply bind_ok in Hb as (wdv & Hwdv & Hb).
  apply bind_ok in Hb as (title & Htitle & Hb).
  apply bind_ok in Hb as ([d1 wid] & Hd1 & Hb).
  apply bind_ok in Hb as (exs & Hexs & Hb).
  apply bind_ok in Hb as (l & Hl & Hb).
  apply bind_ok in Hb as (d3 & Hd3 & Hb).
  injection Hb as -> ->.
  exists wdv, title, d1, l. split_and; auto. exists exs. auto.
Qed.

(** The steps of an [update_workout] that returns true. *)
Lemma update_workout_steps (now : string) (d d' : db) (id : Z)
  (payload : value) :
  update_workout now d id payload = (d', Ok true) ->
  has_workout d id = true
  /\ exists wdv title d1 l,
       py_getitem payload "workout_date" = Ok wdv
       /\ title_param payload = Ok title
       /\ sql_update_workout (_parse_iso_date wdv) title now id d = Ok d1
       /\ payload_exercises payload l
       /\ insert_exercises id 1 l (sql_delete_exercises id d1) = Ok d'.
Proof.
  intros H. unfold update_workout, transaction in H.
  match type of H with
  | match ?body with _ => _ end = _ => destruct body as [[d3 b]|e] eqn:Hb
  end; [|discriminate].
  injection H as -> ->.
  destruct (has_workout d id) eqn:Hhas; [|discriminate]. cbn [negb] in Hb.
  apply bind_ok in Hb as (wdv & Hwdv & Hb).
  apply bind_ok in Hb as (title & Htitle & Hb).
  apply bind_ok in Hb as (d1 & Hd1 & Hb).
  apply bind_ok in Hb as (exs & Hexs & Hb).
  apply bind_ok in Hb as (l & Hl & Hb).
  apply bind_ok in Hb as (d3 & Hd3 & Hb).
  injection Hb as ->.
  split; [reflexivity|].
  exists wdv, title, d1, l. split_and; auto. exists exs. auto.
Qed.

(** An [update_workout] that does not return true leaves the state as it
    was. *)
Lemma update_workout_not_true (now : string) (d d' : db) (id : Z)
  (payload : value) (r : result bool) :
  update_workout now d id payload = (d', r) -> r <> Ok true -> d' = d.
Proof.
  intros H Hr. destruct r as [[|]|e].
  - now destruct Hr.
  - unfold update_workout, transaction in H.
    destruct (has_workout d id); cbn [negb] in H.
    + match type of H with
      | match ?body with _ => _ end = _ =>
          destruct body as [[d3 b]|e] eqn:Hb
      end; [|discriminate].
      repeat (apply bind_ok in Hb as (? & ? & Hb)). congruence.
    + now injection H as <-.
  - now apply transaction_raise in H.
Qed.

Lemma create_workout_same_tree (now : string) (d d' : db) (payload : value)
  (id id0 : Z) :
  db_inv d -> create_workout now d payload = (d', Ok id) -> id0 <> id ->
  same_tree d d' id0.
Proof.
  intros Hinv H Hne.
  apply create_workout_steps in H as (wdv & title & d1 & l & _ & _ & H1 & _ & H2).
  destruct (sql_insert_workout_inv _ _ _ _ _ _ _ Hinv H1) as (Hinv1 & _).
  eapply same_tree_trans.
  - eapply sql_insert_workout_same_tree; eauto.
  - eapply adds_for_same_tree; [exact Hinv1| |eapply insert_exercises_adds; eauto; lia|exact Hne].
    lia.
Qed.

Lemma update_workout_same_tree (now : string) (d d' : db) (payload : value)
  (id id0 : Z) (r : result bool) :
  db_inv d -> update_workout now d id payload = (d', r) -> id0 <> id ->
  same_tree d d' id0.
Proof.
  intros Hinv H Hne.
  assert (Hr : r = Ok true \/ r <> Ok true).
  { destruct r as [[|]|e]; auto; right; discriminate. }
  destruct Hr as [->|Hr].
  - apply update_workout_steps in H
      as (_ & wdv & title & d1 & l & _ & _ & H1 & _ & H2).
    destruct (sql_update_workout_inv _ _ _ _ _ _ Hinv H1) as (Hinv1 & _).
    destruct (sql_delete_exercises_inv id d1 Hinv1) as (Hinv2 & _).
    eapply same_tree_trans; [eapply sql_update_workout_same_tree; eauto|].
    eapply same_tree_trans;
      [apply (sql_delete_exercises_same_tree id); eauto|].
    eapply adds_for_same_tree;
      [exact Hinv2| |eapply insert_exercises_adds; eauto; lia|exact Hne].
    lia.
  - rewrite (update_workout_not_true _ _ _ _ _ _ H Hr). apply same_tree_refl.
Qed.

Lemma delete_workout_same_tree (d d' : db) (id id0 : Z) (r : result bool) :
  db_inv d -> delete_workout d id = (d', r) -> id0 <> id ->
  same_tree d d' id0.
Proof.
  intros Hinv H Hne. apply delete_workout_returns in H as [-> _].
  now apply sql_delete_workout_same_tree.
Qed.

(** ** The rows of the demo data *)

Lemma seed_sets_adds (wid c ex_id : Z) (sets_ : list (Z * float)) :
  forall (k : Z) (d d' : db),
    db_inv d -> c < ex_id -> seed_sets ex_id k sets_ d = Ok d' ->
    adds_for wid c d d'.
Proof.
  induction sets_ as [|[reps weight] rest IH]; intros k d d' Hinv Hc; simpl.
  - intros [= <-]. apply adds_for_refl.
  - intros H. apply bind_ok in H as (d1 & Hd1 & H).
    assert (Hr : exists r, bind_integer reps = Ok r).
    { unfold sql_insert_set in Hd1.
      destruct (bind_integer reps) as [r|]; [eauto|discriminate]. }
    destruct Hr as (r & Hr).
    assert (r = reps).
    { unfold bind_integer in Hr. destruct (sqlite_integer reps);
        congruence. }
    subst r.
    destruct (sql_insert_set_inv _ _ _ _ _ _ Hinv Hd1)
      as (Hinv1 & W & E & S & Qw & Qe & Qs).
    eapply adds_for_trans; [|eapply IH; [exact Hinv1|exact Hc|exact H]].
    unfold adds_for. split_and; auto; try lia.
    exists [], [{| s_id := seq_sets d + 1; s_exercise_id := ex_id;
                   s_set_number := k; s_reps := reps;
                   s_weight := stored_real weight |}].
    split_and; auto; now rewrite app_nil_r.
Qed.

Lemma seed_exercises_adds (wid c : Z)
  (exs : list (string * list (Z * float))) :
  forall (k : Z) (d d' : db),
    db_inv d -> c <= seq_exercises d -> seed_exercises wid k exs d = Ok d' ->
    adds_for wid c d d'.
Proof.
  induction exs as [|[name sets_] rest IH]; intros k d d' Hinv Hc; simpl.
  - intros [= <-]. apply adds_for_refl.
  - intros H. apply bind_ok in H as ([d1 ex_id] & Hd1 & H).
    apply bind_ok in H as (d2 & Hd2 & H).
    destruct (sql_insert_exercise_inv _ _ _ _ _ _ Hinv Hd1)
      as (Hinv1 & Eid & W & E & S & Qw & Qe & Qs).
    pose proof (seed_sets_inv _ _ _ _ _ Hinv1 Hd2) as Hinv2.
    assert (A2 : adds_for wid c d1 d2).
    { eapply seed_sets_adds; eauto. lia. }
    assert (A1 : adds_for wid c d d1).
    { unfold adds_for. split_and; auto; try lia.
      exists [{| e_id := ex_id; e_workout_id := wid; e_name := name;
                 e_sort_order := k |}], [].
      split_and; auto; try (now rewrite app_nil_r);
        repeat constructor; simpl; lia. }
    eapply adds_for_trans; [exact A1|].
    eapply adds_for_trans; [exact A2|].
    eapply IH; [exact Hinv2| |exact H].
    destruct A2 as (_ & _ & L & _). lia.
Qed.

Lemma sql_insert_workout_seq (wd title : option string) (c u : string)
  (d d' : db) (id : Z) :
  sql_insert_workout wd title c u d = Ok (d', id) ->
  seq_workouts d' = seq_workouts d + 1
  /\ List.length (workouts d') = S (List.length (workouts d)).
Proof.
  unfold sql_insert_workout. destruct wd; [|discriminate].
  intros [= <- _]. simpl. split; [reflexivity|].
  rewrite length_app. simpl. lia.
Qed.

(** The rounds of [seed_sample_data]: each adds one workout, and the trees
    of the workouts there were are left as they are. *)
Lemma seed_workouts_adds (drawn : list seeded_workout) :
  forall (created : Z) (d d' : db) (n : Z),
    db_inv d -> seed_workouts drawn created d = Ok (d', n) ->
    n = created + Z.of_nat (List.length drawn)
    /\ seq_workouts d' = seq_workouts d + Z.of_nat (List.length drawn)
    /\ List.length (workouts d')
       = (List.length (workouts d) + List.length drawn)%nat
    /\ forall id0, id0 <= seq_workouts d -> same_tree d d' id0.
Proof.
  induction drawn as [|w rest IH]; intros created d d' n Hinv;
    cbn [seed_workouts].
  - intros [= <- <-]. simpl. split_and; try lia.
    intros id0 _. apply same_tree_refl.
  - intros H. apply bind_ok in H as ([d1 wid] & Hd1 & H).
    apply bind_ok in H as (d2 & Hd2 & H).
    destruct (sql_insert_workout_inv _ _ _ _ _ _ _ Hinv Hd1)
      as (Hinv1 & Eid & _).
    destruct (sql_insert_workout_seq _ _ _ _ _ _ _ Hd1) as (Q1 & L1).
    pose proof (seed_exercises_inv _ _ _ _ _ Hinv1 Hd2) as Hinv2.
    pose proof (seed_exercises_adds wid (seq_exercises d1) _ _ _ _
                  Hinv1 (Z.le_refl _) Hd2) as A.
    destruct (IH _ _ _ _ Hinv2 H) as (En & Q & L & F).
    destruct A as (W2 & Q2 & A').
    assert (A : adds_for wid (seq_exercises d1) d1 d2)
      by (unfold adds_for; auto).
    cbn [List.length]. split_and; try lia.
    + rewrite L, W2, L1. lia.
    + intros id0 Hid0.
      eapply same_tree_trans;
        [eapply sql_insert_workout_same_tree; eauto; lia|].
      eapply same_tree_trans;
        [eapply adds_for_same_tree; [exact Hinv1| |exact A|]; lia|].
      apply F. lia.
Qed.

(** ** The last identity given out *)

Lemma create_workout_seq (now : string) (d d' : db) (payload : value)
  (id : Z) :
  db_inv d -> create_workout now d payload = (d', Ok id) ->
  seq_workouts d' = id /\ id = seq_workouts d + 1.
Proof.
  intros Hinv H.
  apply create_workout_steps in H as (wdv & title & d1 & l & _ & _ & H1 & _ & H2).
  destruct (sql_insert_workout_inv _ _ _ _ _ _ _ Hinv H1) as (Hinv1 & Eid & _).
  destruct (sql_insert_workout_seq _ _ _ _ _ _ _ H1) as (Q1 & _).
  destruct (insert_exercises_shape _ _ _ _ _ Hinv1 H2) as (_ & _ & Q2 & _).
  lia.
Qed.

Lemma step_reachable (d d' : db) : reachable d -> step d d' -> reachable d'.
Proof.
  intros Hr H. destruct H.
  - now apply reach_create.
  - now apply reach_update.
  - now apply reach_delete.
  - now apply reach_seed.
Qed.

Lemma later_reachable (d d' : db) : reachable d -> later d d' -> reachable d'.
Proof.
  intros Hr H. induction H as [|d1 d2 _ IH Hs]; [exact Hr|].
  eapply step_reachable; eauto.
Qed.

(** No operation lowers the last identity given out to a workout. *)
Lemma step_seq_workouts (d d' : db) :
  db_inv d -> step d d' -> seq_workouts d <= seq_workouts d'.
Proof.
  intros Hinv H. destruct H.
  - destruct (create_workout now d payload) as [d' [id|e]] eqn:H; simpl.
    + destruct (create_workout_seq _ _ _ _ _ Hinv H). lia.
    + apply transaction_raise in H. subst. lia.
  - destruct (update_workout now d id payload) as [d' r] eqn:H; simpl.
    assert (Hr : r = Ok true \/ r <> Ok true).
    { destruct r as [[|]|e]; auto; right; discriminate. }
    destruct Hr as [->|Hr].
    + apply update_workout_steps in H
        as (_ & wdv & title & d1 & l & _ & _ & H1 & _ & H2).
      destruct (sql_update_workout_inv _ _ _ _ _ _ Hinv H1)
        as (Hinv1 & _ & _ & _ & Q1 & _).
      destruct (sql_delete_exercises_inv id d1 Hinv1) as (Hinv2 & _).
      destruct (insert_exercises_shape _ _ _ _ _ Hinv2 H2)
        as (_ & _ & Q2 & _).
      simpl in Q2. lia.
    + rewrite (update_workout_not_true _ _ _ _ _ _ H Hr). lia.
  - simpl. lia.
  - unfold seed_sample_data, transaction.
    destruct (seed_workouts drawn 0 d) as [[d' n]|e] eqn:H; simpl; [|lia].
    destruct (seed_workouts_adds _ _ _ _ _ Hinv H) as (_ & Q & _). lia.
Qed.

Lemma later_seq_workouts (d d' : db) :
  reachable d -> later d d' -> seq_workouts d <= seq_workouts d'.
Proof.
  intros Hr H. induction H as [|d1 d2 Hl IH Hs]; [lia|].
  pose proof (step_seq_workouts d1 d2
                (reachable_inv _ (later_reachable _ _ Hr Hl)) Hs).
  lia.
Qed.

(** Deleting what is not there changes nothing. *)
Lemma sql_delete_workout_missing (id : Z) (d : db) :
  db_inv d -> has_workout d id = false -> fst (sql_delete_workout id d) = d.
Proof.
  intros Hinv Hno.
  assert (Hw : forall w, In w (workouts d) -> w_id w <> id).
  { intros w Hw Heq.
    assert (has_workout d id = true) by (apply has_workout_iff; eauto).
    congruence. }
  assert (He : forall e, In e (exercises d) -> e_workout_id e <> id).
  { intros e He Heq. destruct Hinv as [_ _ _ _ [Ho _] _].
    rewrite Forall_forall in Ho. specialize (Ho e He). congruence. }
  assert (Hgone : filter (fun e => e_workout_id e =? id) (exercises d) = []).
  { apply filter_none. intros e Hin. apply Z.eqb_neq. auto. }
  unfold sql_delete_workout, sql_delete_exercises, cascade_sets.
  rewrite Hgone. simpl. rewrite !filter_all.
  - now destruct d.
  - reflexivity.
  - intros e Hin. apply negb_true_iff, Z.eqb_neq. auto.
  - intros w Hin. apply negb_true_iff, Z.eqb_neq. auto.
Qed.

(* ================================================================== *)
(** * The listing and the trees *)

Section OrderByFilter.
Context {A : Type} (le : A -> A -> bool) (p : A -> bool).

Hypothesis le_total : forall a b, le a b = true \/ le b a = true.
Hypothesis le_trans :
  forall a b c, le a b = true -> le b c = true -> le a c = true.

Lemma insert_sorted_head (x : A) (l : list A) :
  Forall (fun y => le x y = true) l -> insert_sorted le x l = x :: l.
Proof.
  intros H. destruct l as [|y l]; [reflexivity|]. simpl.
  now rewrite (Forall_inv H).
Qed.

Lemma filter_insert_sorted (x : A) (l : list A) :
  StronglySorted (fun a b => le a b = true) l ->
  filter p (insert_sorted le x l)
  = if p x then insert_sorted le x (filter p l) else filter p l.
Proof.
  induction 1 as [|y l Hs IH Hy]; simpl.
  - now destruct (p x).
  - destruct (le x y) eqn:Hxy; simpl.
    + destruct (p x); [|reflexivity].
      rewrite insert_sorted_head; [reflexivity|].
      assert (Hall : Forall (fun z => le x z = true) (y :: l)).
      { constructor; [exact Hxy|].
        eapply Forall_impl; [|exact Hy]. intros z Hz. eauto. }
      rewrite Forall_forall in *. intros z Hz.
      apply Hall. change (In z (filter p (y :: l))) in Hz.
      now apply filter_In in Hz.
    + rewrite IH. destruct (p y), (p x); simpl; try reflexivity.
      now rewrite Hxy.
Qed.

(** [ORDER BY] of the rows that pass a test is what passes the test of
    the ordered rows. *)
Lemma order_by_filter (l : list A) :
  order_by le (filter p l) = filter p (order_by le l).
Proof.
  induction l as [|x l IH]; simpl; [reflexivity|].
  rewrite filter_insert_sorted by (apply order_by_sorted; assumption).
  destruct (p x); simpl; now rewrite IH.
Qed.

End OrderByFilter.

Lemma map_filter_key {A B : Type} (f : A -> B) (p : A -> bool)
  (q : B -> bool) (l : list A) :
  (forall x, q (f x) = p x) -> map f (filter p l) = filter q (map f l).
Proof.
  intros H. induction l as [|x l IH]; simpl; [reflexivity|].
  rewrite H. destruct (p x); simpl; now rewrite IH.
Qed.

Lemma length_flat_map_ext {A B C : Type} (f : A -> list B) (g : A -> list C)
  (l : list A) :
  (forall x, In x l -> List.length (f x) = List.length (g x)) ->
  List.length (flat_map f l) = List.length (flat_map g l).
Proof.
  induction l as [|x l IH]; intros H; simpl; [reflexivity|].
  rewrite !length_app, IH, (H x); auto.
  - now left.
  - intros y Hy. apply H. now right.
Qed.

(** The row with the identity [id] is the one [find] returns. *)
Lemma find_own (d : db) (w : workout_row) :
  db_inv d -> In w (workouts d) ->
  find (fun w' => w_id w' =? w_id w) (workouts d) = Some w.
Proof.
  intros Hinv Hin.
  destruct (find _ (workouts d)) as [w'|] eqn:F.
  - apply find_some in F as [Hin' Heq]. apply Z.eqb_eq in Heq.
    destruct Hinv as [_ Iw _ _ _ _].
    f_equal. now apply (ids_ok_inj w_id _ _ w' w Iw).
  - pose proof (find_none _ _ F w Hin) as Hn. simpl in Hn.
    now rewrite Z.eqb_refl in Hn.
Qed.

(** The counts of a row of the listing are those of the tree. *)
Lemma summary_counts (d : db) (w : workout_row) :
  sm_exercise_count (summary_of d w)
  = Z.of_nat (List.length
                (map (exercise_view_of d) (exercises_rows d (w_id w))))
  /\ sm_set_count (summary_of d w)
     = Z.of_nat (List.length
                   (flat_map ev_sets
                      (map (exercise_view_of d)
                         (exercises_rows d (w_id w))))).
Proof.
  unfold summary_of, exercises_rows, exercises_of. simpl. split; f_equal.
  - rewrite length_map. symmetry. apply Permutation_length, order_by_perm.
  - rewrite flat_map_map.
    rewrite (Permutation_length
               (Permutation_flat_map _ (order_by_perm exercise_le _))).
    apply length_flat_map_ext. intros e _.
    unfold exercise_view_of, sets_rows, sets_of. simpl.
    rewrite length_map. symmetry. apply Permutation_length, order_by_perm.
Qed.

(* ================================================================== *)
(** * Rows numbered from one *)

Lemma counts_from_snoc (l : list Z) :
  forall k, counts_from k l ->
            counts_from k (l ++ [k + Z.of_nat (List.length l)]).
Proof.
  induction l as [|x l IH]; intros k; simpl.
  - intros _. split; [lia|exact I].
  - intros [-> H]. split; [reflexivity|].
    replace (k + Z.pos (Pos.of_succ_nat (List.length l)))
      with (k + 1 + Z.of_nat (List.length l)) by lia.
    now apply IH.
Qed.

Lemma counts_from_sorted {A : Type} (key : A -> Z) (le : A -> A -> bool)
  (l : list A) :
  (forall x y, key x < key y -> le x y = true) ->
  forall k, counts_from k (map key l) ->
    Forall (fun x => k <= key x) l
    /\ StronglySorted (fun a b => le a b = true) l.
Proof.
  intros Hle. induction l as [|x l IH]; intros k; simpl.
  - intros _. split; constructor.
  - intros [Hx H]. destruct (IH _ H) as [Hall Hs]. split.
    + constructor; [lia|]. eapply Forall_impl; [|exact Hall].
      intros y Hy. simpl in Hy. lia.
    + constructor; [exact Hs|]. eapply Forall_impl; [|exact Hall].
      intros y Hy. simpl in Hy. apply Hle. lia.
Qed.

Lemma filter_filter_none {A : Type} (p q : A -> bool) (l : list A) :
  (forall x, In x l -> p x = true -> q x = false) ->
  filter p (filter q l) = [].
Proof.
  intros H. apply filter_none. intros x Hx.
  apply filter_In in Hx as [Hx Hq].
  destruct (p x) eqn:Hp; [|reflexivity].
  rewrite (H x Hx Hp) in Hq. discriminate.
Qed.

Lemma filter_snoc {A : Type} (p : A -> bool) (l : list A) (x : A) :
  filter p (l ++ [x]) = filter p l ++ (if p x then [x] else []).
Proof. rewrite filter_app. simpl. now destruct (p x). Qed.

Lemma sql_insert_set_dense (eid k reps : Z) (weight : float) (d d' : db) :
  db_inv d -> dense d -> k = set_count d eid + 1 ->
  sql_insert_set eid k reps weight d = Ok d' ->
  dense d' /\ set_count d' eid = k
  /\ forall wid, exercise_count d' wid = exercise_count d wid.
Proof.
  intros Hinv [De Ds] Hk H.
  destruct (sql_insert_set_inv _ _ _ _ _ _ Hinv H)
    as (_ & _ & E & S & _).
  unfold dense, set_count, exercise_count. rewrite E, S. split_and.
  - exact De.
  - intros eid'. rewrite filter_snoc. cbn [s_exercise_id].
    destruct (eid =? eid') eqn:Heq.
    + apply Z.eqb_eq in Heq. subst eid'.
      rewrite map_app. cbn [map s_set_number].
      replace k with (1 + Z.of_nat (List.length
                        (map s_set_number
                           (filter (fun s => s_exercise_id s =? eid)
                              (sets d))))).
      * apply counts_from_snoc, Ds.
      * rewrite length_map. unfold set_count in Hk. lia.
    + rewrite app_nil_r. apply Ds.
  - rewrite filter_snoc. cbn [s_exercise_id]. rewrite Z.eqb_refl.
    rewrite length_app. unfold set_count in Hk. simpl. lia.
  - reflexivity.
Qed.

Lemma sql_insert_exercise_dense (wid : Z) (name : string) (k : Z)
  (d d' : db) (id : Z) :
  db_inv d -> dense d -> k = exercise_count d wid + 1 ->
  sql_insert_exercise wid name k d = Ok (d', id) ->
  dense d' /\ exercise_count d' wid = k /\ set_count d' id = 0.
Proof.
  intros Hinv [De Ds] Hk H.
  destruct (sql_insert_exercise_inv _ _ _ _ _ _ Hinv H)
    as (_ & Eid & _ & E & S & _).
  unfold dense, set_count, exercise_count. rewrite E, S. split_and.
  - intros wid'. rewrite filter_snoc. cbn [e_workout_id].
    destruct (wid =? wid') eqn:Heq.
    + apply Z.eqb_eq in Heq. subst wid'.
      rewrite map_app. cbn [map e_sort_order].
      replace k with (1 + Z.of_nat (List.length
                        (map e_sort_order
                           (filter (fun e => e_workout_id e =? wid)
                              (exercises d))))).
      * apply counts_from_snoc, De.
      * rewrite length_map. unfold exercise_count in Hk. lia.
    + rewrite app_nil_r. apply De.
  - exact Ds.
  - rewrite filter_snoc. cbn [e_workout_id]. rewrite Z.eqb_refl.
    rewrite length_app. unfold exercise_count in Hk. simpl. lia.
  - rewrite filter_none; [reflexivity|].
    intros s Hs. apply Z.eqb_neq.
    pose proof (sets_reference_old d s Hinv Hs). lia.
Qed.

Lemma insert_sets_dense (eid : Z) (sl : list value) :
  forall (k : Z) (d d' : db),
    db_inv d -> dense d -> k = set_count d eid + 1 ->
    insert_sets eid k sl d = Ok d' ->
    dense d' /\ forall wid, exercise_count d' wid = exercise_count d wid.
Proof.
  induction sl as [|s sl IH]; intros k d d' Hinv Hd Hk; simpl.
  - intros [= <-]. auto.
  - intros H. apply bind_ok in H as (reps & _ & H).
    apply bind_ok in H as (r & _ & H).
    apply bind_ok in H as (weight & _ & H).
    apply bind_ok in H as (w & _ & H).
    apply bind_ok in H as (d1 & Hd1 & H).
    destruct (sql_insert_set_dense _ _ _ _ _ _ Hinv Hd Hk Hd1)
      as (Hd' & Hc & He).
    destruct (sql_insert_set_inv _ _ _ _ _ _ Hinv Hd1) as (Hinv1 & _).
    assert (Hk1 : k + 1 = set_count d1 eid + 1) by lia.
    destruct (IH _ _ _ Hinv1 Hd' Hk1 H) as (Hd2 & He2).
    split; [exact Hd2|]. intros wid. now rewrite He2.
Qed.

Lemma insert_exercises_dense (wid : Z) (l : list value) :
  forall (k : Z) (d d' : db),
    db_inv d -> dense d -> k = exercise_count d wid + 1 ->
    insert_exercises wid k l d = Ok d' -> dense d'.
Proof.
  induction l as [|ex l IH]; intros k d d' Hinv Hd Hk; simpl.
  - now intros [= <-].
  - intros H. apply bind_ok in H as (nm & _ & H).
    apply bind_ok in H as ([d1 eid] & Hd1 & H).
    apply bind_ok in H as (sets_ & _ & H).
    apply bind_ok in H as (sl & _ & H).
    apply bind_ok in H as (d2 & Hd2 & H).
    destruct (sql_insert_exercise_dense _ _ _ _ _ _ Hinv Hd Hk Hd1)
      as (Hd' & Hc & Hs).
    destruct (sql_insert_exercise_inv _ _ _ _ _ _ Hinv Hd1) as (Hinv1 & _).
    assert (Hk1 : 1 = set_count d1 eid + 1) by lia.
    destruct (insert_sets_dense _ _ _ _ _ Hinv1 Hd' Hk1 Hd2)
      as (Hd'' & He).
    destruct (insert_sets_shape _ _ _ _ _ Hinv1 Hd2) as (Hinv2 & _).
    apply (IH (k + 1) _ _ Hinv2 Hd''); [|exact H]. rewrite He. lia.
Qed.

Lemma seed_sets_dense (eid : Z) (sets_ : list (Z * float)) :
  forall (k : Z) (d d' : db),
    db_inv d -> dense d -> k = set_count d eid + 1 ->
    seed_sets eid k sets_ d = Ok d' ->
    dense d' /\ forall wid, exercise_count d' wid = exercise_count d wid.
Proof.
  induction sets_ as [|[reps weight] rest IH]; intros k d d' Hinv Hd Hk;
    simpl.
  - intros [= <-]. auto.
  - intros H. apply bind_ok in H as (d1 & Hd1 & H).
    destruct (sql_insert_set_dense _ _ _ _ _ _ Hinv Hd Hk Hd1)
      as (Hd' & Hc & He).
    destruct (sql_insert_set_inv _ _ _ _ _ _ Hinv Hd1) as (Hinv1 & _).
    assert (Hk1 : k + 1 = set_count d1 eid + 1) by lia.
    destruct (IH _ _ _ Hinv1 Hd' Hk1 H) as (Hd2 & He2).
    split; [exact Hd2|]. intros wid. now rewrite He2.
Qed.

Lemma seed_exercises_dense (wid : Z)
  (exs : list (string * list (Z * float))) :
  forall (k : Z) (d d' : db),
    db_inv d -> dense d -> k = exercise_count d wid + 1 ->
    seed_exercises wid k exs d = Ok d' -> dense d'.
Proof.
  induction exs as [|[name sets_] rest IH]; intros k d d' Hinv Hd Hk; simpl.
  - now intros [= <-].
  - intros H. apply bind_ok in H as ([d1 eid] & Hd1 & H).
    apply bind_ok in H as (d2 & Hd2 & H).
    destruct (sql_insert_exercise_dense _ _ _ _ _ _ Hinv Hd Hk Hd1)
      as (Hd' & Hc & Hs).
    destruct (sql_insert_exercise_inv _ _ _ _ _ _ Hinv Hd1) as (Hinv1 & _).
    assert (Hk1 : 1 = set_count d1 eid + 1) by lia.
    destruct (seed_sets_dense _ _ _ _ _ Hinv1 Hd' Hk1 Hd2)
      as (Hd'' & He).
    pose proof (seed_sets_inv _ _ _ _ _ Hinv1 Hd2) as Hinv2.
    apply (IH (k + 1) _ _ Hinv2 Hd''); [|exact H]. rewrite He. lia.
Qed.

Lemma sql_insert_workout_dense (wd title : option string) (c u : string)
  (d d' : db) (id : Z) :
  db_inv d -> dense d ->
  sql_insert_workout wd title c u d = Ok (d', id) ->
  dense d' /\ exercise_count d' id = 0.
Proof.
  intros Hinv Hd H.
  destruct (sql_insert_workout_inv _ _ _ _ _ _ _ Hinv H)
    as (_ & Eid & _ & E & S & _).
  unfold dense, exercise_count. rewrite E, S. split; [exact Hd|].
  rewrite filter_none; [reflexivity|].
  intros e He. apply Z.eqb_neq.
  pose proof (exercises_reference_old d e Hinv He). lia.
Qed.

Lemma sql_delete_exercises_dense (id : Z) (d : db) :
  dense d ->
  dense (sql_delete_exercises id d)
  /\ exercise_count (sql_delete_exercises id d) id = 0.
Proof.
  intros [De Ds]. unfold dense, exercise_count, sql_delete_exercises.
  cbn [exercises sets]. split_and.
  - intros wid. destruct (wid =? id) eqn:Heq.
    + apply Z.eqb_eq in Heq. subst wid.
      rewrite filter_filter_none; [exact I|].
      intros e _ He. now rewrite He.
    + rewrite filter_filter_sub; [apply De|].
      intros e _ He. apply Z.eqb_eq in He. apply Z.eqb_neq in Heq.
      apply negb_true_iff, Z.eqb_neq. congruence.
  - intros eid. unfold cascade_sets.
    set (gone := filter (fun e => e_workout_id e =? id) (exercises d)).
    destruct (existsb (fun e => e_id e =? eid) gone) eqn:Hex.
    + rewrite filter_filter_none; [exact I|].
      intros s _ Hs. apply Z.eqb_eq in Hs. rewrite Hs, Hex. reflexivity.
    + rewrite filter_filter_sub; [apply Ds|].
      intros s _ Hs. apply Z.eqb_eq in Hs. rewrite Hs, Hex. reflexivity.
  - rewrite filter_filter_none; [reflexivity|].
    intros e _ He. now rewrite He.
Qed.

Lemma create_workout_dense (now : string) (d : db) (payload : value) :
  db_inv d -> dense d -> dense (fst (create_workout now d payload)).
Proof.
  intros Hinv Hd.
  destruct (create_workout now d payload) as [d' [id|e]] eqn:H; simpl.
  - apply create_workout_steps in H
      as (wdv & title & d1 & l & _ & _ & H1 & _ & H2).
    destruct (sql_insert_workout_inv _ _ _ _ _ _ _ Hinv H1) as (Hinv1 & _).
    destruct (sql_insert_workout_dense _ _ _ _ _ _ _ Hinv Hd H1)
      as (Hd1 & Hc).
    assert (Hk : 1 = exercise_count d1 id + 1) by lia.
    apply (insert_exercises_dense _ _ _ _ _ Hinv1 Hd1 Hk H2).
  - apply transaction_raise in H. now subst.
Qed.

Lemma update_workout_dense (now : string) (d : db) (id : Z)
  (payload : value) :
  db_inv d -> dense d -> dense (fst (update_workout now d id payload)).
Proof.
  intros Hinv Hd.
  destruct (update_workout now d id payload) as [d' r] eqn:H; simpl.
  assert (Hr : r = Ok true \/ r <> Ok true).
  { destruct r as [[|]|e]; auto; right; discriminate. }
  destruct Hr as [->|Hr].
  - apply update_workout_steps in H
      as (_ & wdv & title & d1 & l & _ & _ & H1 & _ & H2).
    destruct (sql_update_workout_inv _ _ _ _ _ _ Hinv H1)
      as (Hinv1 & _ & E1 & S1 & _).
    destruct (sql_delete_exercises_inv id d1 Hinv1) as (Hinv2 & _).
    assert (Hd1 : dense d1) by (unfold dense; now rewrite E1, S1).
    destruct (sql_delete_exercises_dense id d1 Hd1) as (Hd2 & Hc).
    assert (Hk : 1 = exercise_count (sql_delete_exercises id d1) id + 1)
      by lia.
    apply (insert_exercises_dense _ _ _ _ _ Hinv2 Hd2 Hk H2).
  - now rewrite (update_workout_not_true _ _ _ _ _ _ H Hr).
Qed.

Lemma delete_workout_dense (d : db) (id : Z) :
  dense d -> dense (fst (delete_workout d id)).
Proof.
  intros Hd. destruct (delete_workout d id) as [d' r] eqn:H.
  apply delete_workout_returns in H as [-> _].
  exact (proj1 (sql_delete_exercises_dense id d Hd)).
Qed.

Lemma seed_workouts_dense (drawn : list seeded_workout) :
  forall (created : Z) (d d' : db) (n : Z),
    db_inv d -> dense d -> seed_workouts drawn created d = Ok (d', n) ->
    dense d'.
Proof.
  induction drawn as [|w rest IH]; intros created d d' n Hinv Hd;
    cbn [seed_workouts].
  - now intros [= <- _].
  - intros H. apply bind_ok in H as ([d1 wid] & Hd1 & H).
    apply bind_ok in H as (d2 & Hd2 & H).
    destruct (sql_insert_workout_inv _ _ _ _ _ _ _ Hinv Hd1) as (Hinv1 & _).
    destruct (sql_insert_workout_dense _ _ _ _ _ _ _ Hinv Hd Hd1)
      as (Hd1' & Hc).
    pose proof (seed_exercises_inv _ _ _ _ _ Hinv1 Hd2) as Hinv2.
    assert (Hk : 1 = exercise_count d1 wid + 1) by lia.
    pose proof (seed_exercises_dense _ _ _ _ _ Hinv1 Hd1' Hk Hd2) as Hd2'.
    exact (IH _ _ _ _ Hinv2 Hd2' H).
Qed.

(** In every state the operations lead to, the rows are numbered from
    one. *)
Lemma reachable_dense (d : db) : reachable d -> dense d.
Proof.
  induction 1 as [|now d payload Hr IH|now d id payload Hr IH|d id Hr IH
                  |drawn d Hr IH].
  - split; intros; exact I.
  - apply create_workout_dense; [now apply reachable_inv|exact IH].
  - apply update_workout_dense; [now apply reachable_inv|exact IH].
  - now apply delete_workout_dense.
  - unfold seed_sample_data, transaction.
    destruct (seed_workouts drawn 0 d) as [[d' n]|e] eqn:H; simpl;
      [|exact IH].
    exact (seed_workouts_dense _ _ _ _ _ (reachable_inv _ Hr) IH H).
Qed.

(* ================================================================== *)
(** * The numbers the tables take *)

Lemma float_leb_not_nan (f : float) :
  float_leb pos_zero f = true -> is_nan f = false.
Proof. destruct f; simpl; auto; discriminate. Qed.

Lemma sql_insert_set_checks (eid k reps : Z) (weight : float) (d d' : db) :
  sql_insert_set eid k reps weight d = Ok d' ->
  1 <= reps < 2 ^ 63 /\ is_nan weight = false
  /\ float_leb pos_zero weight = true.
Proof.
  unfold sql_insert_set, bind_integer, bind_real.
  destruct (sqlite_integer reps) eqn:Hi; [|discriminate]. cbn [bind].
  destruct (is_nan weight) eqn:Hn; [discriminate|].
  destruct ((1 <=? reps) && float_leb pos_zero weight
            && has_exercise d eid) eqn:Hc; [|discriminate].
  intros _. apply andb_true_iff in Hc as [Hc _].
  apply andb_true_iff in Hc as [H1 H2].
  unfold sqlite_integer in Hi. apply andb_true_iff in Hi as [_ Hi].
  apply Z.leb_le in H1. apply Z.ltb_lt in Hi. auto.
Qed.

Lemma insert_sets_kept (eid : Z) (sl : list value) :
  forall (k : Z) (d d' : db),
    insert_sets eid k sl d = Ok d' -> Forall kept_set sl.
Proof.
  induction sl as [|s sl IH]; intros k d d'; simpl; [constructor|].
  intros H. apply bind_ok in H as (reps & Hreps & H).
  apply bind_ok in H as (r & Hr & H).
  apply bind_ok in H as (weight & Hweight & H).
  apply bind_ok in H as (w & Hw & H).
  apply bind_ok in H as (d1 & Hd1 & H).
  constructor; [|eapply IH; exact H].
  destruct (sql_insert_set_checks _ _ _ _ _ _ Hd1) as (H1 & H2 & H3).
  exists reps, weight, r, w. split_and; auto; lia.
Qed.

Lemma insert_exercises_kept (wid : Z) (l : list value) :
  forall (k : Z) (d d' : db),
    insert_exercises wid k l d = Ok d' -> Forall kept_exercise l.
Proof.
  induction l as [|ex l IH]; intros k d d'; simpl; [constructor|].
  intros H. apply bind_ok in H as (nm & _ & H).
  apply bind_ok in H as ([d1 eid] & Hd1 & H).
  apply bind_ok in H as (sets_ & Hsets & H).
  apply bind_ok in H as (sl & Hsl & H).
  apply bind_ok in H as (d2 & Hd2 & H).
  constructor; [|eapply IH; exact H].
  exists sl. split; [exists sets_; auto|].
  eapply insert_sets_kept; exact Hd2.
Qed.

Lemma payload_exercises_unique (payload : value) (l l' : list value) :
  payload_exercises payload l -> payload_exercises payload l' -> l = l'.
Proof. intros (v & H1 & H2) (v' & H1' & H2'). congruence. Qed.

(* ================================================================== *)
(** * Dates in ISO form *)

Lemma all_from_spec (n : nat) (p : Z -> bool) :
  forall lo, all_from n lo p = true ->
             forall z, lo <= z < lo + Z.of_nat n -> p z = true.
Proof.
  induction n as [|n IH]; intros lo H z Hz; [lia|].
  simpl in H. apply andb_true_iff in H as [H1 H2].
  destruct (Z.eq_dec z lo) as [->|Hne]; [exact H1|].
  apply (IH (lo + 1) H2). lia.
Qed.

Lemma all_between_spec (lo hi : Z) (p : Z -> bool) :
  all_between lo hi p = true -> forall z, lo <= z <= hi -> p z = true.
Proof.
  unfold all_between. intros H z Hz.
  apply (all_from_spec _ _ _ H). lia.
Qed.

Lemma years_written (y : Z) : 1 <= y <= 9999 -> year_written y = true.
Proof.
  apply all_between_spec. vm_compute. reflexivity.
Qed.

Lemma months_written (m : Z) : 1 <= m <= 12 -> month_written m = true.
Proof.
  apply all_between_spec. vm_compute. reflexivity.
Qed.

Lemma days_written (d : Z) : 1 <= d <= 31 -> day_written d = true.
Proof.
  apply all_between_spec. vm_compute. reflexivity.
Qed.

Lemma chars_append (a b : string) : chars (a +++ b) = chars a ++ chars b.
Proof.
  unfold chars. induction a as [|c a IH]; simpl; [reflexivity|].
  now rewrite IH.
Qed.

Lemma str_of_chars (s : string) : str_of (chars s) = s.
Proof. apply string_of_list_ascii_of_string. Qed.

Lemma chars_str_of (l : list ascii) : chars (str_of l) = l.
Proof. apply list_ascii_of_string_of_list_ascii. Qed.

Lemma digit_not_space (c : ascii) : is_digit c = true -> is_space c = false.
Proof.
  unfold is_digit, is_space, in_range. intros H.
  apply andb_true_iff in H as [H1 H2].
  apply Z.leb_le in H1. apply Z.leb_le in H2.
  repeat (apply orb_false_iff; split).
  - apply andb_false_iff. right. apply Z.leb_gt. lia.
  - apply andb_false_iff. right. apply Z.leb_gt. lia.
  - apply Z.eqb_neq. lia.
  - apply Z.eqb_neq. lia.
Qed.

Lemma days_in_month_le (y m : Z) : days_in_month y m <= 31.
Proof.
  unfold days_in_month.
  destruct (m =? 2); [destruct (is_leap y); lia|].
  destruct ((m =? 4) || (m =? 6) || (m =? 9) || (m =? 11)); lia.
Qed.

Lemma valid_date_bounds (y m d : Z) :
  valid_date y m d = true -> 1 <= y <= 9999 /\ 1 <= m <= 12 /\ 1 <= d <= 31.
Proof.
  unfold valid_date. intros H.
  repeat (apply andb_true_iff in H as [H ?]).
  pose proof (days_in_month_le y m).
  repeat match goal with
         | H : (_ <=? _) = true |- _ => apply Z.leb_le in H
         end.
  lia.
Qed.

(** The characters of a date in ISO form: digits that read back as the
    year, the month and the day, in the forms [%m] and [%d] try first. *)
Lemma isoformat_digits (y m d : Z) :
  valid_date y m d = true ->
  exists a b c e f g h i,
    chars (isoformat y m d) = [a; b; c; e; chr 45; f; g; chr 45; h; i]
    /\ Forall (fun x => is_digit x = true) [a; b; c; e; f; g; h; i]
    /\ digits_value [a; b; c; e] = y
    /\ digits_value [f; g] = m
    /\ digits_value [h; i] = d
    /\ (is_char 49 f && in_range 48 50 g)
       || (is_char 48 f && in_range 49 57 g) = true
    /\ (is_char 51 h && in_range 48 49 i)
       || (in_range 49 50 h && is_digit i)
       || (is_char 48 h && in_range 49 57 i) = true.
Proof.
  intros Hv. apply valid_date_bounds in Hv as (Hy & Hm & Hd).
  pose proof (years_written y Hy) as Yw.
  pose proof (months_written m Hm) as Mw.
  pose proof (days_written d Hd) as Dw.
  unfold year_written in Yw. unfold month_written in Mw.
  unfold day_written in Dw.
  unfold isoformat. rewrite !chars_append.
  destruct (chars (pad_left 4 (string_of_Z y)))
    as [|a [|b [|c [|e [|]]]]]; try discriminate.
  destruct (chars (pad_left 2 (string_of_Z m))) as [|f [|g [|]]];
    try discriminate.
  destruct (chars (pad_left 2 (string_of_Z d))) as [|h [|i [|]]];
    try discriminate.
  do 4 (apply andb_true_iff in Yw as [Yw ?]).
  do 3 (apply andb_true_iff in Mw as [Mw ?]).
  do 3 (apply andb_true_iff in Dw as [Dw ?]).
  repeat match goal with
         | H : (_ =? _) = true |- _ => apply Z.eqb_eq in H
         end.
  exists a, b, c, e, f, g, h, i. split_and; auto.
  repeat constructor; assumption.
Qed.

(** What the format reads of a date in ISO form. *)
Lemma isoformat_chars (y m d : Z) :
  valid_date y m d = true ->
  exists a b c e f g h i,
    chars (isoformat y m d) = [a; b; c; e; chr 45; f; g; chr 45; h; i]
    /\ is_digit a = true /\ is_digit i = true
    /\ match_ymd (chars (isoformat y m d)) = Some (y, m, d, []).
Proof.
  intros Hv.
  destruct (isoformat_digits y m d Hv)
    as (a & b & c & e & f & g & h & i & Hc & Hdig & Ey & Em & Ed & Hm & Hd).
  exists a, b, c, e, f, g, h, i. rewrite Hc.
  repeat match goal with
         | H : Forall _ (_ :: _) |- _ => inversion_clear H
         end.
  split_and; auto.
  unfold match_ymd, match_year.
  repeat match goal with
         | H : is_digit _ = true |- _ => rewrite H
         end.
  cbn [andb]. cbn [after_dash]. change (is_char 45 (chr 45)) with true.
  cbv iota. rewrite Ey.
  assert (Hday : exists tl, match_day [h; i] = (d, []) :: tl).
  { unfold match_day. rewrite Ed.
    destruct (is_char 51 h && in_range 48 49 i); [simpl; eauto|].
    destruct (in_range 49 50 h && is_digit i); [simpl; eauto|].
    destruct (is_char 48 h && in_range 49 57 i); [simpl; eauto|].
    discriminate. }
  destruct Hday as (tl & Hday).
  unfold match_month. rewrite Em.
  destruct (is_char 49 f && in_range 48 50 g).
  - cbn [app first_some after_dash].
    change (is_char 45 (chr 45)) with true. cbv iota.
    now rewrite Hday.
  - destruct (is_char 48 f && in_range 49 57 g); [|discriminate].
    cbn [app first_some after_dash].
    change (is_char 45 (chr 45)) with true. cbv iota.
    now rewrite Hday.
Qed.

(** A date in ISO form is read back as it is. *)
Lemma parse_isoformat (y m d : Z) :
  valid_date y m d = true ->
  _parse_iso_date (VStr (isoformat y m d)) = Some (isoformat y m d)
  /\ String.length (isoformat y m d) = 10%nat.
Proof.
  intros Hv.
  destruct (isoformat_chars y m d Hv)
    as (a & b & c & e & f & g & h & i & Hc & Ha & Hi & Hm).
  assert (Hs : strip (isoformat y m d) = isoformat y m d).
  { unfold strip. rewrite Hc. unfold strip_by, rstrip_by.
    cbn [lstrip_by]. rewrite (digit_not_space a Ha).
    cbn [rev app lstrip_by]. rewrite (digit_not_space i Hi).
    cbn [rev app]. rewrite <- Hc. apply str_of_chars. }
  split.
  - unfold _parse_iso_date. rewrite Hs.
    assert (He : is_empty (isoformat y m d) = false).
    { rewrite <- (str_of_chars (isoformat y m d)), Hc. reflexivity. }
    rewrite He. unfold strptime_date. rewrite Hm, Hv. reflexivity.
  - rewrite <- (str_of_chars (isoformat y m d)), Hc. reflexivity.
Qed.

Lemma parse_iso_date_form (v : value) (s : string) :
  _parse_iso_date v = Some s ->
  exists y m d, valid_date y m d = true /\ s = isoformat y m d.
Proof.
  unfold _parse_iso_date. destruct v as [| | | |x| |]; try discriminate.
  destruct (is_empty (strip x)); [discriminate|].
  unfold strptime_date.
  destruct (match_ymd (chars (strip x))) as [[[[y m] d] [|]]|];
    try discriminate.
  destruct (valid_date y m d) eqn:Hv; [|discriminate].
  intros [= <-]. eauto.
Qed.

Lemma ascii_compare_code (a b : ascii) :
  Ascii.compare a b = Z.compare (code a) (code b).
Proof. unfold Ascii.compare, code. symmetry. apply N2Z.inj_compare. Qed.

Lemma digit_code (c : ascii) : is_digit c = true -> 48 <= code c <= 57.
Proof.
  unfold is_digit, in_range. intros H. apply andb_true_iff in H as [H1 H2].
  apply Z.leb_le in H1. apply Z.leb_le in H2. lia.
Qed.

Ltac compare_digits :=
  match goal with
  | |- context [Z.compare ?x ?y] =>
      destruct (Z.compare_spec x y);
      [|split; [intros _; lia|reflexivity]
       |split; [discriminate|intros; exfalso; lia]]
  end.

(** Dates in ISO form compare as text the way they compare in the
    calendar. *)
Lemma isoformat_ltb (y1 m1 d1 y2 m2 d2 : Z) :
  valid_date y1 m1 d1 = true -> valid_date y2 m2 d2 = true ->
  String.ltb (isoformat y1 m1 d1) (isoformat y2 m2 d2) = true
  <-> earlier (y1, m1, d1) (y2, m2, d2).
Proof.
  intros V1 V2.
  destruct (isoformat_digits _ _ _ V1)
    as (a1 & b1 & c1 & e1 & f1 & g1 & h1 & i1 & Hc1 & Hg1 & Ey1 & Em1 & Ed1
        & _).
  destruct (isoformat_digits _ _ _ V2)
    as (a2 & b2 & c2 & e2 & f2 & g2 & h2 & i2 & Hc2 & Hg2 & Ey2 & Em2 & Ed2
        & _).
  rewrite <- (str_of_chars (isoformat y1 m1 d1)), Hc1.
  rewrite <- (str_of_chars (isoformat y2 m2 d2)), Hc2.
  repeat match goal with
         | H : Forall _ (_ :: _) |- _ => inversion_clear H
         end.
  repeat match goal with
         | H : is_digit _ = true |- _ => apply digit_code in H
         end.
  unfold digits_value, digit_val in *. cbn [fold_left] in *.
  subst y1 m1 d1 y2 m2 d2.
  unfold earlier, String.ltb.
  cbn [str_of string_of_list_ascii String.compare].
  rewrite !ascii_compare_code, !Z.compare_refl.
  do 8 compare_digits.
  split; [discriminate|intros; exfalso; lia].
Qed.

(** What [strptime] reads is a date. *)
Lemma strptime_date_valid (s : string) (y m d : Z) :
  strptime_date s = Ok (y, m, d) ->
  valid_date y m d = true /\ is_empty s = false.
Proof.
  unfold strptime_date. destruct s as [|c s]; [discriminate|].
  destruct (match_ymd _) as [[[[y' m'] d'] [|]]|]; try discriminate.
  destruct (valid_date y' m' d') eqn:Hv; [|discriminate].
  intros [= <- <- <-]. auto.
Qed.

(* ================================================================== *)
(** * What the validator raises *)

Lemma bind_raise {A B : Type} (r : result A) (k : A -> result B) (e : exn) :
  bind r k = Raise e ->
  r = Raise e \/ exists a, r = Ok a /\ k a = Raise e.
Proof. destruct r as [a|e']; simpl; [eauto|intros [= ->]; auto]. Qed.

Lemma except_type_value_raises {A : Type} (r : result A) (e : exn) :
  (forall e', r = Raise e' ->
              e' = TypeError \/ e' = ValueError \/ e' = OverflowError) ->
  except_type_value r = Raise e -> e = OverflowError.
Proof.
  intros Hr. destruct r as [a|e']; [discriminate|].
  destruct (Hr e' eq_refl) as [ -> | [ -> | -> ] ]; simpl; congruence.
Qed.

Lemma validate_set_raises (label : string) (si : Z) (s : value) (e : exn) :
  validate_set label si s = Raise e -> e = OverflowError.
Proof.
  destruct s as [| | | | | |sd]; try discriminate.
  unfold validate_set.
  destruct (py_get_dict sd "reps") as [r ->].
  destruct (py_get_dict sd "weight") as [w ->]. cbn [bind].
  intros H. apply bind_raise in H as [H|(oi & _ & H)].
  - exact (except_type_value_raises _ _ (py_int_raises_kind r) H).
  - apply bind_raise in H as [H|(ow & _ & H)]; [|discriminate].
    exact (except_type_value_raises _ _ (py_float_raises_kind w) H).
Qed.

Lemma validate_sets_raises (label : string) (sl : list value) (e : exn) :
  forall si, validate_sets label si sl = Raise e -> e = OverflowError.
Proof.
  induction sl as [|s sl IH]; intros si; simpl; [discriminate|].
  intros H. apply bind_raise in H as [H|(here & _ & H)].
  - exact (validate_set_raises _ _ _ _ H).
  - apply bind_raise in H as [H|(more & _ & H)]; [|discriminate].
    exact (IH _ H).
Qed.

Lemma validate_exercise_raises (ei : Z) (ex : value) (e : exn) :
  validate_exercise ei ex = Raise e -> e = OverflowError.
Proof.
  destruct ex as [| | | | | |ed]; try discriminate.
  unfold validate_exercise.
  destruct (py_get_dict ed "name") as [nm ->].
  destruct (py_get_dict ed "sets") as [sv ->]. cbn [bind].
  destruct sv as [| | | | |sl|]; try discriminate.
  destruct sl as [|s sl]; [discriminate|].
  intros H. apply bind_raise in H as [H|(more & _ & H)]; [|discriminate].
  exact (validate_sets_raises _ _ _ _ H).
Qed.

Lemma validate_exercises_raises (l : list value) (e : exn) :
  forall ei, validate_exercises ei l = Raise e -> e = OverflowError.
Proof.
  induction l as [|ex l IH]; intros ei; simpl; [discriminate|].
  intros H. apply bind_raise in H as [H|(here & _ & H)].
  - exact (validate_exercise_raises _ _ _ H).
  - apply bind_raise in H as [H|(more & _ & H)]; [|discriminate].
    exact (IH _ H).
Qed.

(* ================================================================== *)
(** * Demo data that is stored *)

Lemma has_exercise_same (d d' : db) (id : Z) :
  exercises d' = exercises d -> has_exercise d' id = has_exercise d id.
Proof. unfold has_exercise. now intros ->. Qed.

Lemma has_workout_same (d d' : db) (id : Z) :
  workouts d' = workouts d -> has_workout d' id = has_workout d id.
Proof. unfold has_workout. now intros ->. Qed.

Lemma generated_set_stored (rw : Z * float) :
  generated_set rw = true ->
  sqlite_integer (fst rw) = true /\ 1 <= fst rw
  /\ is_nan (snd rw) = false /\ float_leb pos_zero (snd rw) = true.
Proof.
  unfold generated_set. intros H.
  do 3 (apply andb_true_iff in H as [H ?]).
  apply Z.leb_le in H.
  match goal with H : (_ <=? 12) = true |- _ => apply Z.leb_le in H end.
  split_and; auto; try lia.
  - unfold sqlite_integer. apply andb_true_iff.
    split; [apply Z.leb_le|apply Z.ltb_lt]; lia.
  - now apply float_leb_not_nan.
Qed.

Example float_of_315 : float_of_int 315 = Ok float_315.
Proof. vm_compute. reflexivity. Qed.

Lemma seed_sets_succeeds (eid : Z) (sets_ : list (Z * float)) :
  forall (k : Z) (d : db),
    db_inv d -> has_exercise d eid = true ->
    forallb generated_set sets_ = true ->
    exists d', seed_sets eid k sets_ d = Ok d'.
Proof.
  induction sets_ as [|[reps weight] rest IH]; intros k d Hinv Hhas Hg;
    simpl; [eauto|].
  simpl in Hg. apply andb_true_iff in Hg as [Hg Hrest].
  destruct (generated_set_stored _ Hg) as (H1 & H2 & H3 & H4).
  destruct (sql_insert_set_succeeds eid k reps weight d H1 H2 H3 H4 Hhas)
    as (d1 & Hd1).
  rewrite Hd1. cbn [bind].
  destruct (sql_insert_set_inv _ _ _ _ _ _ Hinv Hd1)
    as (Hinv1 & _ & E & _).
  apply IH; auto. now rewrite (has_exercise_same d d1).
Qed.

Lemma seed_exercises_succeeds (wid : Z)
  (exs : list (string * list (Z * float))) :
  forall (k : Z) (d : db),
    db_inv d -> has_workout d wid = true ->
    forallb generated_exercise exs = true ->
    exists d', seed_exercises wid k exs d = Ok d'.
Proof.
  induction exs as [|[name sets_] rest IH]; intros k d Hinv Hhas Hg;
    simpl; [eauto|].
  simpl in Hg. apply andb_true_iff in Hg as [Hg Hrest].
  unfold generated_exercise in Hg. apply andb_true_iff in Hg as [_ Hg].
  destruct (sql_insert_exercise wid name k d) as [[d1 eid]|e] eqn:Hd1.
  2:{ unfold sql_insert_exercise in Hd1. rewrite Hhas in Hd1.
      discriminate. }
  cbn [bind].
  destruct (sql_insert_exercise_inv _ _ _ _ _ _ Hinv Hd1)
    as (Hinv1 & Eid & W & E & _).
  assert (Hhas1 : has_exercise d1 eid = true).
  { apply has_exercise_iff. eexists. split.
    - rewrite E. apply in_or_app. right. now left.
    - reflexivity. }
  destruct (seed_sets_succeeds eid sets_ 1 d1 Hinv1 Hhas1 Hg) as (d2 & Hd2).
  rewrite Hd2. cbn [bind].
  pose proof (seed_sets_inv _ _ _ _ _ Hinv1 Hd2) as Hinv2.
  apply IH; auto.
  assert (Hlt : seq_exercises d < eid) by lia.
  destruct (seed_sets_adds wid (seq_exercises d) _ _ _ _ _ Hinv1 Hlt Hd2)
    as (W2 & _).
  now rewrite (has_workout_same d1 d2), (has_workout_same d d1).
Qed.

Lemma seed_workouts_succeeds (drawn : list seeded_workout) :
  forall (created : Z) (d : db),
    db_inv d -> forallb generated drawn = true ->
    exists d' n, seed_workouts drawn created d = Ok (d', n).
Proof.
  induction drawn as [|w rest IH]; intros created d Hinv Hg;
    cbn [seed_workouts]; [eauto|].
  simpl in Hg. apply andb_true_iff in Hg as [Hg Hrest].
  unfold generated in Hg. apply andb_true_iff in Hg as [_ Hg].
  destruct (sql_insert_workout (Some (sw_workout_date w)) None (sw_now w)
              (sw_now w) d) as [[d1 wid]|e] eqn:Hd1; [|discriminate].
  cbn [bind].
  destruct (sql_insert_workout_inv _ _ _ _ _ _ _ Hinv Hd1)
    as (Hinv1 & _ & Hhas & _).
  destruct (seed_exercises_succeeds wid _ 1 d1 Hinv1 Hhas Hg) as (d2 & Hd2).
  rewrite Hd2. cbn [bind].
  apply IH; auto. exact (seed_exercises_inv _ _ _ _ _ Hinv1 Hd2).
Qed.

(* ================================================================== *)
(** * The routes of the API *)

Lemma validate_empty_payload :
  validate_workout_payload (VDict []) = Ok [msg_date; msg_no_exercise].
Proof. reflexivity. Qed.

Lemma request_payload_falsy (json : value) :
  truthy json = false -> request_payload json = VDict [].
Proof. unfold request_payload, py_or. now intros ->. Qed.

(** A payload without error is the body of the request itself. *)
Lemma request_payload_valid (json : value) :
  validate_workout_payload json = Ok [] -> request_payload json = json.
Proof.
  intros H. unfold request_payload, py_or.
  destruct json as [| | | | | |[|kv d]]; try discriminate. reflexivity.
Qed.

Lemma get_workout_none (d : db) (id : Z) :
  get_workout d id = None <-> has_workout d id = false.
Proof.
  unfold get_workout. split.
  - destruct (find _ (workouts d)) as [w|] eqn:F; [discriminate|].
    intros _. apply not_true_is_false. intros H.
    destruct (has_workout_find d id H) as (w & Hw & _). congruence.
  - intros H. now rewrite (no_workout_find d id H).
Qed.

Lemma list_workouts_length (d : db) :
  db_inv d -> List.length (list_workouts d) = List.length (workouts d).
Proof.
  intros Hinv. rewrite (list_workouts_spec d Hinv).
  rewrite (Permutation_length (order_by_perm _ _)). apply length_map.
Qed.

Lemma seed_count_bounds (payload : value) (count : Z) :
  seed_count payload = Ok count -> 1 <= count <= 2000.
Proof.
  unfold seed_count. intros H.
  apply bind_ok in H as (c & _ & H). apply bind_ok in H as (n & _ & H).
  injection H as <-. lia.
Qed.

(* ================================================================== *)
(** * More on the listing and on what is refused *)

(** The rows of [workouts] after an [update_workout] that returns true:
    those there were, the row of [id] changed. *)
Lemma update_workout_rows (now : string) (d d' : db) (id : Z)
  (payload : value) :
  db_inv d -> update_workout now d id payload = (d', Ok true) ->
  exists f,
    workouts d' = map f (workouts d)
    /\ (forall w, w_id (f w) = w_id w)
    /\ (forall w, w_id w <> id -> f w = w).
Proof.
  intros Hinv H.
  apply update_workout_steps in H
    as (Hhas & wdv & title & d1 & l & _ & _ & H1 & _ & H2).
  destruct (sql_update_workout_inv _ _ _ _ _ _ Hinv H1) as (Hinv1 & _).
  destruct (sql_delete_exercises_inv id d1 Hinv1) as (Hinv2 & _).
  destruct (insert_exercises_shape _ _ _ _ _ Hinv2 H2) as (_ & W & _).
  unfold sql_update_workout in H1.
  destruct (_parse_iso_date wdv) as [wd|];
    [|rewrite Hhas in H1; discriminate].
  injection H1 as <-. simpl in W.
  eexists. split; [exact W|]. split.
  - intros w. now destruct (w_id w =? id).
  - intros w Hne. apply Z.eqb_neq in Hne. now rewrite Hne.
Qed.

Lemma update_workout_false (now : string) (d d' : db) (id : Z)
  (payload : value) :
  update_workout now d id payload = (d', Ok false) ->
  has_workout d id = false.
Proof.
  unfold update_workout, transaction.
  destruct (has_workout d id); [|reflexivity]. cbn [negb].
  match goal with
  | |- match ?body with _ => _ end = _ -> _ =>
      destruct body as [[d3 b]|e] eqn:Hb
  end; [|discriminate].
  repeat (apply bind_ok in Hb as (? & ? & Hb)). intros [= _ <-].
  congruence.
Qed.

Lemma sorted_after {A : Type} (R : A -> A -> Prop) (l1 l2 : list A) (x : A) :
  StronglySorted R (l1 ++ x :: l2) -> Forall (R x) l2.
Proof.
  induction l1 as [|y l1 IH]; simpl; intros H.
  - now inversion H.
  - inversion H. auto.
Qed.

Lemma string_compare_refl (s : string) : String.compare s s = Eq.
Proof.
  induction s as [|c s IH]; simpl; [reflexivity|].
  now rewrite ascii_compare_code, Z.compare_refl.
Qed.

Lemma string_ltb_irrefl (s : string) : String.ltb s s = false.
Proof. unfold String.ltb. now rewrite string_compare_refl. Qed.

(** The title of an accepted payload that [create_workout] cannot
    strip. *)
Lemma title_param_raises (payload t : value) :
  py_get payload "title" = Ok t -> storable_title t = false ->
  title_param payload = Raise AttributeError.
Proof.
  intros Ht Hs. unfold title_param. rewrite Ht. cbn [bind].
  unfold py_or. destruct t; try discriminate Hs.
  all: match goal with
       | |- context [truthy ?v] =>
           assert (Ht' : truthy v = true)
             by (apply negb_false_iff; exact Hs);
           rewrite Ht'; reflexivity
       end.
Qed.

Lemma accepted_has_date (payload : value) :
  accepted payload = true ->
  exists wdv, py_getitem payload "workout_date" = Ok wdv.
Proof.
  unfold accepted. destruct payload as [| | | | | |d]; try discriminate.
  destruct (py_get_dict d "workout_date") as [wd Hwd]. rewrite Hwd.
  destruct (py_get (VDict d) "exercises") as [[| | | | |[|ex l]|]|];
    try discriminate.
  intros H. apply andb_true_iff in H as [H _].
  exists wd. apply py_getitem_of_get; [exact Hwd|].
  intros ->. discriminate.
Qed.

(* ================================================================== *)
(** * Further properties of the store *)

(** X1.  Writes to one workout leave the others as they are: in a
    reachable state, the tree [get_workout] returns for a stored workout
    is the same after [create_workout] of any payload, after
    [update_workout] or [delete_workout] of another identity, and after
    [seed_sample_data], whether the call returns or raises. *)
Theorem writes_leave_other_workouts (d : db) (id0 : Z) (v : workout_view) :
  reachable d ->
  get_workout d id0 = Some v ->
  (forall now payload,
      get_workout (fst (create_workout now d payload)) id0 = Some v)
  /\ (forall now id payload, id <> id0 ->
        get_workout (fst (update_workout now d id payload)) id0 = Some v)
  /\ (forall id, id <> id0 ->
        get_workout (fst (delete_workout d id)) id0 = Some v)
  /\ (forall drawn,
        get_workout (fst (seed_sample_data drawn d)) id0 = Some v).
Proof.
  intros Hr Hget. pose proof (reachable_inv d Hr) as Hinv.
  assert (Hold : id0 <= seq_workouts d).
  { unfold get_workout in Hget.
    destruct (find _ (workouts d)) as [w|] eqn:F; [|discriminate].
    apply find_some in F as [Hin Heq]. apply Z.eqb_eq in Heq.
    destruct Hinv as [_ Iw _ _ _ _].
    pose proof (ids_ok_bound w_id _ _ w Iw Hin). lia. }
  split_and.
  - intros now payload.
    destruct (create_workout now d payload) as [d' [id|e]] eqn:H; simpl.
    + rewrite <- Hget. apply get_workout_same_tree.
      eapply create_workout_same_tree; eauto.
      destruct (create_workout_seq _ _ _ _ _ Hinv H). lia.
    + apply transaction_raise in H. now subst.
  - intros now id payload Hne.
    destruct (update_workout now d id payload) as [d' r] eqn:H; simpl.
    rewrite <- Hget. apply get_workout_same_tree.
    eapply update_workout_same_tree; eauto.
  - intros id Hne.
    destruct (delete_workout d id) as [d' r] eqn:H; simpl.
    rewrite <- Hget. apply get_workout_same_tree.
    eapply delete_workout_same_tree; eauto.
  - intros drawn. unfold seed_sample_data, transaction.
    destruct (seed_workouts drawn 0 d) as [[d' n]|e] eqn:H; simpl;
      [|exact Hget].
    rewrite <- Hget. apply get_workout_same_tree.
    now apply (seed_workouts_adds _ _ _ _ _ Hinv H).
Qed.

Lemma writes_leave_other_workouts_witness :
  let d1 := fst (create_workout a_time (init_db None) squat_payload) in
  let d := fst (create_workout a_time d1 bench_payload) in
  exists v,
    get_workout d 1 = Some v
    /\ get_workout (fst (update_workout a_later_time d 2 squat_payload)) 1
       = Some v
    /\ get_workout (fst (delete_workout d 2)) 1 = Some v.
Proof.
  intros d1 d.
  assert (Hr : reachable d) by (apply reach_create, reach_create, reach_init).
  destruct (get_workout d 1) as [v|] eqn:Hget; [|vm_compute in Hget; discriminate].
  destruct (writes_leave_other_workouts d 1 v Hr Hget) as (_ & Hu & Hd & _).
  exists v. split_and; [reflexivity|apply Hu; discriminate|apply Hd; discriminate].
Defined.

(** X2.  Deleting an identity that is not in the store: in a reachable
    state, for every identity in the range of the row ids, the integers of
    64 bits, that has no workout, [delete_workout] returns false and the
    state is the one it was given. *)
Theorem delete_missing_is_noop (d : db) (id : Z) :
  reachable d ->
  sqlite_integer id = true ->
  has_workout d id = false ->
  delete_workout d id = (d, Ok false).
Proof.
  intros Hr _ Hno. pose proof (reachable_inv d Hr) as Hinv.
  destruct (delete_workout d id) as [d' r] eqn:H.
  apply delete_workout_returns in H as [-> ->].
  rewrite Hno. f_equal. now apply sql_delete_workout_missing.
Qed.

Lemma delete_missing_is_noop_witness :
  let d := fst (create_workout a_time (init_db None) squat_payload) in
  sqlite_integer 7 = true
  /\ has_workout d 7 = false /\ delete_workout d 7 = (d, Ok false).
Proof.
  intros d. split; [reflexivity|]. split; [vm_compute; reflexivity|].
  apply delete_missing_is_noop;
    [apply reach_create, reach_init|reflexivity|vm_compute; reflexivity].
Defined.

(** X3.  Deleting the workout [create_workout] has just stored removes
    what the call wrote and nothing else: the three tables are as they
    were before the call; only the last identities given out have moved
    on. *)
Theorem create_then_delete_restores (now : string) (d d' : db)
  (payload : value) (id : Z) :
  reachable d ->
  create_workout now d payload = (d', Ok id) ->
  exists d'',
    delete_workout d' id = (d'', Ok true)
    /\ workouts d'' = workouts d
    /\ exercises d'' = exercises d
    /\ sets d'' = sets d
    /\ seq_workouts d'' = seq_workouts d + 1.
Proof.
  intros Hr H. pose proof (reachable_inv d Hr) as Hinv.
  destruct (create_workout_returns _ _ _ _ _ Hinv H) as (Hinv' & Eid & _).
  destruct (create_workout_seq _ _ _ _ _ Hinv H) as (Q & _).
  apply create_workout_steps in H
    as (wdv & title & d1 & l & _ & _ & H1 & _ & H2).
  destruct (sql_insert_workout_inv _ _ _ _ _ _ _ Hinv H1)
    as (Hinv1 & _ & Hhas1 & E1 & S1 & Qe1 & _).
  assert (W1 : exists w, workouts d1 = workouts d ++ [w] /\ w_id w = id).
  { unfold sql_insert_workout in H1.
    destruct (_parse_iso_date wdv); [|discriminate].
    injection H1 as <- <-. simpl. eauto. }
  destruct W1 as (w & W1 & Hw).
  assert (A : adds_for id (seq_exercises d1) d1 d')
    by (eapply insert_exercises_adds; eauto; lia).
  destruct A as (W & _ & _ & _ & es & ss & E & S & Hes & Hss).
  rewrite Forall_forall in Hes, Hss.
  assert (Hold : forall e, In e (exercises d) -> e_workout_id e <> id).
  { intros e He. pose proof (exercises_reference_old d e Hinv He). lia. }
  assert (Hgone : filter (fun e => e_workout_id e =? id) (exercises d') = es).
  { rewrite E, E1, filter_app, filter_none, filter_all; [reflexivity| |].
    - intros e He. apply Z.eqb_eq. now destruct (Hes e He).
    - intros e He. apply Z.eqb_neq. auto. }
  exists (fst (sql_delete_workout id d')). split_and.
  - destruct (delete_workout d' id) as [d2 r] eqn:Hd.
    apply delete_workout_returns in Hd as [-> ->]. f_equal. f_equal.
    apply has_workout_iff. exists w. split; [|exact Hw].
    rewrite W, W1. apply in_or_app. right. now left.
  - simpl. rewrite W, W1, filter_app, filter_all.
    + simpl. rewrite Hw, Z.eqb_refl. simpl. apply app_nil_r.
    + intros w' Hw'. apply negb_true_iff, Z.eqb_neq.
      destruct Hinv as [_ Iw _ _ _ _].
      pose proof (ids_ok_bound w_id _ _ w' Iw Hw'). lia.
  - simpl. rewrite E, E1, filter_app, filter_all, filter_none.
    + apply app_nil_r.
    + intros e He. apply negb_false_iff, Z.eqb_eq. now destruct (Hes e He).
    + intros e He. apply negb_true_iff, Z.eqb_neq. auto.
  - simpl. unfold cascade_sets. rewrite Hgone, S, S1, filter_app.
    rewrite filter_all, filter_none.
    + apply app_nil_r.
    + intros s Hs. apply negb_false_iff.
      destruct Hinv' as [_ _ _ _ [_ Ho] _].
      rewrite Forall_forall in Ho.
      assert (Hin : In s (sets d')).
      { rewrite S, S1. apply in_or_app. now right. }
      specialize (Ho s Hin). apply has_exercise_iff in Ho as (e & He & Heq).
      apply existsb_exists. exists e. split; [|now apply Z.eqb_eq].
      rewrite E in He. apply in_app_or in He as [He|He]; [|exact He].
      rewrite E1 in He. specialize (Hss s Hs).
      destruct Hinv as [_ _ Ie _ _ _].
      pose proof (ids_ok_bound e_id _ _ e Ie He). lia.
    + intros s Hs. apply negb_true_iff. apply not_true_is_false.
      intros Hex. apply existsb_exists in Hex as (e & He & Heq).
      apply Z.eqb_eq in Heq. destruct (Hes e He) as [_ Hlt].
      pose proof (sets_reference_old d s Hinv Hs). lia.
  - simpl. lia.
Qed.

Lemma create_then_delete_restores_witness :
  let d := fst (create_workout a_time (init_db None) squat_payload) in
  let d' := fst (create_workout a_later_time d bench_payload) in
  exists d'',
    delete_workout d' 2 = (d'', Ok true)
    /\ workouts d'' = workouts d
    /\ exercises d'' = exercises d
    /\ sets d'' = sets d
    /\ seq_workouts d'' = seq_workouts d + 1.
Proof.
  intros d d'.
  apply (create_then_delete_restores a_later_time d d' bench_payload 2).
  - apply reach_create, reach_init.
  - vm_compute; reflexivity.
Defined.

(** X4.  An identity is given out once: in a reachable state, when
    [create_workout] returns an identity, every [create_workout] that
    returns after it, whatever was created, updated, deleted or seeded in
    between, returns a higher one. *)
Theorem identities_are_not_reused (now1 now2 : string) (d1 d1' d2 d2' : db)
  (p1 p2 : value) (id1 id2 : Z) :
  reachable d1 ->
  create_workout now1 d1 p1 = (d1', Ok id1) ->
  later d1' d2 ->
  create_workout now2 d2 p2 = (d2', Ok id2) ->
  id1 < id2.
Proof.
  intros Hr H1 Hl H2.
  assert (Hr1 : reachable d1').
  { replace d1' with (fst (create_workout now1 d1 p1)) by now rewrite H1.
    now apply reach_create. }
  pose proof (later_reachable _ _ Hr1 Hl) as Hr2.
  pose proof (later_seq_workouts _ _ Hr1 Hl) as Hseq.
  destruct (create_workout_seq _ _ _ _ _ (reachable_inv _ Hr) H1) as (Q1 & _).
  destruct (create_workout_seq _ _ _ _ _ (reachable_inv _ Hr2) H2)
    as (_ & Q2).
  lia.
Qed.

Lemma identities_are_not_reused_witness :
  let d1' := fst (create_workout a_time (init_db None) squat_payload) in
  let d2 := fst (delete_workout d1' 1) in
  let d2' := fst (create_workout a_later_time d2 squat_payload) in
  create_workout a_time (init_db None) squat_payload = (d1', Ok 1)
  /\ create_workout a_later_time d2 squat_payload = (d2', Ok 2)
  /\ 1 < 2.
Proof.
  intros d1' d2 d2'.
  assert (H1 : create_workout a_time (init_db None) squat_payload
               = (d1', Ok 1)) by (vm_compute; reflexivity).
  assert (H2 : create_workout a_later_time d2 squat_payload = (d2', Ok 2))
    by (vm_compute; reflexivity).
  split_and; auto.
  apply (identities_are_not_reused _ _ _ _ _ _ _ _ _ _ reach_init H1
           (later_step _ _ _ (later_now _) (step_delete d1' 1)) H2).
Defined.

(** X5.  [update_workout] keeps the identity and the creation time of the
    workout and stamps the update: in a reachable state, when it returns
    true for a workout whose tree was [v0], [get_workout] returns a tree
    with the same identity and [created_at], and with [updated_at] the time
    of the call. *)
Theorem update_keeps_created_at (now : string) (d d' : db) (id : Z)
  (payload : value) (v0 : workout_view) :
  reachable d ->
  get_workout d id = Some v0 ->
  update_workout now d id payload = (d', Ok true) ->
  exists v,
    get_workout d' id = Some v
    /\ wv_id v = id
    /\ wv_created_at v = wv_created_at v0
    /\ wv_updated_at v = now.
Proof.
  intros Hr Hget H.
  destruct (update_workout_returns _ _ _ _ _ (reachable_inv d Hr) H)
    as (_ & w0 & wdv & wd & title & views & Hfind & _ & _ & _ & _ & Hget'
        & _).
  unfold get_workout in Hget. rewrite Hfind in Hget. injection Hget as <-.
  apply find_some in Hfind as [_ Hid]. apply Z.eqb_eq in Hid.
  eexists. split; [exact Hget'|]. simpl. auto.
Qed.

Lemma update_keeps_created_at_witness :
  let d := fst (create_workout a_time (init_db None) bench_payload) in
  let d' := fst (update_workout a_later_time d 1 squat_payload) in
  exists v,
    get_workout d' 1 = Some v
    /\ wv_id v = 1
    /\ wv_created_at v = a_time
    /\ wv_updated_at v = a_later_time.
Proof.
  intros d d'.
  destruct (get_workout d 1) as [v0|] eqn:Hget;
    [|vm_compute in Hget; discriminate].
  destruct (update_keeps_created_at a_later_time d d' 1 squat_payload v0)
    as (v & Hv & Hid & Hc & Hu).
  - apply reach_create, reach_init.
  - exact Hget.
  - vm_compute; reflexivity.
  - exists v. split_and; auto. rewrite Hc.
    vm_compute in Hget. injection Hget as <-. reflexivity.
Defined.

(** X6.  The listing and the trees agree: in a reachable state each row
    of [list_workouts] has the date, title and times of the tree that
    [get_workout] returns for its identity, its [exercise_count] is the
    number of exercises of that tree and its [set_count] the number of
    their sets; and every workout [get_workout] finds has its row. *)
Theorem listing_agrees_with_trees (d : db) :
  reachable d ->
  (forall s, In s (list_workouts d) ->
     exists v,
       get_workout d (sm_id s) = Some v
       /\ wv_workout_date v = sm_workout_date s
       /\ wv_title v = sm_title s
       /\ wv_created_at v = sm_created_at s
       /\ wv_updated_at v = sm_updated_at s
       /\ sm_exercise_count s = Z.of_nat (List.length (wv_exercises v))
       /\ sm_set_count s
          = Z.of_nat (List.length (flat_map ev_sets (wv_exercises v))))
  /\ (forall id v, get_workout d id = Some v ->
        exists s, In s (list_workouts d) /\ sm_id s = id).
Proof.
  intros Hr. pose proof (reachable_inv d Hr) as Hinv.
  rewrite (list_workouts_spec d Hinv). split.
  - intros s Hs. apply order_by_in in Hs.
    apply in_map_iff in Hs as (w & <- & Hw).
    unfold get_workout. cbn [sm_id summary_of].
    rewrite (find_own d w Hinv Hw).
    destruct (summary_counts d w) as [He Hs].
    eexists. split; [reflexivity|]. cbn [wv_exercises].
    split_and; auto.
  - intros id v Hget. unfold get_workout in Hget.
    destruct (find _ (workouts d)) as [w|] eqn:F; [|discriminate].
    apply find_some in F as [Hin Heq]. apply Z.eqb_eq in Heq.
    exists (summary_of d w). split; [|exact Heq].
    apply order_by_in. now apply in_map.
Qed.

Lemma listing_agrees_with_trees_witness :
  let d := fst (create_workout a_time (init_db None) bench_payload) in
  exists s v,
    In s (list_workouts d)
    /\ get_workout d (sm_id s) = Some v
    /\ sm_exercise_count s = Z.of_nat (List.length (wv_exercises v))
    /\ sm_set_count s
       = Z.of_nat (List.length (flat_map ev_sets (wv_exercises v))).
Proof.
  intros d.
  destruct (listing_agrees_with_trees d (reach_create _ _ _ reach_init))
    as [H _].
  destruct (list_workouts d) as [|s l] eqn:Hl;
    [vm_compute in Hl; discriminate|].
  destruct (H s (or_introl eq_refl)) as (v & Hv & _ & _ & _ & _ & He & Hc).
  exists s, v. split_and; auto. now left.
Defined.

(** X7.  Deleting a workout takes its row, and no other, out of the
    listing: in a reachable state [list_workouts] after [delete_workout]
    of [id] is the listing there was without the row of [id], the other
    rows as they were and in the order they had. *)
Theorem delete_removes_one_row (d : db) (id : Z) :
  reachable d ->
  list_workouts (fst (delete_workout d id))
  = filter (fun s => negb (sm_id s =? id)) (list_workouts d).
Proof.
  intros Hr. pose proof (reachable_inv d Hr) as Hinv.
  pose proof (delete_workout_keeps d id Hinv) as Hinv'.
  rewrite (list_workouts_spec _ Hinv'), (list_workouts_spec d Hinv).
  destruct (delete_workout d id) as [d' r] eqn:H.
  pose proof (delete_workout_returns _ _ _ _ H) as [-> _]. simpl.
  rewrite <- (order_by_filter summary_le _ summary_le_total summary_le_trans).
  f_equal.
  rewrite <- (map_filter_key (summary_of d)
                (fun w => negb (w_id w =? id))); [|reflexivity].
  apply map_ext_in. intros w Hw. apply filter_In in Hw as [_ Hne].
  apply negb_true_iff, Z.eqb_neq in Hne.
  apply summary_of_same_tree.
  now apply (sql_delete_workout_same_tree id d (w_id w) Hinv).
Qed.

Lemma delete_removes_one_row_witness :
  let d1 := fst (create_workout a_time (init_db None) squat_payload) in
  let d := fst (create_workout a_later_time d1 bench_payload) in
  map sm_id (list_workouts d) = [2; 1]
  /\ map sm_id (list_workouts (fst (delete_workout d 2))) = [1].
Proof.
  intros d1 d. split; [vm_compute; reflexivity|].
  rewrite (delete_removes_one_row d 2).
  - vm_compute; reflexivity.
  - apply reach_create, reach_create, reach_init.
Defined.

(** X8.  Creating a workout adds one row to the listing: in a reachable
    state, when [create_workout] returns an identity, [list_workouts] then
    has the rows it had, unchanged, and one more, with that identity and
    both times equal to the time of the call. *)
Theorem create_adds_one_row (now : string) (d d' : db) (payload : value)
  (id : Z) :
  reachable d ->
  create_workout now d payload = (d', Ok id) ->
  exists s,
    sm_id s = id /\ sm_created_at s = now /\ sm_updated_at s = now
    /\ Permutation (list_workouts d') (s :: list_workouts d).
Proof.
  intros Hr H. pose proof (reachable_inv d Hr) as Hinv.
  destruct (create_workout_returns _ _ _ _ _ Hinv H)
    as (Hinv' & Eid & wdv & wd & title & views & _ & _ & _ & W & _).
  rewrite (list_workouts_spec _ Hinv'), (list_workouts_spec d Hinv), W.
  eexists. split_and.
  4:{ etransitivity; [apply order_by_perm|].
      rewrite map_app. simpl.
      etransitivity; [apply Permutation_app_comm|]. simpl.
      apply perm_skip.
      rewrite (map_ext_in (summary_of d') (summary_of d)).
      - symmetry. apply order_by_perm.
      - intros w Hw. apply summary_of_same_tree.
        eapply create_workout_same_tree; eauto.
        destruct Hinv as [_ Iw _ _ _ _].
        pose proof (ids_ok_bound w_id _ _ w Iw Hw). lia. }
  all: reflexivity.
Qed.

Lemma create_adds_one_row_witness :
  let d := fst (create_workout a_time (init_db None) squat_payload) in
  let d' := fst (create_workout a_later_time d bench_payload) in
  exists s,
    sm_id s = 2 /\ sm_created_at s = a_later_time
    /\ sm_updated_at s = a_later_time
    /\ Permutation (list_workouts d') (s :: list_workouts d).
Proof.
  intros d d'.
  apply (create_adds_one_row a_later_time d d' bench_payload 2).
  - apply reach_create, reach_init.
  - vm_compute; reflexivity.
Defined.

(** X9.  Updating a workout changes its row of the listing and no other:
    in a reachable state, after [update_workout] of [id], whether it
    returns or raises, [list_workouts] has rows for the same identities as
    before, and every row of another identity is the one it was. *)
Theorem update_changes_one_row (now : string) (d : db) (id : Z)
  (payload : value) :
  reachable d ->
  Permutation
    (map sm_id (list_workouts (fst (update_workout now d id payload))))
    (map sm_id (list_workouts d))
  /\ forall s, sm_id s <> id ->
       (In s (list_workouts (fst (update_workout now d id payload)))
        <-> In s (list_workouts d)).
Proof.
  intros Hr. pose proof (reachable_inv d Hr) as Hinv.
  pose proof (update_workout_keeps now d id payload Hinv) as Hinv'.
  destruct (update_workout now d id payload) as [d' r] eqn:H.
  cbn [fst] in *.
  assert (Hcase : r = Ok true \/ r <> Ok true).
  { destruct r as [[|]|e]; auto; right; discriminate. }
  destruct Hcase as [->|Hne].
  2:{ rewrite (update_workout_not_true _ _ _ _ _ _ H Hne).
      split; [reflexivity|tauto]. }
  destruct (update_workout_rows _ _ _ _ _ Hinv H) as (f & W & Hid & Hf).
  assert (Hsame : forall w, w_id w <> id ->
                            summary_of d' w = summary_of d w).
  { intros w Hw. apply summary_of_same_tree.
    eapply update_workout_same_tree; eauto. }
  rewrite (list_workouts_spec _ Hinv'), (list_workouts_spec d Hinv), W.
  split.
  - apply Permutation_trans
      with (map sm_id (map (summary_of d') (map f (workouts d))));
      [apply Permutation_map, order_by_perm|].
    apply Permutation_trans with (map sm_id (map (summary_of d) (workouts d)));
      [|apply Permutation_sym, Permutation_map, order_by_perm].
    rewrite !map_map. cbn [sm_id summary_of].
    rewrite (map_ext (fun w => w_id (f w)) w_id Hid). reflexivity.
  - intros s Hs. split; intros Hin.
    + apply order_by_in in Hin. apply order_by_in.
      apply in_map_iff in Hin as (w' & <- & Hw').
      apply in_map_iff in Hw' as (w & <- & Hw).
      cbn [sm_id summary_of] in Hs. rewrite Hid in Hs.
      rewrite (Hf w Hs), (Hsame w Hs). now apply in_map.
    + apply order_by_in in Hin. apply order_by_in.
      apply in_map_iff in Hin as (w & <- & Hw).
      cbn [sm_id summary_of] in Hs.
      rewrite <- (Hsame w Hs). apply in_map.
      rewrite <- (Hf w Hs). now apply in_map.
Qed.

Lemma update_changes_one_row_witness :
  let d1 := fst (create_workout a_time (init_db None) squat_payload) in
  let d := fst (create_workout a_time d1 bare_payload) in
  let d' := fst (update_workout a_later_time d 1 bench_payload) in
  map sm_id (list_workouts d) = [2; 1]
  /\ Permutation (map sm_id (list_workouts d')) [2; 1].
Proof.
  intros d1 d d'.
  assert (Hl : map sm_id (list_workouts d) = [2; 1])
    by (vm_compute; reflexivity).
  split; [exact Hl|].
  assert (Hr : reachable d)
    by (apply reach_create, reach_create, reach_init).
  destruct (update_changes_one_row a_later_time d 1 bench_payload Hr)
    as [Hp _].
  rewrite Hl in Hp. exact Hp.
Defined.

(** X10.  The listing is newest first: in any state, of two rows of
    [list_workouts] whose dates are dates of the calendar in ISO form, as
    [create_workout] and [update_workout] store them, the one listed
    first has a date that is not before the date of the other, and when
    the dates are the same it has the higher identity. *)
Theorem listing_is_newest_first (d : db) (l1 l2 : list summary)
  (s1 s2 : summary) (a b : Z * Z * Z) :
  list_workouts d = l1 ++ s1 :: l2 ->
  In s2 l2 ->
  is_date a = true -> is_date b = true ->
  sm_workout_date s1 = date_string a ->
  sm_workout_date s2 = date_string b ->
  ~ earlier a b /\ (a = b -> sm_id s2 <= sm_id s1).
Proof.
  intros Hl Hin Va Vb Ea Eb.
  pose proof (list_workouts_sorted d) as Hs. rewrite Hl in Hs.
  apply sorted_after in Hs. rewrite Forall_forall in Hs.
  specialize (Hs s2 Hin). unfold listed_before in Hs. rewrite Ea, Eb in Hs.
  destruct a as [[y1 m1] d1], b as [[y2 m2] d2].
  unfold date_string, is_date in *.
  destruct Hs as [Hlt|[Heq Hid]].
  - apply (isoformat_ltb _ _ _ _ _ _ Vb Va) in Hlt.
    unfold earlier in *. split; [lia|].
    intros [= -> -> ->]. lia.
  - split; [|auto]. intros He.
    apply (isoformat_ltb _ _ _ _ _ _ Va Vb) in He.
    rewrite Heq, string_ltb_irrefl in He. discriminate.
Qed.

Lemma listing_is_newest_first_witness :
  let d1 := fst (create_workout a_time (init_db None) squat_payload) in
  let d2 := fst (create_workout a_time d1 bare_payload) in
  let d3 := fst (create_workout a_later_time d2 squat_payload) in
  map (fun s => (sm_id s, sm_workout_date s)) (list_workouts d3)
  = [(2, "2024-01-17"); (3, "2024-01-15"); (1, "2024-01-15")]
  /\ ~ earlier (2024, 1, 17) (2024, 1, 15).
Proof.
  intros d1 d2 d3. split; [vm_compute; reflexivity|].
  destruct (list_workouts d3) as [|s1 [|s2 l]] eqn:Hl;
    [vm_compute in Hl; discriminate|vm_compute in Hl; discriminate|].
  refine (proj1 (listing_is_newest_first d3 [] (s2 :: l) s1 s2
                   (2024, 1, 17) (2024, 1, 15) Hl (or_introl eq_refl)
                   eq_refl eq_refl _ _));
    vm_compute in Hl; injection Hl as <- <- _; reflexivity.
Defined.

(** X11.  Rows stay numbered from one: in every reachable state, in the
    tree [get_workout] returns for a workout, the exercises have the
    [sort_order] 1, 2, ... in the order they are returned, and the sets of
    each exercise the [set_number] 1, 2, ... *)
Theorem trees_are_numbered (d : db) (id : Z) (v : workout_view) :
  reachable d ->
  get_workout d id = Some v ->
  counts_from 1 (map ev_sort_order (wv_exercises v))
  /\ Forall (fun ev => counts_from 1 (map sv_set_number (ev_sets ev)))
       (wv_exercises v).
Proof.
  intros Hr Hget. destruct (reachable_dense d Hr) as [De Ds].
  unfold get_workout in Hget.
  destruct (find _ (workouts d)) as [w|]; [|discriminate].
  injection Hget as <-. cbn [wv_exercises]. unfold exercises_rows.
  specialize (De id).
  destruct (counts_from_sorted e_sort_order exercise_le _ exercise_le_lt
              _ De) as [_ Hsorted].
  rewrite (order_by_sorted_id _ _ Hsorted). split.
  - now rewrite map_map.
  - rewrite Forall_map. apply Forall_forall. intros e _.
    cbn [ev_sets exercise_view_of]. unfold sets_rows.
    specialize (Ds (e_id e)).
    destruct (counts_from_sorted s_set_number set_le _ set_le_lt _ Ds)
      as [_ Hs].
    rewrite (order_by_sorted_id _ _ Hs). now rewrite map_map.
Qed.

Lemma trees_are_numbered_witness :
  let d1 := fst (create_workout a_time (init_db None) bench_payload) in
  let d2 := fst (create_workout a_time d1 squat_payload) in
  let d := fst (update_workout a_later_time d2 1 bench_payload) in
  exists v,
    get_workout d 1 = Some v
    /\ counts_from 1 (map ev_sort_order (wv_exercises v))
    /\ Forall (fun ev => counts_from 1 (map sv_set_number (ev_sets ev)))
         (wv_exercises v).
Proof.
  intros d1 d2 d.
  destruct (get_workout d 1) as [v|] eqn:Hget;
    [|vm_compute in Hget; discriminate].
  exists v. split; [reflexivity|].
  apply (trees_are_numbered d 1 v); [|exact Hget].
  apply reach_update, reach_create, reach_create, reach_init.
Defined.

(** X12.  The [CHECK] constraints hold of what is read: in every
    reachable state each set of a tree [get_workout] returns has one
    repetition or more and a weight that is a number not below zero. *)
Theorem stored_numbers_satisfy_checks (d : db) (id : Z) (v : workout_view)
  (ev : exercise_view) (sv : set_view) :
  reachable d ->
  get_workout d id = Some v ->
  In ev (wv_exercises v) -> In sv (ev_sets ev) ->
  1 <= sv_reps sv
  /\ float_leb pos_zero (sv_weight sv) = true
  /\ is_nan (sv_weight sv) = false.
Proof.
  intros Hr Hget Hev Hsv.
  destruct (reachable_inv d Hr) as [_ _ _ _ _ Hc].
  unfold get_workout in Hget.
  destruct (find _ (workouts d)) as [w|]; [|discriminate].
  injection Hget as <-. cbn [wv_exercises] in Hev.
  apply in_map_iff in Hev as (e & <- & _).
  cbn [ev_sets exercise_view_of] in Hsv.
  apply in_map_iff in Hsv as (s & <- & Hs).
  apply order_by_in, filter_In in Hs as [Hs _].
  unfold checks_ok in Hc. rewrite Forall_forall in Hc.
  destruct (Hc s Hs) as [H1 H2]. cbn [sv_reps sv_weight set_view_of].
  split_and; auto. now apply float_leb_not_nan.
Qed.

Lemma stored_numbers_satisfy_checks_witness :
  let d := fst (create_workout a_time (init_db None) squat_payload) in
  exists v ev sv,
    get_workout d 1 = Some v
    /\ In ev (wv_exercises v) /\ In sv (ev_sets ev)
    /\ 1 <= sv_reps sv /\ float_leb pos_zero (sv_weight sv) = true
    /\ is_nan (sv_weight sv) = false.
Proof.
  intros d. eexists _, _, _.
  split; [vm_compute; reflexivity|].
  split; [left; reflexivity|].
  split; [left; reflexivity|].
  eapply (stored_numbers_satisfy_checks d 1).
  - apply reach_create, reach_init.
  - vm_compute; reflexivity.
  - left; reflexivity.
  - left; reflexivity.
Defined.

(** X13.  The tables back the validator: whatever payload
    [create_workout] or [update_workout] is given, validated or not, when
    the call returns an identity (or true), every set of every exercise of
    the payload has repetitions that coerce to an integer from one up to
    [2^63 - 1] and a weight that coerces to a float that is a number not
    below zero; and when some set of the payload has not, [create_workout]
    raises, and so does [update_workout] of a workout that is in the
    store, both leaving the state as it was.  ([update_workout] of a
    workout that is not in the store returns false, whatever the
    payload.) *)
Theorem only_checked_numbers_are_stored (now : string) (d : db) (id : Z)
  (payload : value) (l : list value) :
  payload_exercises payload l ->
  (forall d' id', create_workout now d payload = (d', Ok id') ->
                  Forall kept_exercise l)
  /\ (forall d', update_workout now d id payload = (d', Ok true) ->
                 Forall kept_exercise l)
  /\ (~ Forall kept_exercise l ->
      (exists e, create_workout now d payload = (d, Raise e))
      /\ (has_workout d id = true ->
          exists e, update_workout now d id payload = (d, Raise e))).
Proof.
  intros Hl.
  assert (Hc : forall d' id', create_workout now d payload = (d', Ok id') ->
                              Forall kept_exercise l).
  { intros d' id' H. apply create_workout_steps in H
      as (wdv & title & d1 & l' & _ & _ & _ & Hl' & H2).
    rewrite (payload_exercises_unique _ _ _ Hl Hl').
    eapply insert_exercises_kept; exact H2. }
  assert (Hu : forall d', update_workout now d id payload = (d', Ok true) ->
                          Forall kept_exercise l).
  { intros d' H. apply update_workout_steps in H
      as (_ & wdv & title & d1 & l' & _ & _ & _ & Hl' & H2).
    rewrite (payload_exercises_unique _ _ _ Hl Hl').
    eapply insert_exercises_kept; exact H2. }
  split; [exact Hc|]. split; [exact Hu|].
  intros Hnot. split.
  - destruct (create_workout now d payload) as [d' [id'|e]] eqn:H.
    + destruct (Hnot (Hc d' id' eq_refl)).
    + apply transaction_raise in H. subst d'. eauto.
  - intros Hhas.
    destruct (update_workout now d id payload) as [d' [[|]|e]] eqn:H.
    + destruct (Hnot (Hu d' eq_refl)).
    + apply update_workout_false in H. congruence.
    + apply transaction_raise in H. subst d'. eauto.
Qed.

Lemma only_checked_numbers_are_stored_witness :
  Forall kept_exercise
    [an_exercise " Bench "
       [a_set (VStr "5") (VStr "135.5"); a_set (VFloat float_5_9) (VInt 100)];
     an_exercise "Row" [a_set (VInt 8) (VStr "60.5")]].
Proof.
  destruct (only_checked_numbers_are_stored a_time (init_db None) 1
              bench_payload
              [an_exercise " Bench "
                 [a_set (VStr "5") (VStr "135.5");
                  a_set (VFloat float_5_9) (VInt 100)];
               an_exercise "Row" [a_set (VInt 8) (VStr "60.5")]])
    as (Hc & _ & _).
  - eexists. split; vm_compute; reflexivity.
  - apply (Hc (fst (create_workout a_time (init_db None) bench_payload)) 1).
    vm_compute; reflexivity.
Defined.

(* ================================================================== *)
(** * Further properties of the validator *)

(** X14.  The date the validator and the writes keep is in canonical
    form: whatever [_parse_iso_date] returns is a string of ten characters
    that is not empty and that [_parse_iso_date] returns unchanged, so a
    date read from the store is accepted again as it is. *)
Theorem parse_iso_date_is_canonical (v : value) (s : string) :
  _parse_iso_date v = Some s ->
  _parse_iso_date (VStr s) = Some s
  /\ String.length s = 10%nat
  /\ no_date (Some s) = false.
Proof.
  intros H. apply parse_iso_date_form in H as (y & m & d & Hv & ->).
  destruct (parse_isoformat y m d Hv) as [Hp Hl]. split_and; auto.
  simpl. destruct (isoformat y m d); [discriminate|reflexivity].
Qed.

Lemma parse_iso_date_is_canonical_witness :
  _parse_iso_date (VStr " 2024-1-5 ") = Some "2024-01-05"
  /\ _parse_iso_date (VStr "2024-01-05") = Some "2024-01-05".
Proof.
  assert (H : _parse_iso_date (VStr " 2024-1-5 ") = Some "2024-01-05")
    by (vm_compute; reflexivity).
  split; [exact H|].
  apply (parse_iso_date_is_canonical (VStr " 2024-1-5 ") "2024-01-05" H).
Defined.

(** X15.  The dates that are kept sort as dates: when [strptime] reads
    the dates [a] and [b] from two strings without the blanks around them,
    [_parse_iso_date] returns for them two strings of which the first is
    below the second in the order of text, the order of
    [ORDER BY workout_date], exactly when [a] is before [b] in the
    calendar. *)
Theorem kept_dates_order_by_calendar (x1 x2 : string) (a b : Z * Z * Z) :
  strptime_date (strip x1) = Ok a ->
  strptime_date (strip x2) = Ok b ->
  exists s1 s2,
    _parse_iso_date (VStr x1) = Some s1
    /\ _parse_iso_date (VStr x2) = Some s2
    /\ (String.ltb s1 s2 = true <-> earlier a b).
Proof.
  destruct a as [[y1 m1] d1], b as [[y2 m2] d2]. intros H1 H2.
  destruct (strptime_date_valid _ _ _ _ H1) as [V1 E1].
  destruct (strptime_date_valid _ _ _ _ H2) as [V2 E2].
  exists (isoformat y1 m1 d1), (isoformat y2 m2 d2). split_and.
  - unfold _parse_iso_date. now rewrite E1, H1.
  - unfold _parse_iso_date. now rewrite E2, H2.
  - now apply isoformat_ltb.
Qed.

Lemma kept_dates_order_by_calendar_witness :
  exists s1 s2,
    _parse_iso_date (VStr "2023-12-31") = Some s1
    /\ _parse_iso_date (VStr " 2024-1-5 ") = Some s2
    /\ (String.ltb s1 s2 = true <-> earlier (2023, 12, 31) (2024, 1, 5)).
Proof.
  apply (kept_dates_order_by_calendar "2023-12-31" " 2024-1-5 ");
    vm_compute; reflexivity.
Defined.

(** X16.  The validator returns no error exactly for the payloads that
    are dictionaries with a date that parses and a list of one or more
    exercises, each a dictionary with a name that is not blank and a list
    of one or more sets, each a dictionary whose repetitions coerce to an
    integer of one or more and whose weight coerces to a float that is not
    below zero. *)
Theorem validate_accepts_exactly (payload : value) :
  validate_workout_payload payload = Ok [] <-> accepted payload = true.
Proof.
  destruct payload as [| | | | | |d]; try (split; discriminate).
  apply validate_nil_iff.
Qed.

(** X17.  The validator reads two entries of a payload and nothing
    else: two dictionaries with the same [workout_date] and the same
    [exercises] get the same answer, whatever their titles and other
    entries are. *)
Theorem validate_reads_two_keys (d d' : list (string * value)) :
  lookup "workout_date" d = lookup "workout_date" d' ->
  lookup "exercises" d = lookup "exercises" d' ->
  validate_workout_payload (VDict d) = validate_workout_payload (VDict d').
Proof.
  intros Hd He. unfold validate_workout_payload, py_get.
  now rewrite Hd, He.
Qed.

Lemma validate_reads_two_keys_witness :
  validate_workout_payload numeric_title_payload
  = validate_workout_payload squat_payload.
Proof.
  apply (validate_reads_two_keys
           [("workout_date", VStr "2024-01-15"); ("title", VInt 5);
            ("exercises",
             VList [an_exercise "Squat" [a_set (VInt 5) (VInt 225)]])]
           [("workout_date", VStr "2024-01-15"); ("title", VStr "Leg Day");
            ("exercises",
             VList [an_exercise "Squat" [a_set (VInt 5) (VInt 225)]])]);
    reflexivity.
Defined.

(** X18.  What the validator raises: [AttributeError] when the payload is
    not a dictionary, and nothing but [OverflowError] for a dictionary in
    which no exercise has a name that [str] may fail to write (an integer
    of more than 4300 digits, a list or a dictionary that is not
    empty). *)
Theorem validate_raises_only (payload : value) (e : exn) :
  names_print payload = true ->
  validate_workout_payload payload = Raise e ->
  (e = AttributeError /\ forall d, payload <> VDict d)
  \/ (e = OverflowError /\ exists d, payload = VDict d).
Proof.
  intros _.
  destruct payload as [| | | | | |d];
    try (intros [= <-]; left; split; [reflexivity|discriminate]).
  intros H. right. split; [|eauto].
  unfold validate_workout_payload in H.
  destruct (py_get_dict d "workout_date") as [wd Hwd].
  destruct (py_get_dict d "exercises") as [exs Hexs].
  rewrite Hwd in H. cbn [bind] in H. rewrite Hexs in H. cbn [bind] in H.
  destruct exs as [| | | | |l|]; try discriminate.
  destruct l as [|ex l]; [discriminate|].
  apply bind_raise in H as [H|(more & _ & H)]; [|discriminate].
  exact (validate_exercises_raises _ _ _ H).
Qed.

Lemma validate_raises_only_witness :
  names_print infinite_reps_payload = true
  /\ validate_workout_payload infinite_reps_payload = Raise OverflowError
  /\ exists d, infinite_reps_payload = VDict d.
Proof.
  assert (Hn : names_print infinite_reps_payload = true)
    by (vm_compute; reflexivity).
  assert (H : validate_workout_payload infinite_reps_payload
              = Raise OverflowError) by (vm_compute; reflexivity).
  split; [exact Hn|]. split; [exact H|].
  destruct (validate_raises_only _ _ Hn H) as [[_ Hnot]|[_ Hd]];
    [|exact Hd].
  eexists. reflexivity.
Defined.

(* ================================================================== *)
(** * Properties of the demo data *)

(** X19.  [seed_sample_data] stores all the workouts it draws or none: in
    a reachable state it either returns their number, and the listing has
    that many rows more, or raises and leaves the state as it was; and it
    returns whenever every draw is within the ranges of the generator. *)
Theorem seed_sample_data_all_or_nothing (drawn : list seeded_workout)
  (d : db) :
  reachable d ->
  (forall d' r, seed_sample_data drawn d = (d', r) ->
     (r = Ok (Z.of_nat (List.length drawn))
      /\ List.length (list_workouts d')
         = (List.length (list_workouts d) + List.length drawn)%nat)
     \/ (exists e, r = Raise e /\ d' = d))
  /\ (forallb generated drawn = true ->
      exists d',
        seed_sample_data drawn d = (d', Ok (Z.of_nat (List.length drawn)))).
Proof.
  intros Hr. pose proof (reachable_inv d Hr) as Hinv.
  assert (Hcase : forall d' r, seed_sample_data drawn d = (d', r) ->
            (r = Ok (Z.of_nat (List.length drawn))
             /\ List.length (list_workouts d')
                = (List.length (list_workouts d) + List.length drawn)%nat)
            \/ (exists e, r = Raise e /\ d' = d)).
  { intros d' r H. unfold seed_sample_data, transaction in H.
    destruct (seed_workouts drawn 0 d) as [[d1 n]|e] eqn:Hs.
    - injection H as <- <-. left.
      destruct (seed_workouts_adds _ _ _ _ _ Hinv Hs) as (En & _ & L & _).
      pose proof (seed_workouts_inv _ _ _ _ _ Hinv Hs) as Hinv1.
      rewrite !list_workouts_length by assumption.
      split; [f_equal; lia|exact L].
    - injection H as <- <-. right. eauto. }
  split; [exact Hcase|].
  intros Hg. destruct (seed_workouts_succeeds drawn 0 d Hinv Hg)
    as (d1 & n & Hs).
  destruct (seed_sample_data drawn d) as [d' r] eqn:H.
  destruct (Hcase d' r eq_refl) as [[-> _]|(e & -> & _)]; [eauto|].
  unfold seed_sample_data, transaction in H. rewrite Hs in H. discriminate.
Qed.

Lemma seed_sample_data_all_or_nothing_witness :
  let w := {| sw_workout_date := "2024-01-15"; sw_now := a_time;
              sw_exercises := [("Squat", [(5, float_5_9); (12, pos_zero)]);
                               ("Pull-up", [(3, float_315)])] |} in
  forallb generated [w; w] = true
  /\ exists d', seed_sample_data [w; w] (init_db None) = (d', Ok 2).
Proof.
  intros w. split; [vm_compute; reflexivity|].
  destruct (seed_sample_data_all_or_nothing [w; w] (init_db None)
              reach_init) as [_ H].
  apply H. vm_compute; reflexivity.
Defined.

(* ================================================================== *)
(** * Properties of the routes *)

(** X20.  A request that is not answered with success writes nothing: in
    a reachable state, when [api_create_workout], [api_update_workout] or
    [api_delete_workout] answers with a status of 400 or more, or raises,
    the state is the one it was given. *)
Theorem failed_requests_write_nothing (now : string) (d d' : db) (id : Z)
  (json : value) (r : result response) :
  reachable d ->
  api_create_workout now d json = (d', r)
  \/ api_update_workout now d id json = (d', r)
  \/ api_delete_workout d id = (d', r) ->
  (forall resp, r = Ok resp -> 400 <= r_status resp) ->
  d' = d.
Proof.
  intros Hr H Hfail. pose proof (reachable_inv d Hr) as Hinv.
  destruct H as [H|[H|H]].
  - unfold api_create_workout in H.
    destruct (validate_workout_payload (request_payload json))
      as [[|err errs]|e]; try (now injection H as <- _).
    destruct (create_workout now d (request_payload json))
      as [d1 [wid|e]] eqn:Hc.
    + injection H as <- <-.
      specialize (Hfail _ eq_refl). simpl in Hfail. lia.
    + injection H as <- _. now apply transaction_raise in Hc.
  - unfold api_update_workout in H.
    destruct (validate_workout_payload (request_payload json))
      as [[|err errs]|e]; try (now injection H as <- _).
    destruct (update_workout now d id (request_payload json))
      as [d1 [[|]|e]] eqn:Hu.
    + injection H as <- <-.
      specialize (Hfail _ eq_refl). simpl in Hfail. lia.
    + injection H as <- _.
      apply (update_workout_not_true _ _ _ _ _ _ Hu). discriminate.
    + injection H as <- _. now apply transaction_raise in Hu.
  - unfold api_delete_workout in H.
    destruct (delete_workout d id) as [d1 rd] eqn:Hd.
    apply delete_workout_returns in Hd as [-> ->].
    destruct (has_workout d id) eqn:Hhas.
    + injection H as <- <-.
      specialize (Hfail _ eq_refl). simpl in Hfail. lia.
    + injection H as <- _. now apply sql_delete_workout_missing.
Qed.

Lemma failed_requests_write_nothing_witness :
  let d := fst (create_workout a_time (init_db None) squat_payload) in
  api_update_workout a_later_time d 1 nan_weight_payload
  = (d, Raise IntegrityError).
Proof.
  intros d.
  destruct (api_update_workout a_later_time d 1 nan_weight_payload)
    as [d' r] eqn:H.
  assert (Er : r = Raise IntegrityError).
  { vm_compute in H. now injection H as _ <-. }
  f_equal; [|exact Er].
  apply (failed_requests_write_nothing a_later_time d d' 1
           nan_weight_payload r).
  - apply reach_create, reach_init.
  - right. left. exact H.
  - intros resp E. rewrite Er in E. discriminate.
Defined.

(** X21.  The routes put validation, write and read together: in a
    reachable state, for a body that the validator accepts and that can be
    stored, [api_create_workout] answers 201 with the next identity and
    the tree [get_workout] returns for it, and [api_update_workout] of a
    stored workout answers 200 with the tree [get_workout] returns; in
    both the tree holds the exercises and sets of the body, in order and
    numbered from one. *)
Theorem routes_store_and_return (now : string) (d : db) (json : value) :
  reachable d ->
  validate_workout_payload json = Ok [] ->
  storable json = true ->
  (exists d' id v,
      api_create_workout now d json
      = (d', Ok {| r_status := 201;
                   r_body := VDict [("ok", VBool true);
                                    ("workout_id", VInt id);
                                    ("workout", workout_dict v)] |})
      /\ id = seq_workouts d + 1
      /\ get_workout d' id = Some v
      /\ tree_matches json v)
  /\ (forall id, has_workout d id = true ->
        exists d' v,
          api_update_workout now d id json
          = (d', Ok {| r_status := 200;
                       r_body := VDict [("ok", VBool true);
                                        ("workout", workout_dict v)] |})
          /\ get_workout d' id = Some v
          /\ wv_id v = id
          /\ tree_matches json v).
Proof.
  intros Hr Hv Hs. pose proof (reachable_inv d Hr) as Hinv.
  pose proof (validate_accepts json Hv) as Ha.
  pose proof (request_payload_valid json Hv) as Hp.
  split.
  - destruct (create_workout_succeeds now d json Hinv Ha Hs)
      as (d' & id & Hc).
    destruct (create_workout_returns _ _ _ _ _ Hinv Hc)
      as (_ & Eid & wdv & wd & title & views & _ & _ & _ & _ & Hget & Hm
          & _).
    exists d', id. eexists. split_and.
    + unfold api_create_workout. rewrite Hp, Hv, Hc, Hget. reflexivity.
    + exact Eid.
    + exact Hget.
    + exact Hm.
  - intros id Hhas.
    destruct (update_workout_succeeds now d id json Hinv Hhas Ha Hs)
      as (d' & Hu).
    destruct (update_workout_returns _ _ _ _ _ Hinv Hu)
      as (_ & w0 & wdv & wd & title & views & Hfind & _ & _ & _ & _ & Hget
          & Hm & _).
    apply find_some in Hfind as [_ Hid]. apply Z.eqb_eq in Hid.
    exists d'. eexists. split_and.
    + unfold api_update_workout. rewrite Hp, Hv, Hu, Hget. reflexivity.
    + exact Hget.
    + exact Hid.
    + exact Hm.
Qed.

Lemma routes_store_and_return_witness :
  exists d' v,
    api_create_workout a_time (init_db None) bench_payload
    = (d', Ok {| r_status := 201;
                 r_body := VDict [("ok", VBool true);
                                  ("workout_id", VInt 1);
                                  ("workout", workout_dict v)] |})
    /\ tree_matches bench_payload v.
Proof.
  destruct (routes_store_and_return a_time (init_db None) bench_payload)
    as [(d' & id & v & H & Eid & _ & Hm) _].
  - apply reach_init.
  - vm_compute; reflexivity.
  - vm_compute; reflexivity.
  - exists d', v. split; [|exact Hm]. rewrite H, Eid. reflexivity.
Defined.

(** X22.  A request without a usable body is answered 400: when the body
    is missing, is not JSON, or is a JSON value that counts as false
    ([null], [false], [0], an empty string, list or object),
    [api_create_workout] and [api_update_workout] answer with the two
    errors of an empty payload, whether or not the workout of the request
    exists, and leave the state as it was. *)
Theorem empty_body_is_rejected (now : string) (d : db) (id : Z)
  (json : value) :
  truthy json = false ->
  api_create_workout now d json
  = (d, Ok (errors_response [msg_date; msg_no_exercise]))
  /\ api_update_workout now d id json
     = (d, Ok (errors_response [msg_date; msg_no_exercise])).
Proof.
  intros H. unfold api_create_workout, api_update_workout.
  rewrite (request_payload_falsy json H), validate_empty_payload.
  split; reflexivity.
Qed.

Lemma empty_body_is_rejected_witness :
  api_create_workout a_time (init_db None) (VList [])
  = (init_db None,
     Ok {| r_status := 400;
           r_body := VDict [("ok", VBool false);
                            ("errors",
                             VList [VStr msg_date;
                                    VStr msg_no_exercise])] |}).
Proof.
  apply (empty_body_is_rejected a_time (init_db None) 1 (VList [])).
  reflexivity.
Defined.

(** X23.  For an identity in the range of the row ids, the integers of
    64 bits, that has no workout in the store, [api_update_workout]
    answers 400 with the errors of the payload when there are any, and 404
    only when the payload is valid; the state is left as it was. *)
Theorem update_of_missing_workout (now : string) (d : db) (id : Z)
  (json : value) (errors : list string) :
  sqlite_integer id = true ->
  has_workout d id = false ->
  validate_workout_payload (request_payload json) = Ok errors ->
  api_update_workout now d id json
  = (d, Ok (match errors with
            | [] => not_found
            | _ :: _ => errors_response errors
            end)).
Proof.
  intros _ Hno Hv. unfold api_update_workout. rewrite Hv.
  destruct errors as [|err errs]; [|reflexivity].
  unfold update_workout, transaction. rewrite Hno. reflexivity.
Qed.

Lemma update_of_missing_workout_witness :
  api_update_workout a_time (init_db None) 5 squat_payload
  = (init_db None, Ok not_found)
  /\ api_update_workout a_time (init_db None) 5 no_exercise_payload
     = (init_db None, Ok (errors_response [msg_no_exercise])).
Proof.
  split.
  - apply (update_of_missing_workout a_time (init_db None) 5 squat_payload
             []); vm_compute; reflexivity.
  - apply (update_of_missing_workout a_time (init_db None) 5
             no_exercise_payload [msg_no_exercise]); vm_compute; reflexivity.
Defined.

(** X24.  What the validator lets through and the store refuses: for a
    body without error, [api_create_workout] raises [AttributeError] when
    the title is neither a string nor a value that counts as false, and
    raises as well when some set has repetitions that do not coerce to an
    integer from one up to [2^63 - 1] or a weight that does not coerce to
    a number not below zero (a weight of NaN, repetitions of [2^63]); the
    state is left as it was and the route gives no answer of its own. *)
Theorem accepted_bodies_that_raise (now : string) (d : db) (json : value) :
  validate_workout_payload json = Ok [] ->
  (forall t, py_get json "title" = Ok t -> storable_title t = false ->
     api_create_workout now d json = (d, Raise AttributeError))
  /\ (forall l, payload_exercises json l -> ~ Forall kept_exercise l ->
        exists e, api_create_workout now d json = (d, Raise e)).
Proof.
  intros Hv. pose proof (request_payload_valid json Hv) as Hp.
  unfold api_create_workout. rewrite Hp, Hv. split.
  - intros t Ht Hs.
    destruct (accepted_has_date json (validate_accepts json Hv))
      as (wdv & Hwd).
    unfold create_workout. rewrite Hwd. cbn [bind].
    rewrite (title_param_raises json t Ht Hs). reflexivity.
  - intros l Hl Hnot.
    destruct (create_workout now d json) as [d' [id|e]] eqn:Hc.
    + exfalso. apply Hnot.
      apply create_workout_steps in Hc
        as (wdv & title & d1 & l' & _ & _ & _ & Hl' & H2).
      rewrite (payload_exercises_unique _ _ _ Hl Hl').
      eapply insert_exercises_kept; exact H2.
    + apply transaction_raise in Hc. subst d'. eauto.
Qed.

Lemma accepted_bodies_that_raise_witness :
  api_create_workout a_time (init_db None) numeric_title_payload
  = (init_db None, Raise AttributeError).
Proof.
  destruct (accepted_bodies_that_raise a_time (init_db None)
              numeric_title_payload) as [H _].
  - vm_compute; reflexivity.
  - apply (H (VInt 5)); reflexivity.
Defined.

(** X25.  After a delete that is answered 200 the workout is gone: in a
    reachable state, [api_get_workout] of the identity then answers 404,
    and so do a second [api_delete_workout] and an [api_update_workout]
    with a valid payload, which leave the state as it is; the answer of
    [api_get_workout] for every other identity is the one it was. *)
Theorem deleted_workout_is_gone (elapsed_ms : float) (now : string)
  (d d' : db) (id : Z) (resp : response) :
  reachable d ->
  api_delete_workout d id = (d', Ok resp) ->
  r_status resp = 200 ->
  api_get_workout elapsed_ms d' id = not_found
  /\ api_delete_workout d' id = (d', Ok not_found)
  /\ (forall json, validate_workout_payload json = Ok [] ->
        api_update_workout now d' id json = (d', Ok not_found))
  /\ (forall id0, id0 <> id ->
        api_get_workout elapsed_ms d' id0 = api_get_workout elapsed_ms d id0).
Proof.
  intros Hr H Hst. pose proof (reachable_inv d Hr) as Hinv.
  unfold api_delete_workout in H.
  destruct (delete_workout d id) as [d1 rd] eqn:Hd.
  assert (Hframe : forall id0, id0 <> id -> same_tree d d1 id0).
  { intros id0. exact (delete_workout_same_tree _ _ _ id0 _ Hinv Hd). }
  pose proof (delete_workout_keeps d id Hinv) as Hinv'.
  rewrite Hd in Hinv'. cbn [fst] in Hinv'.
  pose proof (delete_workout_returns _ _ _ _ Hd) as [E ->].
  assert (Hgone : has_workout d1 id = false).
  { rewrite E. now apply sql_delete_workout_inv. }
  destruct (has_workout d id) eqn:Hhas.
  2:{ injection H as _ <-. discriminate. }
  injection H as <- _. clear E.
  split_and.
  - unfold api_get_workout.
    now rewrite (proj2 (get_workout_none _ _) Hgone).
  - unfold api_delete_workout.
    destruct (delete_workout d1 id) as [d2 r2] eqn:Hd2.
    apply delete_workout_returns in Hd2 as [-> ->].
    rewrite Hgone. f_equal.
    now apply sql_delete_workout_missing.
  - intros json Hv. unfold api_update_workout.
    rewrite (request_payload_valid json Hv), Hv.
    unfold update_workout, transaction. rewrite Hgone. reflexivity.
  - intros id0 Hne. unfold api_get_workout.
    now rewrite (get_workout_same_tree _ _ _ (Hframe id0 Hne)).
Qed.

Lemma deleted_workout_is_gone_witness :
  let d := fst (create_workout a_time (init_db None) squat_payload) in
  let d' := fst (delete_workout d 1) in
  api_get_workout pos_zero d' 1 = not_found
  /\ api_delete_workout d' 1 = (d', Ok not_found).
Proof.
  intros d d'.
  destruct (deleted_workout_is_gone pos_zero a_time d d' 1
              {| r_status := 200; r_body := VDict [("ok", VBool true)] |})
    as (H1 & H2 & _).
  - apply reach_create, reach_init.
  - vm_compute; reflexivity.
  - reflexivity.
  - split; assumption.
Defined.

(** X26.  [api_debug_seed] stores a bounded number of workouts: whatever
    count the body asks for, the count used is from 1 to 2000, and 200
    when the body is missing or counts as false; in a reachable state,
    when every draw is within the ranges of the generator, the route
    answers 200 with that count as [created] and the listing has that many
    rows more. *)
Theorem seed_route_is_bounded (draw : nat -> seeded_workout) (d : db)
  (json : value) (count : Z) :
  reachable d ->
  (forall i, generated (draw i) = true) ->
  seed_count (request_payload json) = Ok count ->
  1 <= count <= 2000
  /\ (truthy json = false -> count = 200)
  /\ exists d',
       api_debug_seed draw d json
       = (d', Ok {| r_status := 200;
                    r_body := VDict [("ok", VBool true);
                                     ("created", VInt count)] |})
       /\ Z.of_nat (List.length (list_workouts d'))
          = Z.of_nat (List.length (list_workouts d)) + count.
Proof.
  intros Hr Hg Hc. pose proof (seed_count_bounds _ _ Hc) as Hb.
  split; [exact Hb|]. split.
  - intros Hf. rewrite (request_payload_falsy json Hf) in Hc.
    vm_compute in Hc. congruence.
  - set (drawn := map draw (seq 0 (Z.to_nat count))).
    assert (Hlen : Z.of_nat (List.length drawn) = count).
    { unfold drawn. rewrite length_map, length_seq. lia. }
    assert (Hgen : forallb generated drawn = true).
    { apply forallb_forall. intros w Hw. unfold drawn in Hw.
      apply in_map_iff in Hw as (i & <- & _). apply Hg. }
    destruct (seed_workouts_succeeds drawn 0 d (reachable_inv d Hr) Hgen)
      as (d1 & n & Hs).
    destruct (seed_workouts_adds _ _ _ _ _ (reachable_inv d Hr) Hs)
      as (En & _ & L & _).
    pose proof (seed_workouts_inv _ _ _ _ _ (reachable_inv d Hr) Hs)
      as Hinv1.
    exists d1. split.
    + unfold api_debug_seed. rewrite Hc. fold drawn.
      unfold seed_sample_data, transaction. rewrite Hs.
      repeat f_equal. lia.
    + rewrite !list_workouts_length
        by (assumption || now apply reachable_inv).
      rewrite L. lia.
Qed.

Lemma seed_route_is_bounded_witness :
  let w := {| sw_workout_date := "2024-01-15"; sw_now := a_time;
              sw_exercises := [("Squat", [(5, float_5_9)])] |} in
  seed_count (request_payload (VDict [("count", VStr "5000")])) = Ok 2000
  /\ exists d',
       api_debug_seed (fun _ => w) (init_db None)
         (VDict [("count", VStr "5000")])
       = (d', Ok {| r_status := 200;
                    r_body := VDict [("ok", VBool true);
                                     ("created", VInt 2000)] |}).
Proof.
  intros w.
  assert (Hc : seed_count (request_payload (VDict [("count", VStr "5000")]))
               = Ok 2000) by (vm_compute; reflexivity).
  split; [exact Hc|].
  destruct (seed_route_is_bounded (fun _ => w) (init_db None)
              (VDict [("count", VStr "5000")]) 2000 reach_init)
    as (_ & _ & d' & H & _).
  - intros i. vm_compute; reflexivity.
  - exact Hc.
  - exists d'. exact H.
Defined.

(** X27.  What [api_list_workouts] lists can be fetched: in a reachable
    state its answer has one row for each stored workout, and for the
    identity of each row [api_get_workout] answers 200 with a tree of the
    same date and title whose number of exercises is the
    [exercise_count] of the row; for an identity in the range of the row
    ids, the integers of 64 bits, that is not listed it answers 404. *)
Theorem listed_workouts_can_be_fetched (elapsed_ms : float) (d : db) :
  reachable d ->
  (exists rows,
      py_get (r_body (api_list_workouts elapsed_ms d)) "workouts"
      = Ok (VList rows)
      /\ List.length rows = List.length (workouts d)
      /\ forall row, In row rows ->
           exists s v,
             row = summary_dict s
             /\ api_get_workout elapsed_ms d (sm_id s)
                = {| r_status := 200;
                     r_body := VDict [("ok", VBool true);
                                      ("workout", workout_dict v);
                                      ("timing_ms", VFloat elapsed_ms)] |}
             /\ wv_workout_date v = sm_workout_date s
             /\ wv_title v = sm_title s
             /\ sm_exercise_count s
                = Z.of_nat (List.length (wv_exercises v)))
  /\ (forall id, sqlite_integer id = true ->
        ~ In id (map sm_id (list_workouts d)) ->
        api_get_workout elapsed_ms d id = not_found).
Proof.
  intros Hr. pose proof (reachable_inv d Hr) as Hinv. split.
  - exists (map summary_dict (list_workouts d)). split_and.
    + reflexivity.
    + rewrite length_map. now apply list_workouts_length.
    + intros row Hrow. apply in_map_iff in Hrow as (s & <- & Hs).
      rewrite (list_workouts_spec d Hinv) in Hs.
      apply order_by_in in Hs. apply in_map_iff in Hs as (w & <- & Hw).
      destruct (summary_counts d w) as [He _].
      exists (summary_of d w). eexists. split; [reflexivity|].
      unfold api_get_workout, get_workout. cbn [sm_id summary_of].
      rewrite (find_own d w Hinv Hw). split; [reflexivity|].
      cbn [wv_workout_date wv_title wv_exercises]. auto.
  - intros id _ Hnot. unfold api_get_workout.
    destruct (get_workout d id) as [v|] eqn:Hget; [|reflexivity].
    exfalso. apply Hnot. unfold get_workout in Hget.
    destruct (find _ (workouts d)) as [w|] eqn:F; [|discriminate].
    apply find_some in F as [Hin Heq]. apply Z.eqb_eq in Heq.
    apply in_map_iff. exists (summary_of d w). split; [exact Heq|].
    rewrite (list_workouts_spec d Hinv). apply order_by_in.
    now apply in_map.
Qed.

Lemma listed_workouts_can_be_fetched_witness :
  let d := fst (create_workout a_time (init_db None) squat_payload) in
  api_get_workout pos_zero d 2 = not_found.
Proof.
  intros d.
  destruct (listed_workouts_can_be_fetched pos_zero d) as [_ H].
  - apply reach_create, reach_init.
  - apply H; [reflexivity|]. vm_compute. intros [H1|[]]. discriminate.
Defined.
